(** * World-happiness dashboard: the interaction logic of [toggle.py]

    A shallow embedding of the event handlers of the three views (bubble
    chart, linked brushing scatterplots, choropleth map) and of the size
    legend, followed by the properties of the handlers.

    Conventions.
    - Pixel coordinates (Qt) are integers, [Z].
    - Data values, areas and axis limits are Python floats; they are taken
      as rationals, [Q], and NaN / a null cell is the absent value.  Only
      comparisons and a few field operations are used on them.
    - A Python exception that leaves a handler (IndexError, KeyError,
      ValueError of [max] on an empty sequence) is the result [None].
    - Drawing calls ([canvas.draw], colour bars) have no effect on the
      state the handlers read back, and are left out.  Two things of the
      scatter artist are kept: in the linked view the check [ax.scatter]
      makes of the lengths of its arrays, since a ValueError there ends
      the handler, and in the bubble view the styling handed to the artist,
      since the hover handler is specified through it. *)

From Stdlib Require Import ZArith QArith Qminmax Qabs Lia Lqa.
From stdpp Require Import gmap strings list fin_maps pretty.

Open Scope Z_scope.

#[local] Set Warnings "-clear-no-such-hyp".

(** ** Tooltip placement

    The same sixteen lines close the hover handler of each of the three
    views ([BubbleChart.on_hover], [BrushingChart.on_hover],
    [MapChart.on_hover]): lines 303-330, 828-855 and 1108-1135. *)
Module Tooltip.

(** What the handler reads: the pointer in widget coordinates, the
    tooltip's size and the widget's size. *)
Record geometry := {
  mouse_x : Z; mouse_y : Z;
  tooltip_width : Z; tooltip_height : Z;
  window_width : Z; window_height : Z
}.

(** [offset_x] after the two tests on the horizontal axis. *)
Definition offset_x (g : geometry) : Z :=
  let offset_x := 20 in
  let offset_x :=
    if mouse_x g + offset_x + tooltip_width g >? window_width g
    then - tooltip_width g - 20 else offset_x in
  let offset_x :=
    if mouse_x g + offset_x <? 0 then 20 else offset_x in
  offset_x.

(** [offset_y] after the two tests on the vertical axis. *)
Definition offset_y (g : geometry) : Z :=
  let offset_y := 20 in
  let offset_y :=
    if mouse_y g + offset_y + tooltip_height g >? window_height g
    then - tooltip_height g - 20 else offset_y in
  let offset_y :=
    if mouse_y g + offset_y <? 0 then 20 else offset_y in
  offset_y.

Definition new_x (g : geometry) : Z := mouse_x g + offset_x g.
Definition new_y (g : geometry) : Z := mouse_y g + offset_y g.

(** The argument of [self.tooltip.move]: the tooltip's top-left corner. *)
Definition move (g : geometry) : Z * Z := (new_x g + 5, new_y g + 5).

(** The rectangle the tooltip occupies once moved lies in the window. *)
Definition inside_window (g : geometry) : Prop :=
  let '(x, y) := move g in
  0 <= x /\ x + tooltip_width g <= window_width g /\
  0 <= y /\ y + tooltip_height g <= window_height g.

(** The cursor is strictly inside the window. *)
Definition cursor_inside (g : geometry) : Prop :=
  0 < mouse_x g < window_width g /\ 0 < mouse_y g < window_height g.

(** The tooltip fits on one side of the cursor on each axis: the second
    pair of tests (the re-flip) does not fire. *)
Definition fits_beside_cursor (g : geometry) : Prop :=
  (mouse_x g + 20 + tooltip_width g <= window_width g \/
   0 <= mouse_x g - tooltip_width g - 20) /\
  (mouse_y g + 20 + tooltip_height g <= window_height g \/
   0 <= mouse_y g - tooltip_height g - 20).

(** The placement before the final shift by 5, as a rectangle. *)
Definition placement_inside_window (g : geometry) : Prop :=
  0 <= new_x g /\ new_x g + tooltip_width g <= window_width g /\
  0 <= new_y g /\ new_y g + tooltip_height g <= window_height g.

End Tooltip.

(** ** Data frames

    What the handlers use of pandas.  A frame is the list of its rows in
    positional order; a row maps a column name to the cell's value, and a
    null cell (NaN, None) is the absent key.  The bound attributes are
    names taken from the frame's own columns (the drop-downs of the linked
    view are filled from [self.data.columns]). *)
Module Pandas.

(** A non-null cell: a number, or text that does not read as a number
    (text that does is the number [pd.to_numeric] reads it as). *)
Inductive value :=
| Num (q : Q)
| Text (s : string).

Abbreviation row := (gmap string value).
Abbreviation frame := (list row).

(** [df.dropna(subset=...)]: a row stays when none of the listed cells is
    null.  The [reset_index(drop=True)] that follows it in the source
    renumbers the rows 0, 1, ..., which is the position in the list. *)
Definition dropna (subset : list string) (df : frame) : frame :=
  filter (λ r : row, Forall (λ a, is_Some (r !! a)) subset) df.

(** [pd.to_numeric(..., errors='coerce')] on one cell: what is not a
    number becomes NaN. *)
Definition coerce (c : option value) : option value :=
  match c with
  | Some (Num q) => Some (Num q)
  | Some (Text _) => None
  | None => None
  end.

(** [df[a] = pd.to_numeric(df[a], errors='coerce')]. *)
Definition to_numeric (a : string) (df : frame) : frame :=
  partial_alter coerce a <$> df.

(** [sorted([a, b])] on two floats: the pair is swapped when [b < a]. *)
Definition sorted2 (a b : Q) : Q * Q :=
  if Qle_bool a b then (a, b) else (b, a).

(** [series.between(lo, hi, inclusive='both')] on one cell: a comparison
    with NaN is false. *)
Definition between (lo hi : Q) (c : option value) : bool :=
  match c with
  | Some (Num q) => Qle_bool lo q && Qle_bool q hi
  | _ => false
  end.

(** [df[mask]]: the rows the mask keeps, each with its index label. *)
Definition loc (mask : row → bool) (df : frame) : list (nat * row) :=
  filter (λ ir : nat * row, mask ir.2) (imap pair df).

(** [.index] of a selection. *)
Definition index (sel : list (nat * row)) : list nat := sel.*1.

(** [.empty] of a selection. *)
Definition empty (sel : list (nat * row)) : bool :=
  match sel with [] => true | _ => false end.

End Pandas.

(** ** class Brush (lines 450-494) *)
Module Brush.
Import Pandas.

(** An RGBA colour, as the colour map returns it. *)
Definition rgba : Type := Q * Q * Q * Q.

Definition gray : rgba := (7 # 10, 7 # 10, 7 # 10, 1)%Q.

(** The data coordinates of a press or release event. *)
Record MouseEvent := { xdata : Q; ydata : Q }.

(** The fields of a brush that the handlers read back.  [selected] is the
    sub-frame of the last drag with its index labels. *)
Record t := {
  data : frame;
  selected : list (nat * row);
  default_colors : list rgba;
  colors : list rgba;
  sizes : list Q
}.

(** [Brush(df, ax, canvas, default_colors, size_scaled)]. *)
Definition init (df : frame) (default_colors : list rgba) (size_scaled : list Q) : t :=
  {| data := df; selected := [];
     default_colors := default_colors; colors := default_colors;
     sizes := size_scaled |}.

Definition set_colors (self : t) (cs : list rgba) : t :=
  {| data := data self; selected := selected self;
     default_colors := default_colors self; colors := cs;
     sizes := sizes self |}.

Definition set_data_selected (self : t) (df : frame) (sel : list (nat * row)) : t :=
  {| data := df; selected := sel;
     default_colors := default_colors self; colors := colors self;
     sizes := sizes self |}.

(** One element of the comprehension of [update_colors]:
    [gray if i not in selected else self.default_colors[i]]; the lookup
    raises IndexError past the end of [default_colors]. *)
Definition color_of (self : t) (selected : list nat) (i : nat) : option rgba :=
  if bool_decide (i ∉ selected) then Some gray else default_colors self !! i.

(** [Brush.update_colors] (lines 463-467). *)
Definition update_colors (self : t) (selected : list nat) : option t :=
  if bool_decide (length selected = 0%nat) then
    Some (set_colors self (default_colors self))
  else
    cs ← mapM (color_of self selected) (seq 0 (length (data self)));
    Some (set_colors self cs).

(** The mask of [callback]: both bound attributes within the bounds. *)
Definition in_rectangle (x_attr y_attr : string) (x1 x2 y1 y2 : Q) (r : row) : bool :=
  between x1 x2 (r !! x_attr) && between y1 y2 (r !! y_attr).

(** [Brush.callback], lines 469-483: what the callback has written to
    the brush when it reaches the scatter of line 484.  The frame, the
    selection and the colours stay in the brush whether or not the scatter
    then raises; [callback_then_scatter] below is the whole method. *)
Definition callback (self : t) (eclick erelease : MouseEvent)
    (x_attr y_attr : string) : option t :=
  let data := dropna [x_attr; y_attr] (data self) in
  let data := to_numeric x_attr data in
  let data := to_numeric y_attr data in
  let '(x1, x2) := sorted2 (xdata eclick) (xdata erelease) in
  let '(y1, y2) := sorted2 (ydata eclick) (ydata erelease) in
  let selected := loc (in_rectangle x_attr y_attr x1 x2 y1 y2) data in
  update_colors (set_data_selected self data selected) (index selected).

(** What [ax.scatter(x, y, c=..., s=...)] checks of its arrays before it
    draws [points] points; it raises ValueError otherwise.  The areas [s]
    have one entry or one per point. *)
Definition sizes_fit (points : nat) (s : list Q) : bool :=
  bool_decide (length s = 1%nat) || bool_decide (length s = points).

(** A list [c] of RGBA colours is empty, holds one colour, or one per
    point; a list whose numbers, four per colour, are as many as the points
    is read as values to map, and accepted too. *)
Definition colors_fit (points : nat) (c : list rgba) : bool :=
  bool_decide (length c = 0%nat) || bool_decide (length c = 1%nat)
  || bool_decide (length c = points) || bool_decide ((4 * length c)%nat = points).

Definition scatter_accepts (points : nat) (c : list rgba) (s : list Q) : bool :=
  sizes_fit points s && colors_fit points c.

(** [Brush.callback] in full (lines 469-494): the state of lines 469-483,
    then the scatter of line 484 over the rows left in the brush's frame,
    with the brush's colours and areas. *)
Definition callback_then_scatter (self : t) (eclick erelease : MouseEvent)
    (x_attr y_attr : string) : option t :=
  self ← callback self eclick erelease x_attr y_attr;
  if scatter_accepts (length (data self)) (colors self) (sizes self)
  then Some self else None.

End Brush.

(** ** class BrushingChart: the drag handler (lines 759-782) *)
Module BrushingChart.
Import Pandas.

(** The view's own frame, the two brushes and the current text of the
    four axis drop-downs. *)
Record t := {
  data : frame;
  brush1 : Brush.t;
  brush2 : Brush.t;
  x_dropdown_1 : string; y_dropdown_1 : string;
  x_dropdown_2 : string; y_dropdown_2 : string
}.

Definition set_brushes (self : t) (b1 b2 : Brush.t) : t :=
  {| data := data self; brush1 := b1; brush2 := b2;
     x_dropdown_1 := x_dropdown_1 self; y_dropdown_1 := y_dropdown_1 self;
     x_dropdown_2 := x_dropdown_2 self; y_dropdown_2 := y_dropdown_2 self |}.

(** [brush.selected.index if not brush.selected.empty else []]. *)
Definition selected_index (b : Brush.t) : list nat :=
  if negb (empty (Brush.selected b)) then index (Brush.selected b) else [].

(** The scatter of lines 770 and 781, on the complementary panel: the
    points are the rows of the view's own frame, the areas come from
    [scale], one per row, and the colours are the brush's. *)
Definition scatter_complementary (self : t) (b : Brush.t) : bool :=
  Brush.colors_fit (length (data self)) (Brush.colors b).

(** [BrushingChart.select].  An exception of the brush callback leaves
    the handler before the other brush is recoloured. *)
Definition select (self : t) (eclick erelease : Brush.MouseEvent) (graph : nat) : option t :=
  let x_attr1 := x_dropdown_1 self in
  let y_attr1 := y_dropdown_1 self in
  let x_attr2 := x_dropdown_2 self in
  let y_attr2 := y_dropdown_2 self in
  self ←
    (if bool_decide (graph = 1%nat) then
       b1 ← Brush.callback_then_scatter (brush1 self) eclick erelease x_attr1 y_attr1;
       let selected := selected_index b1 in
       b2 ← Brush.update_colors (brush2 self) selected;
       if scatter_complementary self b2 then Some (set_brushes self b1 b2)
       else None
     else Some self);
  if bool_decide (graph = 2%nat) then
    b2 ← Brush.callback_then_scatter (brush2 self) eclick erelease x_attr2 y_attr2;
    let selected := selected_index b2 in
    b1 ← Brush.update_colors (brush1 self) selected;
    if scatter_complementary self b1 then Some (set_brushes self b1 b2)
    else None
  else Some self.

End BrushingChart.

(** ** class BubbleChart: hover and click (lines 174-176, 271-368) *)
Module BubbleChart.
Import Pandas.

(** What a handler reads of a matplotlib pointer event and of the widget
    at the time of the event. *)
Record Event := {
  inaxes : bool;        (* [event.inaxes == self.ax] *)
  ind : list nat;       (* [self.scatter.contains(event)[1]["ind"]] *)
  local_pos : Z * Z;    (* the pointer, mapped to the widget *)
  window : Z * Z        (* width and height of [self.geometry()] *)
}.

(** The persistent per-row arrays and selection set, the styling last
    handed to the scatter artist, and the tooltip. *)
Record t := {
  data : frame;
  selected_indices : gset nat;
  edgecolors : list string;
  linewidths : list Q;
  scatter_edgecolors : list string;
  scatter_linewidths : list Q;
  tooltip_visible : bool;
  tooltip_pos : Z * Z
}.

(** [l[i] = x] on a Python list: IndexError past the end. *)
Definition list_set {A} (l : list A) (i : nat) (x : A) : option (list A) :=
  if bool_decide (i < length l)%nat then Some (<[i := x]> l) else None.

(** [s.remove(i)] on a Python set: KeyError when [i] is not a member. *)
Definition set_remove (s : gset nat) (i : nat) : option (gset nat) :=
  if bool_decide (i ∈ s) then Some (s ∖ {[i]}) else None.

(** [BubbleChart.__init__], from the frame as loaded and joined: the
    null filter of line 144, the arrays of lines 174-176, the hidden
    tooltip at (50, 50), and the first [update_data], which hands the
    arrays to the scatter. *)
Definition init (df : frame) : t :=
  let data := dropna ["Logged GDP per capita"; "Ladder score"; "pop_est"] df in
  let edgecolors := replicate (length data) "white" in
  let linewidths := replicate (length data) (1 # 2)%Q in
  {| data := data; selected_indices := ∅;
     edgecolors := edgecolors; linewidths := linewidths;
     scatter_edgecolors := edgecolors; scatter_linewidths := linewidths;
     tooltip_visible := false; tooltip_pos := (50, 50) |}.

(** The tooltip has the fixed size 225 x 63 (line 184). *)
Definition tooltip_geometry (event : Event) : Tooltip.geometry :=
  {| Tooltip.mouse_x := (local_pos event).1;
     Tooltip.mouse_y := (local_pos event).2;
     Tooltip.tooltip_width := 225; Tooltip.tooltip_height := 63;
     Tooltip.window_width := (window event).1;
     Tooltip.window_height := (window event).2 |}.

Definition hide_tooltip (self : t) : t :=
  {| data := data self; selected_indices := selected_indices self;
     edgecolors := edgecolors self; linewidths := linewidths self;
     scatter_edgecolors := scatter_edgecolors self;
     scatter_linewidths := scatter_linewidths self;
     tooltip_visible := false; tooltip_pos := tooltip_pos self |}.

Definition show_tooltip (self : t) (pos : Z * Z) : t :=
  {| data := data self; selected_indices := selected_indices self;
     edgecolors := edgecolors self; linewidths := linewidths self;
     scatter_edgecolors := scatter_edgecolors self;
     scatter_linewidths := scatter_linewidths self;
     tooltip_visible := true; tooltip_pos := pos |}.

(** [self.scatter.set_edgecolors(ec); self.scatter.set_linewidths(lw)]:
    the artist converts what it is given and keeps its own arrays. *)
Definition set_scatter (self : t) (ec : list string) (lw : list Q) : t :=
  {| data := data self; selected_indices := selected_indices self;
     edgecolors := edgecolors self; linewidths := linewidths self;
     scatter_edgecolors := ec; scatter_linewidths := lw;
     tooltip_visible := tooltip_visible self; tooltip_pos := tooltip_pos self |}.

Definition set_selection (self : t) (ec : list string) (lw : list Q)
    (sel : gset nat) : t :=
  {| data := data self; selected_indices := sel;
     edgecolors := ec; linewidths := lw;
     scatter_edgecolors := scatter_edgecolors self;
     scatter_linewidths := scatter_linewidths self;
     tooltip_visible := tooltip_visible self; tooltip_pos := tooltip_pos self |}.

(** [BubbleChart.on_hover] (lines 271-346). *)
Definition on_hover (self : t) (event : Event) : option t :=
  if negb (inaxes event) then Some (hide_tooltip self)
  else
    match ind event with
    | hovered_index :: _ =>
        _ ← data self !! hovered_index;         (* [self.data.iloc[...]] *)
        let self := show_tooltip self (Tooltip.move (tooltip_geometry event)) in
        let hover_edgecolors := edgecolors self in
        let hover_linewidths := linewidths self in
        c ← hover_edgecolors !! hovered_index;
        '(hover_edgecolors, hover_linewidths) ←
          (if bool_decide (c ≠ "red") then
             ec ← list_set hover_edgecolors hovered_index "black";
             lw ← list_set hover_linewidths hovered_index 2%Q;
             Some (ec, lw)
           else Some (hover_edgecolors, hover_linewidths));
        Some (set_scatter self hover_edgecolors hover_linewidths)
    | [] =>
        let self := hide_tooltip self in
        Some (set_scatter self (edgecolors self) (linewidths self))
    end.

(** [BubbleChart.on_click] (lines 348-368). *)
Definition on_click (self : t) (event : Event) : option t :=
  if negb (inaxes event) then Some self
  else
    match ind event with
    | clicked_index :: _ =>
        c ← edgecolors self !! clicked_index;
        self ←
          (if bool_decide (c = "red") then
             ec ← list_set (edgecolors self) clicked_index "white";
             lw ← list_set (linewidths self) clicked_index (1 # 2)%Q;
             sel ← set_remove (selected_indices self) clicked_index;
             Some (set_selection self ec lw sel)
           else
             ec ← list_set (edgecolors self) clicked_index "red";
             lw ← list_set (linewidths self) clicked_index 2%Q;
             Some (set_selection self ec lw ({[clicked_index]} ∪ selected_indices self)));
        Some (set_scatter self (edgecolors self) (linewidths self))
    | [] => Some self
    end.

(** The events of the view that touch the per-row state. *)
Inductive Handler := Hover | Click.

Definition handle (self : t) (h : Handler * Event) : option t :=
  match h.1 with
  | Hover => on_hover self h.2
  | Click => on_click self h.2
  end.

(** A run of events from a state; it stops at the first exception. *)
Fixpoint run (self : t) (hs : list (Handler * Event)) : option t :=
  match hs with
  | [] => Some self
  | h :: hs => self ← handle self h; run self hs
  end.

(** The pointer hits only points the scatter has: every index an event
    reports is a row of the data. *)
Definition hits_rows (self : t) (event : Event) : Prop :=
  Forall (λ i, i < length (data self))%nat (ind event).

(** The state the click handler keeps: the arrays are as long as the
    data, and a row is either unselected (white, 0.5, not a member) or
    selected (red, 2, a member). *)
Definition consistent (self : t) : Prop :=
  length (edgecolors self) = length (data self) ∧
  length (linewidths self) = length (data self) ∧
  ∀ i, (i < length (data self))%nat →
    (edgecolors self !! i = Some "white" ∧ linewidths self !! i = Some (1 # 2)%Q
       ∧ i ∉ selected_indices self) ∨
    (edgecolors self !! i = Some "red" ∧ linewidths self !! i = Some 2%Q
       ∧ i ∈ selected_indices self).

End BubbleChart.

(** ** Python's [f"{v:.1f}"] *)
Module Fmt.

(** The nearest integer to ten times a non-negative rational, ties to
    even: the tenths that [.1f] prints. *)
Definition tenths (q : Q) : Z :=
  let n := Qnum q * 10 in
  let d := Zpos (Qden q) in
  let fl := n / d in
  let r := n mod d in
  if 2 * r <? d then fl
  else if d <? 2 * r then fl + 1
  else if Z.even fl then fl else fl + 1.

Definition format_1f (q : Q) : string :=
  let t := tenths (Qabs q) in
  (if Qle_bool 0 q then EmptyString else "-")
    +:+ pretty (Z.to_N (t / 10)) +:+ "." +:+ pretty (Z.to_N (t mod 10)).

End Fmt.

(** ** class MapChart: label visibility (lines 1010-1053) *)
Module MapChart.

(** A shapely polygon, through the two things the labels read of it. *)
Record polygon := {
  area : Q;
  representative_point : Q * Q
}.

(** A territory's geometry by [geom_type]. *)
Inductive geometry :=
| Polygon (p : polygon)
| MultiPolygon (geoms : list polygon)
| OtherGeometry.

(** [max(geoms, key=lambda p: p.area)]: the first polygon of largest
    area; ValueError on an empty sequence. *)
Definition largest_polygon (geoms : list polygon) : option polygon :=
  match geoms with
  | [] => None
  | p :: geoms =>
      Some (fold_left (λ best q, if Qle_bool (area q) (area best) then best else q)
              geoms p)
  end.

(** [geometry.area] of a multi-polygon: the sum over its parts. *)
Definition total_area (geoms : list polygon) : Q :=
  fold_right (λ p acc, area p + acc)%Q 0%Q geoms.

(** [shapely.geometry.box(minx, miny, maxx, maxy)]. *)
Record Box := { minx : Q; miny : Q; maxx : Q; maxy : Q }.

Definition box (minx miny maxx maxy : Q) : Box :=
  {| minx := minx; miny := miny; maxx := maxx; maxy := maxy |}.

Definition Qlt_bool (a b : Q) : bool := negb (Qle_bool b a).

(** [box.contains(point)]: the point is in the rectangle's interior; a
    point on the boundary is not contained. *)
Definition contains (b : Box) (p : Q * Q) : bool :=
  Qlt_bool (Qmin (minx b) (maxx b)) p.1 && Qlt_bool p.1 (Qmax (minx b) (maxx b)) &&
  Qlt_bool (Qmin (miny b) (maxy b)) p.2 && Qlt_bool p.2 (Qmax (miny b) (maxy b)).

(** [box.area]. *)
Definition box_area (b : Box) : Q :=
  (Qabs (maxx b - minx b) * Qabs (maxy b - miny b))%Q.

(** A text artist of the axes. *)
Record Text := {
  text_xy : Q * Q;
  text : string;
  visible : bool
}.

Definition set_visible (t : Text) (v : bool) : Text :=
  {| text_xy := text_xy t; text := text t; visible := v |}.

(** A row of the boundary data set, with the joined score. *)
Record territory := {
  ladder_score : option Q;
  geometry_of : option geometry
}.

(** The body of the loop of [update_labels] for one label. *)
Definition update_label (visible_area : Box) (l : Text * geometry)
    : option (Text * geometry) :=
  let '(text, geometry) := l in
  match geometry with
  | Polygon p =>
      let representative_point := representative_point p in
      let point_in_visible_area := contains visible_area representative_point in
      let country_area := area p in
      let label_visible :=
        point_in_visible_area &&
        Qlt_bool (box_area visible_area * (15 # 10000)) country_area in
      Some (set_visible text label_visible, geometry)
  | MultiPolygon geoms =>
      largest_polygon ← largest_polygon geoms;
      let representative_point := representative_point largest_polygon in
      let point_in_visible_area := contains visible_area representative_point in
      let country_area := total_area geoms in
      let label_visible :=
        point_in_visible_area &&
        Qlt_bool (box_area visible_area * (15 # 10000)) country_area in
      Some (set_visible text label_visible, geometry)
  | OtherGeometry => Some (set_visible text false, geometry)
  end.

(** [MapChart.update_labels] on the labels, for the axes limits
    [xlim], [ylim]. *)
Definition update_labels (xlim ylim : Q * Q) (visible_labels : list (Text * geometry))
    : option (list (Text * geometry)) :=
  let visible_area := box xlim.1 ylim.1 xlim.2 ylim.2 in
  mapM (update_label visible_area) visible_labels.

(** The body of the loop of [plot_labels] for one territory: the label
    it appends, if any. *)
Definition plot_label (row : territory) : option (list (Text * geometry)) :=
  match ladder_score row, geometry_of row with
  | Some score, Some geometry =>
      match geometry with
      | Polygon p =>
          Some [({| text_xy := representative_point p;
                    text := Fmt.format_1f score; visible := true |}, geometry)]
      | MultiPolygon geoms =>
          largest_polygon ← largest_polygon geoms;
          Some [({| text_xy := representative_point largest_polygon;
                    text := Fmt.format_1f score; visible := true |}, geometry)]
      | OtherGeometry => Some []
      end
  | _, _ => Some []
  end.

(** [MapChart.plot_labels]: the labels of the territories, then
    [update_labels]. *)
Definition plot_labels (xlim ylim : Q * Q) (worldmap : list territory)
    : option (list (Text * geometry)) :=
  ls ← mapM plot_label worldmap;
  update_labels xlim ylim (concat ls).

(** The territory's representative point, as both loops compute it. *)
Definition label_point (g : geometry) : option (Q * Q) :=
  match g with
  | Polygon p => Some (representative_point p)
  | MultiPolygon geoms => representative_point <$> largest_polygon geoms
  | OtherGeometry => None
  end.

(** The territory's area. *)
Definition territory_area (g : geometry) : Q :=
  match g with
  | Polygon p => area p
  | MultiPolygon geoms => total_area geoms
  | OtherGeometry => 0
  end.

(** A point lies strictly between the viewport's limits on both axes. *)
Definition in_viewport (xlim ylim : Q * Q) (p : Q * Q) : Prop :=
  (Qmin xlim.1 xlim.2 < p.1 ∧ p.1 < Qmax xlim.1 xlim.2 ∧
   Qmin ylim.1 ylim.2 < p.2 ∧ p.2 < Qmax ylim.1 ylim.2)%Q.

(** The area of the viewport. *)
Definition viewport_area (xlim ylim : Q * Q) : Q :=
  (Qabs (xlim.2 - xlim.1) * Qabs (ylim.2 - ylim.1))%Q.

(** The visibility of a territory's label under a viewport, once
    [update_labels] ran; [None] when the geometry has no label. *)
Definition label_visible (xlim ylim : Q * Q) (g : geometry) : option bool :=
  (λ l : Text * geometry, visible l.1) <$>
  update_label (box xlim.1 ylim.1 xlim.2 ylim.2)
    ({| text_xy := (0, 0)%Q; text := EmptyString; visible := true |}, g).

End MapChart.

(** ** The size legends (lines 25-103) *)
Module Legend.

(** A float that may be NaN. *)
Definition float : Type := option Q.

(** [series.min()], [series.max()]: NaN on an empty series. *)
Definition series_min (size_data : list Q) : float :=
  match size_data with
  | [] => None
  | x :: l => Some (fold_left Qmin l x)
  end.

Definition series_max (size_data : list Q) : float :=
  match size_data with
  | [] => None
  | x :: l => Some (fold_left Qmax l x)
  end.

(** [np.linspace(start, stop, num=3)]: the step is half the distance, the
    first two samples are [0 * step + start] and [1 * step + start], the
    last one is [stop] itself; NaN limits give NaN samples. *)
Definition linspace3 (start stop : float) : list float :=
  match start, stop with
  | Some a, Some b =>
      let step := ((b - a) / 2)%Q in
      [Some (0 * step + a)%Q; Some (1 * step + a)%Q; Some b]
  | _, _ => [None; None; None]
  end.

(** [50 + ((v - size_min) / (size_max - size_min)) * 950], then
    [*= scale_factor / 50].  When the column is constant every sample is
    [size_min] and the quotient is 0 / 0, NaN. *)
Definition size_marker (size_min size_max : float) (scale_factor : Z) (v : float) : float :=
  match v, size_min, size_max with
  | Some v, Some lo, Some hi =>
      if Qeq_bool (hi - lo) 0 then None
      else Some ((50 + ((v - lo) / (hi - lo)) * 950) * (inject_Z scale_factor / 50))%Q
  | _, _, _ => None
  end.

(** The [size_values] of both legend functions. *)
Definition size_values (size_data : list Q) : list float :=
  linspace3 (series_min size_data) (series_max size_data).

(** The [size_markers] of both legend functions. *)
Definition size_markers (size_data : list Q) (scale_factor : Z) : list float :=
  size_marker (series_min size_data) (series_max size_data) scale_factor
    <$> size_values size_data.

(** [f"{val:.1f}"]. *)
Definition format_val (v : float) : string :=
  match v with
  | Some q => Fmt.format_1f q
  | None => "nan"
  end.

(** A legend handle: its label, and the marker area whose square root is
    the handle's [markersize]. *)
Record Line2D := {
  label : string;
  marker : float
}.

(** [add_dynamic_size_legend]: the handles of the legend it returns. *)
Definition add_dynamic_size_legend (size_data : list Q) (scale_factor : Z) : list Line2D :=
  let size_values := size_values size_data in
  let size_markers := size_markers size_data scale_factor in
  (λ vm : float * float, {| label := format_val vm.1; marker := vm.2 |})
    <$> zip size_values size_markers.

(** [add_size_legend]: the markers it scatters, each at [(i * 1.2, 0)]
    with area [marker]. *)
Definition add_size_legend (size_data : list Q) (scale_factor : Z) : list (Q * float) :=
  let size_values := size_values size_data in
  let size_markers := size_markers size_data scale_factor in
  imap (λ i (vm : float * float), ((inject_Z (Z.of_nat i) * (12 # 10))%Q, vm.2))
    (zip size_values size_markers).

(** *** The median, for comparison *)




(** A column is constant when its least and greatest values agree. *)
Definition non_constant (size_data : list Q) : Prop :=
  ∃ lo hi, series_min size_data = Some lo ∧ series_max size_data = Some hi
           ∧ (lo < hi)%Q.


End Legend.

(** ** The specification's properties, as predicates on the model *)
Module Spec.
Import Pandas.

(** The colour array of a brush is the recolouring by the index set
    [sel]: the default colours when the set is empty; otherwise one entry
    per row, gray outside the set and the brush's own default colour at
    the same index inside it. *)
Definition recolored (b : Brush.t) (sel : list nat) : Prop :=
  match sel with
  | [] => Brush.colors b = Brush.default_colors b
  | _ :: _ =>
      length (Brush.colors b) = length (Brush.data b) ∧
      ∀ i, (i < length (Brush.data b))%nat →
        Brush.colors b !! i =
          if bool_decide (i ∈ sel) then Brush.default_colors b !! i
          else Some Brush.gray
  end.

(** Both bound attributes of a row are numbers inside the rectangle
    spanned by the two corners of the drag, bounds included. *)
Definition in_drag_rectangle (eclick erelease : Brush.MouseEvent)
    (x_attr y_attr : string) (r : row) : Prop :=
  ∃ qx qy,
    r !! x_attr = Some (Num qx) ∧ r !! y_attr = Some (Num qy) ∧
    (Qmin (Brush.xdata eclick) (Brush.xdata erelease) <= qx)%Q ∧
    (qx <= Qmax (Brush.xdata eclick) (Brush.xdata erelease))%Q ∧
    (Qmin (Brush.ydata eclick) (Brush.ydata erelease) <= qy)%Q ∧
    (qy <= Qmax (Brush.ydata eclick) (Brush.ydata erelease))%Q.

(** The frame a drag leaves in the brush. *)
Definition dragged_frame (x y : string) (df : frame) : frame :=
  to_numeric y (to_numeric x (dropna [x; y] df)).

(** The selection a drag leaves in the brush. *)
Definition dragged_selection (e1 e2 : Brush.MouseEvent) (x y : string) (df : frame)
    : list (nat * row) :=
  loc (Brush.in_rectangle x y
         (sorted2 (Brush.xdata e1) (Brush.xdata e2)).1 (sorted2 (Brush.xdata e1) (Brush.xdata e2)).2
         (sorted2 (Brush.ydata e1) (Brush.ydata e2)).1 (sorted2 (Brush.ydata e1) (Brush.ydata e2)).2)
    (dragged_frame x y df).

(** The row as [callback] leaves it: both bound cells coerced. *)
Definition coerced (x_attr y_attr : string) (r : row) : row :=
  partial_alter coerce y_attr (partial_alter coerce x_attr r).

(** A column holds no text: its cells are numbers or null. *)
Definition numeric_column (a : string) (df : frame) : Prop :=
  Forall (λ r : row, ∀ s, r !! a ≠ Some (Text s)) df.

(** Every row has a number in both bound attributes. *)
Definition numeric_rows (x_attr y_attr : string) (df : frame) : Prop :=
  Forall (λ r : row, (∃ q, r !! x_attr = Some (Num q)) ∧
                     (∃ q, r !! y_attr = Some (Num q))) df.

(** A second application of the brush callback, with the same drag and
    attributes, selects the same index set and gives the same colours. *)
Definition idempotent_at (b : Brush.t) (eclick erelease : Brush.MouseEvent)
    (x_attr y_attr : string) : Prop :=
  ∀ b1 b2,
    Brush.callback b eclick erelease x_attr y_attr = Some b1 →
    Brush.callback b1 eclick erelease x_attr y_attr = Some b2 →
    index (Brush.selected b2) = index (Brush.selected b1) ∧
    Brush.colors b2 = Brush.colors b1.

(** The brush on which the drag of panel [graph] runs, and the other. *)
Definition dragged (graph : nat) (self : BrushingChart.t) : Brush.t :=
  if bool_decide (graph = 1%nat) then BrushingChart.brush1 self
  else BrushingChart.brush2 self.

Definition complementary (graph : nat) (self : BrushingChart.t) : Brush.t :=
  if bool_decide (graph = 1%nat) then BrushingChart.brush2 self
  else BrushingChart.brush1 self.

(** A brush has a default colour for each of its rows, as after
    [update_graph]. *)
Definition has_default_colors (b : Brush.t) : Prop :=
  (length (Brush.data b) ≤ length (Brush.default_colors b))%nat.

(** The per-row colour array of a brush is as long as its data. *)
Definition colors_match_rows (b : Brush.t) : Prop :=
  length (Brush.colors b) = length (Brush.data b).

(** Zooming from the first viewport to the second keeps a visible label
    visible unless the territory's area no longer exceeds 0.15% of the
    second viewport's area. *)
Definition zoom_monotone_at (g : MapChart.geometry)
    (xlim1 ylim1 xlim2 ylim2 : Q * Q) : Prop :=
  (MapChart.viewport_area xlim2 ylim2 < MapChart.viewport_area xlim1 ylim1)%Q →
  MapChart.label_visible xlim1 ylim1 g = Some true →
  MapChart.label_visible xlim2 ylim2 g = Some true ∨
  ¬ (MapChart.viewport_area xlim2 ylim2 * (15 # 10000) < MapChart.territory_area g)%Q.

End Spec.

(** ** Concrete inputs *)
Module Examples.
Import Pandas.

(** A row with columns [x] and [y]; [None] is a null cell. *)
Definition xy (x y : option value) : row :=
  partial_alter (λ _, x) "x" (partial_alter (λ _, y) "y" ∅).

Definition red : Brush.rgba := (1, 0, 0, 1)%Q.
Definition blue : Brush.rgba := (0, 0, 1, 1)%Q.

Definition press (x y : Q) : Brush.MouseEvent :=
  {| Brush.xdata := x; Brush.ydata := y |}.

(** The bubble view's tooltip (225 x 63) in a 1000 x 800 widget, pointer
    at (755, 100): the default placement passes the overflow test exactly
    and the final shift moves the right edge to 1005. *)
Definition g_overflow : Tooltip.geometry :=
  {| Tooltip.mouse_x := 755; Tooltip.mouse_y := 100;
     Tooltip.tooltip_width := 225; Tooltip.tooltip_height := 63;
     Tooltip.window_width := 1000; Tooltip.window_height := 800 |}.

(** Two rows, both with numbers in [x] and [y]. *)
Definition df_numeric : frame :=
  [xy (Some (Num 1)) (Some (Num 1)); xy (Some (Num 5)) (Some (Num 5))].

Definition brush_numeric : Brush.t := Brush.init df_numeric [red; blue] [100; 200]%Q.

(** Two rows; the first has text in [x] that is no number. *)
Definition df_text : frame :=
  [xy (Some (Text "unknown")) (Some (Num 1)); xy (Some (Num 1)) (Some (Num 1))].

Definition brush_text : Brush.t := Brush.init df_text [red; blue] [100; 200]%Q.

(** Two rows; the first has a null [x]. *)
Definition df_null : frame :=
  [xy None (Some (Num 1)); xy (Some (Num 5)) (Some (Num 5))].

Definition brush_null : Brush.t := Brush.init df_null [red; blue] [100; 200]%Q.

Definition chart_numeric : BrushingChart.t :=
  {| BrushingChart.data := df_numeric;
     BrushingChart.brush1 := brush_numeric;
     BrushingChart.brush2 := brush_numeric;
     BrushingChart.x_dropdown_1 := "x"; BrushingChart.y_dropdown_1 := "y";
     BrushingChart.x_dropdown_2 := "y"; BrushingChart.y_dropdown_2 := "x" |}.

(** The linked view over [df_text], with a colour and an area per row. *)
Definition chart_text : BrushingChart.t :=
  {| BrushingChart.data := df_text;
     BrushingChart.brush1 := brush_text;
     BrushingChart.brush2 := brush_text;
     BrushingChart.x_dropdown_1 := "x"; BrushingChart.y_dropdown_1 := "y";
     BrushingChart.x_dropdown_2 := "y"; BrushingChart.y_dropdown_2 := "x" |}.

(** A bubble view of three rows, and a click on its second point. *)
Definition bubble_row (gdp score pop : Q) : row :=
  <["Logged GDP per capita" := Num gdp]>
    (<["Ladder score" := Num score]> (<["pop_est" := Num pop]> ∅)).

Definition bubble3 : BubbleChart.t :=
  BubbleChart.init
    [bubble_row 10 7 1000; bubble_row 9 6 2000; bubble_row 8 5 3000]%Q.

Definition pointer_on (i : nat) : BubbleChart.Event :=
  {| BubbleChart.inaxes := true; BubbleChart.ind := [i];
     BubbleChart.local_pos := (300, 200); BubbleChart.window := (1000, 800) |}.

(** A territory of area 100 at the origin, a viewport around it, and a
    smaller viewport elsewhere. *)
Definition island : MapChart.geometry :=
  MapChart.Polygon {| MapChart.area := 100; MapChart.representative_point := (0, 0)%Q |}.

Definition island_label : MapChart.Text * MapChart.geometry :=
  ({| MapChart.text_xy := (0, 0)%Q; MapChart.text := "7.0"; MapChart.visible := true |},
   island).


End Examples.

(** ** Runs of drags in the linked view

    The two rectangle selectors (lines 664-667) call [select] with the
    corners of each finished drag and the number of the panel. *)
Module Drags.

Record drag := {
  eclick : Brush.MouseEvent;
  erelease : Brush.MouseEvent;
  graph : nat
}.

(** The drags of a session, in order; the run stops at the first
    exception. *)
Fixpoint run (self : BrushingChart.t) (ds : list drag) : option BrushingChart.t :=
  match ds with
  | [] => Some self
  | d :: ds =>
      self ← BrushingChart.select self (eclick d) (erelease d) (graph d);
      run self ds
  end.

(** A brush over a frame whose two bound columns hold a number in every
    row, with one default colour, one colour and one marker area per row:
    what [update_graph] builds over complete numeric columns. *)
Definition brush_ready (x_attr y_attr : string) (b : Brush.t) : Prop :=
  length (Brush.default_colors b) = length (Brush.data b) ∧
  length (Brush.colors b) = length (Brush.data b) ∧
  length (Brush.sizes b) = length (Brush.data b) ∧
  Spec.numeric_rows x_attr y_attr (Brush.data b).

(** Both brushes are ready, over frames as long as the view's own, which
    is the frame [update_graph] builds them over. *)
Definition ready (self : BrushingChart.t) : Prop :=
  (brush_ready (BrushingChart.x_dropdown_1 self) (BrushingChart.y_dropdown_1 self)
     (BrushingChart.brush1 self) ∧
   length (Brush.data (BrushingChart.brush1 self))
     = length (BrushingChart.data self)) ∧
  (brush_ready (BrushingChart.x_dropdown_2 self) (BrushingChart.y_dropdown_2 self)
     (BrushingChart.brush2 self) ∧
   length (Brush.data (BrushingChart.brush2 self))
     = length (BrushingChart.data self)).

End Drags.

(** ** Marker areas of the scatter plots (lines 211-214, 702-705, 754-757) *)
Module Sizes.
Import Pandas.

(** [series.clip(lower=...)] on one value. *)
Definition clip_lower (lower x : Q) : Q :=
  if Qle_bool lower x then x else lower.

(** [BubbleChart.update_data], lines 211-214: the marker areas of the
    bubbles, from the [pop_est] column.  When the clipped column is
    constant the quotient is 0 / 0, NaN. *)
Definition update_data_sizes (pop_est : list Q) : list Legend.float :=
  let size := clip_lower 0 <$> pop_est in
  let size_min := Legend.series_min size in
  let size_max := Legend.series_max size in
  (λ v,
     match size_min, size_max with
     | Some lo, Some hi =>
         if Qeq_bool (hi - lo) 0 then None
         else Some ((50 + ((v - lo) / (hi - lo)) * 950) * (100 / 50))%Q
     | _, _ => None
     end) <$> size.

(** [pd.to_numeric(column, errors='coerce')] as floats: a null cell and
    text that is no number are NaN. *)
Definition to_float (c : option value) : Legend.float :=
  match coerce c with
  | Some (Num q) => Some q
  | _ => None
  end.

(** The values of a series that are not NaN, which is what [min()] and
    [max()] range over. *)
Definition dropnan (size : list Legend.float) : list Q := omap id size.

(** [BrushingChart.scale] on the cells of the size column. *)
Definition scale (size_column : list (option value)) (scale : Z) : list Legend.float :=
  let size := to_float <$> size_column in
  let min_r := 50%Q in
  let max_r := 1000%Q in
  (λ v,
     match v, Legend.series_min (dropnan size), Legend.series_max (dropnan size) with
     | Some v, Some lo, Some hi =>
         if Qeq_bool (hi - lo) 0 then None
         else Some (min_r + ((v - lo) / (hi - lo)) * (max_r - min_r)
                              * inject_Z scale / 50)%Q
     | _, _, _ => None
     end) <$> size.

(** The [size_data] that [update_graph] and [toggle_legend] hand to the
    legend: [pd.to_numeric(column, errors='coerce').fillna(1).clip(lower=0)]. *)
Definition legend_size_data (size_column : list (option value)) : list Q :=
  (λ c, clip_lower 0 (default 1%Q (to_float c))) <$> size_column.

(** Every cell of a column is a number that is not negative. *)
Definition nonnegative_numbers (size_column : list (option value)) : Prop :=
  Forall (λ c, ∃ q, c = Some (Num q) ∧ (0 <= q)%Q) size_column.

End Sizes.

(** ** Loading and joining the data (lines 110-144, 924-962) *)
Module Loader.
Import Pandas.

(** A Python dict built from a sequence of pairs ([dict(zip(keys, values))],
    a dict comprehension, a dict literal): a later pair overwrites an
    earlier one with the same key. *)
Definition dict_of {A} (kvs : list (string * A)) : gmap string A :=
  foldl (λ m kv, <[kv.1 := kv.2]> m) ∅ kvs.

(** [series.map(d)] on one cell, for a dict with string keys: a cell
    that is not one of the keys, text or not, gives NaN. *)
Definition map_dict (d : gmap string value) (c : option value) : option value :=
  match c with
  | Some (Text s) => d !! s
  | _ => None
  end.

(** [series.fillna(other)] on one cell. *)
Definition fillna (c other : option value) : option value :=
  match c with
  | Some v => Some v
  | None => other
  end.

(** [df[a] = series], the series computed row by row. *)
Definition assign (a : string) (f : row → option value) (df : frame) : frame :=
  (λ r : row, partial_alter (λ _, f r) a r) <$> df.

(** [df.loc[:, df.columns != a]]. *)
Definition drop_column (a : string) (df : frame) : frame :=
  delete a <$> df.

(** The alias table of both constructors (lines 119-137 and 931-949). *)
Definition manual_mapping : list (string * string) :=
  [ ("Taiwan Province of China", "TWN");
    ("Kosovo", "XKX");
    ("South Korea", "KOR");
    ("Moldova", "MDA");
    ("Vietnam", "VNM");
    ("Bolivia", "BOL");
    ("Russia", "RUS");
    ("Hong Kong S.A.R. of China", "HKG");
    ("Congo (Brazzaville)", "COG");
    ("Congo (Kinshasa)", "COD");
    ("Venezuela", "VEN");
    ("Laos", "LAO");
    ("Ivory Coast", "CIV");
    ("State of Palestine", "PSE");
    ("Iran", "IRN");
    ("Turkiye", "TUR");
    ("Tanzania", "TZA") ].

(** Lines 115-138 (and 927-950): the [Country code] column.  [countries]
    is the list of [(country.name, country.alpha_3)] of pycountry. *)
Definition add_country_code (countries : list (string * string)) (df : frame) : frame :=
  let country_to_code := Text <$> dict_of countries in
  let df :=
    assign "Country code" (λ r, map_dict country_to_code (r !! "Country name")) df in
  assign "Country code"
    (λ r, fillna (r !! "Country code")
            (map_dict (Text <$> dict_of manual_mapping) (r !! "Country name")))
    df.

(** A record of the boundary file, through the properties the views
    read; the file gives every territory its code. *)
Record feature := {
  adm0_a3 : string;
  pop_est : option Q;
  geometry : option MapChart.geometry
}.

(** Lines 141-142: [pop_est] with nulls filled by 0, then
    [dict(zip(worldmap['adm0_a3'], worldmap['pop_est']))]. *)
Definition pop_est_mapping (worldmap : list feature) : gmap string value :=
  dict_of ((λ f, (adm0_a3 f, Num (default 0%Q (pop_est f)))) <$> worldmap).

(** [BubbleChart.__init__], lines 110-143: the frame before the null
    filter of line 144. *)
Definition bubble_frame (countries : list (string * string))
    (worldmap : list feature) (csv : frame) : frame :=
  let data := drop_column "Ladder score in Dystopia" csv in
  let data := add_country_code countries data in
  assign "pop_est" (λ r, map_dict (pop_est_mapping worldmap) (r !! "Country code")) data.

(** The whole constructor of the bubble view. *)
Definition bubble_chart (countries : list (string * string))
    (worldmap : list feature) (csv : frame) : BubbleChart.t :=
  BubbleChart.init (bubble_frame countries worldmap csv).

(** The code a country name resolves to: pycountry's, else the alias
    table's. *)
Definition resolve (countries : list (string * string)) (name : string) : option string :=
  match dict_of countries !! name with
  | Some c => Some c
  | None => dict_of manual_mapping !! name
  end.

(** The [Country code] cell a row of the CSV file gets. *)
Definition code_cell (countries : list (string * string)) (r : row) : option value :=
  match r !! "Country name" with
  | Some (Text name) => Text <$> resolve countries name
  | _ => None
  end.

(** The row of the bubble view's frame that a row of the CSV file
    becomes: without the Dystopia column, with its code and with the
    population joined on the code. *)
Definition bubble_row (countries : list (string * string))
    (worldmap : list feature) (r : row) : row :=
  partial_alter (λ _, map_dict (pop_est_mapping worldmap) (code_cell countries r))
    "pop_est"
    (partial_alter (λ _, code_cell countries r) "Country code"
       (delete "Ladder score in Dystopia" r)).

(** The rows of the CSV file that the bubble view keeps. *)
Definition bubble_keeps (countries : list (string * string))
    (worldmap : list feature) (r : row) : Prop :=
  is_Some (r !! "Logged GDP per capita") ∧ is_Some (r !! "Ladder score") ∧
  is_Some (bubble_row countries worldmap r !! "pop_est").

End Loader.

(** ** class MapChart: the join, hover and zoom (lines 916-1165) *)
Module MapView.
Import Pandas.

(** What a handler reads of a pointer event, of the toolbar and of the
    widget. *)
Record Event := {
  zoom_mode : bool;     (* [self.ax.get_navigate_mode() == 'ZOOM'] *)
  inaxes : bool;        (* [event.inaxes == self.ax] *)
  xydata : Q * Q;       (* [(event.xdata, event.ydata)] *)
  local_pos : Z * Z;    (* the pointer, mapped to the widget *)
  window : Z * Z        (* width and height of [self.geometry()] *)
}.

(** A highlight: the patch collection as an object (its identity is a
    number) and its patches, one outline per polygon. *)
Definition PatchCollection : Type := nat * list MapChart.polygon.

(** The view: the joined boundary file and data, the collections the
    handlers put on the axes, the labels and the tooltip. *)
Record t := {
  worldmap : list Loader.feature;
  data : frame;
  is_zooming : bool;
  highlight_patch : option PatchCollection;
  collections : list PatchCollection;
  next_id : nat;
  visible_labels : list (MapChart.Text * MapChart.geometry);
  tooltip_visible : bool;
  tooltip_size : option (Z * Z);
  tooltip_pos : Z * Z
}.

Definition set_is_zooming (self : t) (b : bool) : t :=
  {| worldmap := worldmap self; data := data self; is_zooming := b;
     highlight_patch := highlight_patch self; collections := collections self;
     next_id := next_id self; visible_labels := visible_labels self;
     tooltip_visible := tooltip_visible self; tooltip_size := tooltip_size self;
     tooltip_pos := tooltip_pos self |}.

Definition set_highlight (self : t) (h : option PatchCollection)
    (cs : list PatchCollection) (n : nat) : t :=
  {| worldmap := worldmap self; data := data self; is_zooming := is_zooming self;
     highlight_patch := h; collections := cs;
     next_id := n; visible_labels := visible_labels self;
     tooltip_visible := tooltip_visible self; tooltip_size := tooltip_size self;
     tooltip_pos := tooltip_pos self |}.

Definition set_labels (self : t) (ls : list (MapChart.Text * MapChart.geometry)) : t :=
  {| worldmap := worldmap self; data := data self; is_zooming := is_zooming self;
     highlight_patch := highlight_patch self; collections := collections self;
     next_id := next_id self; visible_labels := ls;
     tooltip_visible := tooltip_visible self; tooltip_size := tooltip_size self;
     tooltip_pos := tooltip_pos self |}.

Definition hide_tooltip (self : t) : t :=
  {| worldmap := worldmap self; data := data self; is_zooming := is_zooming self;
     highlight_patch := highlight_patch self; collections := collections self;
     next_id := next_id self; visible_labels := visible_labels self;
     tooltip_visible := false; tooltip_size := tooltip_size self;
     tooltip_pos := tooltip_pos self |}.

Definition show_tooltip (self : t) (size pos : Z * Z) : t :=
  {| worldmap := worldmap self; data := data self; is_zooming := is_zooming self;
     highlight_patch := highlight_patch self; collections := collections self;
     next_id := next_id self; visible_labels := visible_labels self;
     tooltip_visible := true; tooltip_size := Some size;
     tooltip_pos := pos |}.

(** [MapChart.remove_highlight]; [artist.remove()] raises when the artist
    is not on the axes. *)
Definition remove_highlight (self : t) : option t :=
  match highlight_patch self with
  | Some h =>
      if bool_decide (h.1 ∈ (collections self).*1) then
        Some (set_highlight self None
                (filter (λ c : PatchCollection, c.1 ≠ h.1) (collections self))
                (next_id self))
      else None
  | None => Some self
  end.

(** [MapChart.highlight_country]. *)
Definition highlight_country (self : t) (geometry : MapChart.geometry) : option t :=
  self ← match highlight_patch self with
         | Some _ => remove_highlight self
         | None => Some self
         end;
  let add patches :=
    let h := (next_id self, patches) in
    Some (set_highlight self (Some h) (collections self ++ [h]) (S (next_id self))) in
  match geometry with
  | MapChart.Polygon p => add [p]
  | MapChart.MultiPolygon geoms => add geoms
  | MapChart.OtherGeometry => Some self
  end.

(** [MapChart.on_zoom]: [xlim], [ylim] are the limits of the axes when
    the button is released. *)
Definition on_zoom (self : t) (zoom_mode : bool) (xlim ylim : Q * Q) : option t :=
  if zoom_mode then
    let self := set_is_zooming self false in
    ls ← MapChart.update_labels xlim ylim (visible_labels self);
    Some (set_labels self ls)
  else Some self.

Section Shapely.

(** [geometry.contains(Point(x, y))] of shapely. *)
Variable contains_point : MapChart.geometry → Q * Q → bool.

(** The loop of [on_hover]: the first territory, in the order of the
    file, whose geometry contains the point; a territory without geometry
    met before it raises. *)
Fixpoint first_hit (hover_point : Q * Q) (rows : list Loader.feature)
    : option (option Loader.feature) :=
  match rows with
  | [] => Some None
  | terr :: rows =>
      geometry ← Loader.geometry terr;
      if contains_point geometry hover_point then Some (Some terr)
      else first_hit hover_point rows
  end.

(** The mask [self.data['Country code'] == row['adm0_a3']] at a row of
    the data. *)
Definition matches (terr : Loader.feature) (r : row) : bool :=
  match r !! "Country code" with
  | Some (Text code) => bool_decide (code = Loader.adm0_a3 terr)
  | _ => false
  end.

(** [self.data[self.data['Country code'] == row['adm0_a3']]] is not
    empty. *)
Definition has_data_row (data : frame) (terr : Loader.feature) : bool :=
  existsb (matches terr) data.

(** The columns the large tooltip prints with [:.2f] (lines 1069-1082). *)
Definition detail_columns : list string :=
  [ "Ladder score"; "Standard error of ladder score"; "upperwhisker";
    "lowerwhisker"; "Logged GDP per capita"; "Social support";
    "Healthy life expectancy"; "Freedom to make life choices"; "Generosity";
    "Perceptions of corruption"; "Explained by: Log GDP per capita";
    "Explained by: Social support"; "Explained by: Healthy life expectancy";
    "Explained by: Freedom to make life choices" ].

(** [f"{data_row[c]:.2f}"] returns: a number prints, a null cell prints
    as nan, a text raises ValueError. *)
Definition prints_2f (data_row : row) (c : string) : bool :=
  match data_row !! c with
  | Some (Text _) => false
  | _ => true
  end.

(** Lines 1065-1092: [data_row] is the first row of the data with the
    territory's code, and the text of the large tooltip is built from it;
    the text itself is left out, its exception is not. *)
Definition details (data : frame) (terr : Loader.feature) : option unit :=
  match find (matches terr) data with
  | Some data_row =>
      if forallb (prints_2f data_row) detail_columns then Some () else None
  | None => Some ()
  end.

(** Lines 1056-1057: the flag set by a motion in zoom mode. *)
Definition flagged (self : t) (event : Event) : t :=
  if zoom_mode event then set_is_zooming self true else self.

(** Lines 1089 and 1092: the tooltip's size, by whether the data has a
    row for the territory. *)
Definition size_for (self : t) (terr : Loader.feature) : Z * Z :=
  if has_data_row (data self) terr then (375, 315) else (220, 60).

(** [MapChart.on_hover]. *)
Definition on_hover (self : t) (event : Event) : option t :=
  let self := flagged self event in
  if negb (inaxes event) then remove_highlight (hide_tooltip self)
  else
    hit ← first_hit (xydata event) (worldmap self);
    match hit with
    | Some terr =>
        _ ← details (data self) terr;
        let size := size_for self terr in
        let g := {| Tooltip.mouse_x := (local_pos event).1;
                    Tooltip.mouse_y := (local_pos event).2;
                    Tooltip.tooltip_width := size.1;
                    Tooltip.tooltip_height := size.2;
                    Tooltip.window_width := (window event).1;
                    Tooltip.window_height := (window event).2 |} in
        let self := show_tooltip self size (Tooltip.move g) in
        geometry ← Loader.geometry terr;
        highlight_country self geometry
    | None => remove_highlight (hide_tooltip self)
    end.

(** The two events the view is connected to (lines 979-980): a pointer
    motion, and a button release with the toolbar's mode and the limits of
    the axes at that time. *)
Inductive Action :=
| Motion (event : Event)
| Release (zoom_mode : bool) (xlim ylim : Q * Q).

Definition handle (self : t) (a : Action) : option t :=
  match a with
  | Motion event => on_hover self event
  | Release zoom_mode xlim ylim => on_zoom self zoom_mode xlim ylim
  end.

(** No territory of the list contains the point. *)
Definition misses (pt : Q * Q) (rows : list Loader.feature) : Prop :=
  Forall (λ f, ∀ g, Loader.geometry f = Some g → contains_point g pt = false) rows.

(** A run of events over the map; it stops at the first exception. *)
Fixpoint run (self : t) (actions : list Action) : option t :=
  match actions with
  | [] => Some self
  | a :: actions => self ← handle self a; run self actions
  end.

End Shapely.

(** The limits of the axes at the last release in zoom mode of a run. *)
Fixpoint last_zoom (actions : list Action) : option ((Q * Q) * (Q * Q)) :=
  match actions with
  | [] => None
  | a :: actions =>
      match last_zoom actions with
      | Some l => Some l
      | None =>
          match a with
          | Release true xlim ylim => Some (xlim, ylim)
          | _ => None
          end
      end
  end.

(** The cells of a row that the large tooltip prints are numbers or
    null, as in a file whose columns are numeric. *)
Definition printable (r : row) : Prop :=
  forallb (prints_2f r) detail_columns = true.

(** Every territory of the file has a geometry, every row of the data is
    printable, and every label has the geometry of a polygon or of a
    multi-polygon with a part. *)
Definition well_formed (self : t) : Prop :=
  Forall (λ f, is_Some (Loader.geometry f)) (worldmap self) ∧
  Forall printable (data self) ∧
  Forall (λ l : MapChart.Text * MapChart.geometry,
            is_Some (MapChart.label_point l.2)) (visible_labels self).

(** The axes hold the current highlight and no other. *)
Definition one_highlight (self : t) : Prop :=
  collections self = option_list (highlight_patch self).

(** The patches [highlight_country] draws for a geometry. *)
Definition outline (g : MapChart.geometry) : option (list MapChart.polygon) :=
  match g with
  | MapChart.Polygon p => Some [p]
  | MapChart.MultiPolygon geoms => Some geoms
  | MapChart.OtherGeometry => None
  end.

End MapView.

(** ** class BubbleChart: the hover handler with its tooltip text
    (lines 271-346) *)
Module BubbleView.
Import Pandas BubbleChart.

(** Lines 278-288: the text of the tooltip is built from the hovered row
    before the tooltip is shown or the scatter restyled;
    [f"{ladder_score:.2f}"] raises ValueError for a text.  The text itself
    is left out, its exceptions are not. *)
Definition details (self : t) (event : Event) : option unit :=
  if negb (inaxes event) then Some ()
  else
    match ind event with
    | hovered_index :: _ =>
        data_row ← data self !! hovered_index;
        if MapView.prints_2f data_row "Ladder score" then Some () else None
    | [] => Some ()
    end.

(** [BubbleChart.on_hover], text included. *)
Definition on_hover (self : t) (event : Event) : option t :=
  _ ← details self event; BubbleChart.on_hover self event.

Definition handle (self : t) (h : Handler * Event) : option t :=
  match h.1 with
  | Hover => on_hover self h.2
  | Click => on_click self h.2
  end.

(** A run of events from a state; it stops at the first exception. *)
Fixpoint run (self : t) (hs : list (Handler * Event)) : option t :=
  match hs with
  | [] => Some self
  | h :: hs => self ← handle self h; run self hs
  end.

(** No score of the data is a text. *)
Definition scores_print (self : t) : Prop :=
  Forall (λ r : row, MapView.prints_2f r "Ladder score" = true) (data self).

(** The view over one row whose score is a text. *)
Definition bubble_text : t :=
  init [ <["Logged GDP per capita" := Num 10%Q]>
           (<["Ladder score" := Text "n/a"]> (<["pop_est" := Num 1000%Q]> ∅)) ].

End BubbleView.

(** ** Concrete inputs for the map view *)
Module MapExamples.
Import Pandas.

Definition island_feature : Loader.feature :=
  {| Loader.adm0_a3 := "ISL"; Loader.pop_est := Some 100%Q;
     Loader.geometry := Some Examples.island |}.

(** The view over one territory, as constructed: no highlight, the
    tooltip hidden at (50, 50). *)
Definition view : MapView.t :=
  {| MapView.worldmap := [island_feature];
     MapView.data := [ {[ "Country code" := Text "ISL" ]} ];
     MapView.is_zooming := false;
     MapView.highlight_patch := None;
     MapView.collections := [];
     MapView.next_id := 0;
     MapView.visible_labels := [Examples.island_label];
     MapView.tooltip_visible := false;
     MapView.tooltip_size := None;
     MapView.tooltip_pos := (50, 50) |}.

(** The same view over data whose score is a text. *)
Definition view_text : MapView.t :=
  {| MapView.worldmap := [island_feature];
     MapView.data := [ {[ "Country code" := Text "ISL";
                          "Ladder score" := Text "n/a" ]} ];
     MapView.is_zooming := false;
     MapView.highlight_patch := None;
     MapView.collections := [];
     MapView.next_id := 0;
     MapView.visible_labels := [Examples.island_label];
     MapView.tooltip_visible := false;
     MapView.tooltip_size := None;
     MapView.tooltip_pos := (50, 50) |}.

(** A stand-in for shapely: the island covers the square of side 10
    around the origin. *)
Definition in_square (g : MapChart.geometry) (p : Q * Q) : bool :=
  Qle_bool (-5) p.1 && Qle_bool p.1 5 && Qle_bool (-5) p.2 && Qle_bool p.2 5.

Definition motion_at (x y : Q) : MapView.Event :=
  {| MapView.zoom_mode := false; MapView.inaxes := true;
     MapView.xydata := (x, y);
     MapView.local_pos := (100, 100); MapView.window := (1000, 800) |}.

End MapExamples.

(** * Properties *)

(** ** Tooltip placement *)
Module TooltipFacts.
Import Tooltip Examples.

Lemma move_g_overflow : move g_overflow = (780, 125).
Proof. reflexivity. Qed.

(** C4, as stated, fails: with the cursor strictly inside the window,
    the tooltip as moved reaches past the window's right edge (pointer at
    x = 755, tooltip 225 wide, window 1000 wide: right edge at 1005). *)
Lemma tooltip_may_leave_window :
  cursor_inside g_overflow ∧ ¬ inside_window g_overflow.
Proof.
  split.
  - unfold cursor_inside, g_overflow; cbn [mouse_x mouse_y window_width window_height]. lia.
  - unfold inside_window. rewrite move_g_overflow.
    unfold g_overflow; cbn [tooltip_width tooltip_height window_width window_height]. lia.
Qed.

(** C4 (amended): for a cursor inside the window, the tooltip's top-left
    corner after the move is never left of or above the window (it is at
    least 5 pixels in); and when the tooltip fits on one side of the cursor
    on each axis, the placement chosen by the flip tests, before the final
    shift by 5, keeps the whole tooltip rectangle inside the window. *)
Theorem tooltip_placement (g : geometry) :
  0 <= tooltip_width g → 0 <= tooltip_height g →
  cursor_inside g →
  5 <= (move g).1 ∧ 5 <= (move g).2 ∧
  (fits_beside_cursor g → placement_inside_window g).
Proof.
  unfold cursor_inside, fits_beside_cursor, placement_inside_window,
    move, new_x, new_y, offset_x, offset_y.
  intros Hw Hh [Hx Hy]. cbn [fst snd].
  repeat match goal with
  | |- context [?a >? ?b] => destruct (Z.gtb_spec a b)
  | |- context [?a <? ?b] => destruct (Z.ltb_spec a b)
  end; lia.
Qed.

Lemma tooltip_placement_witness :
  5 <= (move g_overflow).1 ∧ 5 <= (move g_overflow).2 ∧
  (fits_beside_cursor g_overflow → placement_inside_window g_overflow).
Proof.
  apply (tooltip_placement g_overflow);
    unfold cursor_inside, g_overflow;
    cbn [mouse_x mouse_y tooltip_width tooltip_height window_width window_height];
    lia.
Defined.

End TooltipFacts.

(** ** The brush *)
Module BrushFacts.
Import Pandas Brush Spec Examples.

Lemma sorted2_min_max (a b : Q) :
  ((sorted2 a b).1 == Qmin a b ∧ (sorted2 a b).2 == Qmax a b)%Q.
Proof.
  unfold sorted2. destruct (Qle_bool a b) eqn:E; cbn [fst snd].
  - apply Qle_bool_iff in E.
    split; symmetry; [apply Q.min_l | apply Q.max_r]; assumption.
  - assert (Hba : (b <= a)%Q).
    { destruct (Qlt_le_dec b a) as [Hlt | Hle].
      - apply Qlt_le_weak, Hlt.
      - apply Qle_bool_iff in Hle. congruence. }
    split; symmetry; [apply Q.min_r | apply Q.max_l]; assumption.
Qed.

Lemma between_iff (lo hi : Q) (c : option value) :
  between lo hi c = true ↔ ∃ q, c = Some (Num q) ∧ (lo <= q)%Q ∧ (q <= hi)%Q.
Proof.
  unfold between. destruct c as [[q | s] |].
  - rewrite andb_true_iff, !Qle_bool_iff. split.
    + intros [? ?]. eauto.
    + intros (q' & [= <-] & ? & ?). auto.
  - split; [discriminate | intros (? & [=] & _)].
  - split; [discriminate | intros (? & [=] & _)].
Qed.

(** The mask of [callback] holds of a row exactly when the row lies in
    the drag rectangle. *)
Lemma in_rectangle_iff (e1 e2 : MouseEvent) (x y : string) (r : row) :
  in_rectangle x y
    (sorted2 (xdata e1) (xdata e2)).1 (sorted2 (xdata e1) (xdata e2)).2
    (sorted2 (ydata e1) (ydata e2)).1 (sorted2 (ydata e1) (ydata e2)).2 r = true
  ↔ in_drag_rectangle e1 e2 x y r.
Proof.
  unfold in_rectangle, in_drag_rectangle.
  destruct (sorted2_min_max (xdata e1) (xdata e2)) as [Hx1 Hx2].
  destruct (sorted2_min_max (ydata e1) (ydata e2)) as [Hy1 Hy2].
  rewrite andb_true_iff, !between_iff. split.
  - intros [(qx & Ex & Hlx & Hux) (qy & Ey & Hly & Huy)].
    exists qx, qy. rewrite <- Hx1, <- Hx2, <- Hy1, <- Hy2. auto 10.
  - intros (qx & qy & Ex & Ey & Hlx & Hux & Hly & Huy).
    rewrite <- Hx1 in Hlx. rewrite <- Hx2 in Hux.
    rewrite <- Hy1 in Hly. rewrite <- Hy2 in Huy. eauto 10.
Qed.

Lemma elem_of_loc (mask : row → bool) (df : frame) (i : nat) (r : row) :
  (i, r) ∈ loc mask df ↔ df !! i = Some r ∧ mask r = true.
Proof.
  unfold loc. rewrite list_elem_of_filter, elem_of_lookup_imap. cbn [snd].
  rewrite Is_true_true. split.
  - intros [Hm (j & r' & [= -> ->] & Hl)]. auto.
  - intros [Hl Hm]. eauto.
Qed.

(** The index of a selection lists rows of the frame it was cut from. *)
Lemma elem_of_index_loc (mask : row → bool) (df : frame) (i : nat) :
  i ∈ index (loc mask df) ↔ ∃ r, df !! i = Some r ∧ mask r = true.
Proof.
  unfold index. rewrite list_elem_of_fmap. split.
  - intros ([j r] & -> & Hin). apply elem_of_loc in Hin. eauto.
  - intros (r & Hl & Hm). exists (i, r). split; [done |]. by apply elem_of_loc.
Qed.

Lemma update_colors_fields (b b' : t) (sel : list nat) :
  update_colors b sel = Some b' →
  data b' = data b ∧ selected b' = selected b ∧
  default_colors b' = default_colors b ∧ sizes b' = sizes b.
Proof.
  unfold update_colors. case_bool_decide.
  - intros [= <-]. done.
  - destruct (mapM _ _); cbn; [intros [= <-]; done | discriminate].
Qed.

Lemma update_colors_recolored (b b' : t) (sel : list nat) :
  update_colors b sel = Some b' → recolored b' sel.
Proof.
  intros Hu. destruct (update_colors_fields _ _ _ Hu) as (Hd & _ & Hdc & _).
  revert Hu. unfold update_colors, recolored.
  destruct sel as [| s sel].
  - rewrite bool_decide_eq_true_2 by done. intros [= <-]. done.
  - rewrite bool_decide_eq_false_2 by done.
    destruct (mapM _ _) as [cs |] eqn:Hm; cbn; [| discriminate].
    intros [= <-]. cbn [colors data default_colors set_colors].
    split; [apply length_mapM in Hm; by rewrite length_seq in Hm |].
    intros i Hi. apply mapM_Some_1 in Hm.
    destruct (Forall2_lookup_l _ _ _ i i Hm) as (c & Hc & Hcol).
    { apply lookup_seq. auto. }
    rewrite Hc, <- Hcol. unfold color_of.
    repeat case_bool_decide; done.
Qed.

Lemma update_colors_is_Some (b : t) (sel : list nat) :
  has_default_colors b → is_Some (update_colors b sel).
Proof.
  unfold has_default_colors, update_colors. intros Hlen.
  case_bool_decide; [eauto |].
  destruct (mapM (color_of b sel) (seq 0 (length (data b)))) eqn:Hm; [cbn; eauto |].
  apply mapM_None_1, Exists_exists in Hm. destruct Hm as (i & Hi & Hnone).
  apply list_elem_of_lookup in Hi as (j & Hj). apply lookup_seq in Hj as [-> Hj].
  unfold color_of in Hnone. case_bool_decide; [discriminate |].
  apply lookup_ge_None in Hnone. cbn in *. lia.
Qed.

Lemma callback_unfold (b : t) (e1 e2 : MouseEvent) (x y : string) :
  callback b e1 e2 x y =
  update_colors
    (set_data_selected b (dragged_frame x y (data b))
       (dragged_selection e1 e2 x y (data b)))
    (index (dragged_selection e1 e2 x y (data b))).
Proof.
  unfold callback, dragged_selection, dragged_frame.
  destruct (sorted2 (xdata e1) (xdata e2)), (sorted2 (ydata e1) (ydata e2)).
  reflexivity.
Qed.

Lemma callback_fields (b b' : t) (e1 e2 : MouseEvent) (x y : string) :
  callback b e1 e2 x y = Some b' →
  data b' = dragged_frame x y (data b) ∧
  selected b' = dragged_selection e1 e2 x y (data b) ∧
  default_colors b' = default_colors b ∧ sizes b' = sizes b ∧
  recolored b' (index (selected b')).
Proof.
  rewrite callback_unfold. intros Hu.
  destruct (update_colors_fields _ _ _ Hu) as (Hd & Hs & Hdc & Hsz).
  cbn in Hd, Hs, Hdc, Hsz. repeat split; try done.
  rewrite Hs. by eapply update_colors_recolored.
Qed.

Lemma length_dragged_frame (x y : string) (df : frame) :
  (length (dragged_frame x y df) ≤ length df)%nat.
Proof.
  unfold dragged_frame, to_numeric, dropna.
  rewrite !length_fmap. apply length_filter.
Qed.

Lemma callback_is_Some (b : t) (e1 e2 : MouseEvent) (x y : string) :
  has_default_colors b → is_Some (callback b e1 e2 x y).
Proof.
  intros Hlen. rewrite callback_unfold. apply update_colors_is_Some.
  unfold has_default_colors in *. cbn.
  pose proof (length_dragged_frame x y (data b)). lia.
Qed.

Lemma coerce_Num (c : option value) (q : Q) :
  coerce c = Some (Num q) ↔ c = Some (Num q).
Proof. destruct c as [[] |]; cbn; naive_solver. Qed.

Lemma coerce_coerce (c : option value) : coerce (coerce c) = coerce c.
Proof. by destruct c as [[] |]. Qed.

Lemma lookup_coerced_x (x y : string) (r : row) :
  coerced x y r !! x = coerce (r !! x).
Proof.
  unfold coerced. destruct (decide (y = x)) as [-> | Hne].
  - by rewrite !lookup_partial_alter_eq, coerce_coerce.
  - by rewrite lookup_partial_alter_ne, lookup_partial_alter_eq.
Qed.

Lemma lookup_coerced_y (x y : string) (r : row) :
  coerced x y r !! y = coerce (r !! y).
Proof.
  unfold coerced. rewrite lookup_partial_alter_eq.
  destruct (decide (x = y)) as [-> | Hne].
  - by rewrite lookup_partial_alter_eq, coerce_coerce.
  - by rewrite lookup_partial_alter_ne.
Qed.

Lemma in_drag_rectangle_coerced (e1 e2 : MouseEvent) (x y : string) (r : row) :
  in_drag_rectangle e1 e2 x y (coerced x y r) ↔ in_drag_rectangle e1 e2 x y r.
Proof.
  unfold in_drag_rectangle. rewrite lookup_coerced_x, lookup_coerced_y.
  split; intros (qx & qy & Hx & Hy & H); exists qx, qy;
    (split; [| split]; [by apply coerce_Num | by apply coerce_Num | done]).
Qed.

Lemma dragged_frame_fmap (x y : string) (df : frame) :
  dragged_frame x y df = coerced x y <$> dropna [x; y] df.
Proof.
  unfold dragged_frame, to_numeric, coerced.
  by rewrite <- list_fmap_compose.
Qed.

(** The rows of the frame after a drag: the rows of the frame before it
    whose bound attributes are not null, each with both cells coerced. *)
Lemma elem_of_dragged_frame (x y : string) (df : frame) (r' : row) :
  r' ∈ dragged_frame x y df ↔
  ∃ r, r ∈ df ∧ is_Some (r !! x) ∧ is_Some (r !! y) ∧ r' = coerced x y r.
Proof.
  rewrite dragged_frame_fmap, list_elem_of_fmap. unfold dropna.
  split.
  - intros (r & -> & Hin). apply list_elem_of_filter in Hin as [Hna Hin].
    apply Forall_cons in Hna as [Hx Hna]. apply Forall_cons in Hna as [Hy _].
    eauto.
  - intros (r & Hin & Hx & Hy & ->). exists r. split; [done |].
    apply list_elem_of_filter. split; [| done].
    by repeat constructor.
Qed.

Lemma dropna_id (subset : list string) (df : frame) :
  Forall (λ r : row, Forall (λ a, is_Some (r !! a)) subset) df →
  dropna subset df = df.
Proof.
  unfold dropna. induction 1 as [| r l Hr Hl IH]; [done |].
  rewrite filter_cons_True by done. by rewrite IH.
Qed.

Lemma to_numeric_id (a : string) (df : frame) :
  Forall (λ r : row, coerce (r !! a) = r !! a) df → to_numeric a df = df.
Proof.
  unfold to_numeric. induction 1 as [| r l Hr Hl IH]; [done |].
  cbn. rewrite partial_alter_id by done. by f_equal.
Qed.

(** A frame of numbers goes through the first three lines of [callback]
    unchanged. *)
Lemma dragged_frame_numeric_rows (x y : string) (df : frame) :
  numeric_rows x y df → dragged_frame x y df = df.
Proof.
  intros Hnum. unfold dragged_frame.
  rewrite dropna_id, (to_numeric_id x), (to_numeric_id y); [done | ..];
    (eapply Forall_impl; [exact Hnum |]); intros r [[qx Hx] [qy Hy]]; cbn;
    repeat constructor; rewrite ?Hx, ?Hy; eauto.
Qed.

(** When the bound columns hold no text, the frame a drag leaves holds
    numbers in both. *)
Lemma numeric_rows_dragged_frame (x y : string) (df : frame) :
  numeric_column x df → numeric_column y df →
  numeric_rows x y (dragged_frame x y df).
Proof.
  unfold numeric_column, numeric_rows. rewrite !Forall_forall.
  intros Hx Hy r' Hin.
  apply elem_of_dragged_frame in Hin as (r & Hin & [vx Hvx] & [vy Hvy] & ->).
  rewrite lookup_coerced_x, lookup_coerced_y, Hvx, Hvy.
  specialize (Hx r Hin). specialize (Hy r Hin).
  destruct vx as [qx | sx]; [| by destruct (Hx sx)].
  destruct vy as [qy | sy]; [| by destruct (Hy sy)].
  cbn. eauto.
Qed.

Lemma update_colors_again (b b' : t) (sel : list nat) :
  update_colors b sel = Some b' → update_colors b' sel = Some b'.
Proof.
  unfold update_colors. case_bool_decide.
  - intros [= <-]. done.
  - destruct (mapM _ _) as [cs |] eqn:Hm; cbn; [| discriminate].
    intros [= <-]. cbn. unfold color_of in *. cbn. by rewrite Hm.
Qed.

Lemma set_data_selected_same (b : t) :
  set_data_selected b (data b) (selected b) = b.
Proof. by destruct b. Qed.

(** C1: the brush callback returns, and the selection it computes is
    made of rows of the brush's frame and holds exactly those of them
    whose bound x and y values both lie in the rectangle spanned by the
    two corners of the drag (least and greatest corner coordinate per
    axis, bounds included), so every row left out fails a bound; read on
    the frame as it was before the drag, a row is selected exactly when
    its own two values lie in that rectangle. *)
Theorem brush_selects_rectangle (b : t) (e1 e2 : MouseEvent) (x y : string) :
  has_default_colors b →
  ∃ b', callback b e1 e2 x y = Some b' ∧
    (∀ i r, (i, r) ∈ selected b' → data b' !! i = Some r) ∧
    (∀ i r, data b' !! i = Some r →
       ((i, r) ∈ selected b' ↔ in_drag_rectangle e1 e2 x y r)) ∧
    (∀ r, r ∈ data b →
       ((∃ i, (i, coerced x y r) ∈ selected b') ↔ in_drag_rectangle e1 e2 x y r)).
Proof.
  intros Hlen. destruct (callback_is_Some b e1 e2 x y Hlen) as [b' Hb'].
  exists b'. split; [done |].
  destruct (callback_fields _ _ _ _ _ _ Hb') as (Hd & Hs & _).
  rewrite Hs, Hd. unfold dragged_selection.
  split; [| split].
  - intros i r Hin. by apply elem_of_loc in Hin as [? _].
  - intros i r Hl. rewrite elem_of_loc, in_rectangle_iff. tauto.
  - intros r Hin. split.
    + intros (i & Hsel). apply elem_of_loc in Hsel as [_ Hm].
      apply in_rectangle_iff in Hm. by apply (in_drag_rectangle_coerced e1 e2 x y r).
    + intros Hrect.
      assert (Hin' : coerced x y r ∈ dragged_frame x y (data b)).
      { apply elem_of_dragged_frame. exists r.
        destruct Hrect as (qx & qy & Hx & Hy & _). rewrite Hx, Hy. eauto. }
      apply list_elem_of_lookup in Hin' as [i Hi]. exists i.
      apply elem_of_loc. split; [done |].
      apply in_rectangle_iff. by apply (in_drag_rectangle_coerced e1 e2 x y r).
Qed.

Lemma brush_selects_rectangle_witness :
  has_default_colors brush_numeric ∧
  ∃ b', callback brush_numeric (press 0 0) (press 2 2) "x" "y" = Some b' ∧
    (∀ i r, (i, r) ∈ selected b' → data b' !! i = Some r) ∧
    (∀ i r, data b' !! i = Some r →
       ((i, r) ∈ selected b' ↔
        in_drag_rectangle (press 0 0) (press 2 2) "x" "y" r)) ∧
    (∀ r, r ∈ data brush_numeric →
       ((∃ i, (i, coerced "x" "y" r) ∈ selected b') ↔
        in_drag_rectangle (press 0 0) (press 2 2) "x" "y" r)).
Proof.
  assert (H : has_default_colors brush_numeric)
    by (unfold has_default_colors; cbn; lia).
  split; [exact H | apply (brush_selects_rectangle brush_numeric), H].
Defined.

(** The state a drag leaves is a fixed point of the same drag as soon as
    its frame holds numbers in both bound attributes. *)
Lemma callback_again (b b1 : t) (e1 e2 : MouseEvent) (x y : string) :
  callback b e1 e2 x y = Some b1 →
  numeric_rows x y (data b1) →
  callback b1 e1 e2 x y = Some b1.
Proof.
  intros Hb1 Hnum. pose proof Hb1 as Hcb.
  rewrite callback_unfold in Hcb. apply update_colors_again in Hcb.
  destruct (callback_fields _ _ _ _ _ _ Hb1) as (Hd & Hs & _).
  rewrite callback_unfold.
  assert (Hsame : dragged_selection e1 e2 x y (data b1) = selected b1).
  { rewrite Hs. unfold dragged_selection.
    by rewrite (dragged_frame_numeric_rows x y (data b1)), Hd. }
  rewrite Hsame, (dragged_frame_numeric_rows x y (data b1)) by done.
  rewrite set_data_selected_same, Hs. exact Hcb.
Qed.

(** C5: the brush callback is not idempotent, and its second
    application does not return.  The brush is over two rows whose first
    holds text in [x], with two colours and two areas, and the drag spans
    (0, 0) to (2, 2).  The first application keeps both rows, coerces the
    text to NaN, selects row 1 and colours the rows gray, blue; its scatter
    gets two points, two colours and two areas.  The second application
    drops the row of the NaN: the row left is row 0, the selection is row 0
    and the one colour is red, so neither the selected set nor the colours
    are those of the first application; and its scatter gets one point with
    the two areas the brush was built with, which is a ValueError. *)
Theorem brush_second_application_differs :
  ¬ idempotent_at brush_text (press 0 0) (press 2 2) "x" "y" ∧
  (λ b, (length (data b), index (selected b), colors b, sizes b)) <$>
    callback_then_scatter brush_text (press 0 0) (press 2 2) "x" "y"
  = Some (2%nat, [1%nat], [gray; blue], [100; 200]%Q) ∧
  (λ b, (length (data b), index (selected b), colors b, sizes b)) <$>
    (callback_then_scatter brush_text (press 0 0) (press 2 2) "x" "y"
       ≫= λ b, callback b (press 0 0) (press 2 2) "x" "y")
  = Some (1%nat, [0%nat], [red], [100; 200]%Q) ∧
  (callback_then_scatter brush_text (press 0 0) (press 2 2) "x" "y"
     ≫= λ b, callback_then_scatter b (press 0 0) (press 2 2) "x" "y") = None.
Proof.
  split; [| split; [| split]]; try (vm_compute; reflexivity).
  unfold idempotent_at. intros H.
  destruct (callback brush_text (press 0 0) (press 2 2) "x" "y") as [b1 |] eqn:E1;
    [| vm_compute in E1; discriminate].
  destruct (callback b1 (press 0 0) (press 2 2) "x" "y") as [b2 |] eqn:E2.
  - destruct (H b1 b2 eq_refl E2) as [Hidx _].
    vm_compute in E1. injection E1 as <-.
    vm_compute in E2. injection E2 as <-.
    vm_compute in Hidx. discriminate.
  - vm_compute in E1. injection E1 as <-. vm_compute in E2. discriminate.
Qed.

(** With a selection that is not empty, the colour array has one entry
    per row of the frame. *)
Lemma update_colors_match_rows (b b' : t) (sel : list nat) :
  sel ≠ [] → update_colors b sel = Some b' → colors_match_rows b'.
Proof.
  intros Hne Hu. apply update_colors_recolored in Hu.
  unfold recolored in Hu. destruct sel; [done |]. apply Hu.
Qed.

(** C3: the invariant "the colour array is as long as the data" holds of
    the brush as constructed and is broken by one brush callback.  The
    frame has two rows, the first with a null [x], and two default colours.
    The callback drops the first row from the brush's frame.  With the drag
    (0,0)-(1,1), which matches no row, the empty selection restores the two
    default colours: two colours for the one row the brush has left.  With
    the drag (0,0)-(9,9), which matches that row, the colour array has one
    entry, for the two rows of the frame the brush was built over. *)
Theorem brush_colors_outlive_dropped_rows :
  colors_match_rows brush_null ∧
  (∃ b', callback brush_null (press 0 0) (press 1 1) "x" "y" = Some b' ∧
         index (selected b') = [] ∧
         length (data b') = 1%nat ∧ length (colors b') = 2%nat ∧
         ¬ colors_match_rows b') ∧
  (∃ b', callback brush_null (press 0 0) (press 9 9) "x" "y" = Some b' ∧
         index (selected b') = [0%nat] ∧
         length (data b') = 1%nat ∧ length (colors b') = 1%nat ∧
         length (data brush_null) = 2%nat).
Proof.
  split; [reflexivity |]. split.
  - eexists. split; [vm_compute; reflexivity |].
    repeat split; unfold colors_match_rows; cbn; discriminate.
  - eexists. split; [vm_compute; reflexivity |].
    repeat split.
Qed.

End BrushFacts.

(** ** The linked view *)
Module BrushingChartFacts.
Import Pandas Spec Examples BrushingChart.

Lemma selected_index_eq (b : Brush.t) :
  selected_index b = index (Brush.selected b).
Proof. unfold selected_index. by destruct (Brush.selected b). Qed.

Lemma recolored_nil (b : Brush.t) :
  recolored b [] → Brush.colors b = Brush.default_colors b.
Proof. done. Qed.

(** One branch of [select]: the drag on [d], then the recolouring of
    the other brush [c] by the index of [d]'s selection. *)
Lemma drag_then_recolor (d c : Brush.t) (e1 e2 : Brush.MouseEvent) (x y : string) :
  has_default_colors d → has_default_colors c →
  ∃ d' c',
    Brush.callback d e1 e2 x y = Some d' ∧
    Brush.update_colors c (selected_index d') = Some c' ∧
    recolored d' (index (Brush.selected d')) ∧
    recolored c' (index (Brush.selected d')) ∧
    Brush.data c' = Brush.data c ∧
    Brush.selected c' = Brush.selected c ∧
    Brush.default_colors c' = Brush.default_colors c ∧
    Brush.default_colors d' = Brush.default_colors d.
Proof.
  intros Hd Hc.
  destruct (BrushFacts.callback_is_Some d e1 e2 x y Hd) as [d' Hd'].
  destruct (BrushFacts.update_colors_is_Some c (selected_index d') Hc) as [c' Hc'].
  exists d', c'. split; [done |]. split; [done |].
  destruct (BrushFacts.callback_fields _ _ _ _ _ _ Hd') as (_ & _ & Hdc & _ & Hrec).
  destruct (BrushFacts.update_colors_fields _ _ _ Hc') as (Hcd & Hcs & Hcdc & _).
  apply BrushFacts.update_colors_recolored in Hc'.
  rewrite selected_index_eq in Hc'. done.
Qed.

(** C2: a drag that ends before the complementary panel is recoloured.
    The view is over two rows whose first holds text in [x]; both brushes
    have a colour and an area per row.  A first drag on panel 1, from
    (0, 0) to (2, 2), coerces the text to NaN, selects row 1 and colours
    both panels gray, blue.  A second drag on panel 1, from (5, 5) to
    (9, 9), matches no row: the callback drops the row of the NaN, the
    selection is empty and the dragged brush takes its two default
    colours, but its scatter gets one point with two areas and raises, so
    [select] ends before it recolours the other brush: the complementary
    panel keeps gray, blue and is not reverted to its default colours. *)
Theorem select_ends_before_recolor :
  (λ c, (Brush.colors (brush1 c), Brush.colors (brush2 c))) <$>
    select chart_text (press 0 0) (press 2 2) 1
  = Some ([Brush.gray; blue], [Brush.gray; blue]) ∧
  (select chart_text (press 0 0) (press 2 2) 1 ≫= λ c,
     (λ b, (length (Brush.data b), index (Brush.selected b),
            Brush.colors b, Brush.sizes b)) <$>
       Brush.callback (brush1 c) (press 5 5) (press 9 9) "x" "y")
  = Some (1%nat, [], [red; blue], [100; 200]%Q) ∧
  (select chart_text (press 0 0) (press 2 2) 1 ≫= λ c,
     select c (press 5 5) (press 9 9) 1) = None.
Proof. repeat split; vm_compute; reflexivity. Qed.

End BrushingChartFacts.

(** ** The bubble view *)
Module BubbleChartFacts.
Import Pandas Spec Examples BubbleChart.

Lemma list_set_Some {A} (l : list A) (i : nat) (x : A) :
  (i < length l)%nat → list_set l i x = Some (<[i := x]> l).
Proof. intros. unfold list_set. by rewrite bool_decide_eq_true_2. Qed.

Lemma init_consistent (df : frame) : consistent (init df).
Proof.
  unfold consistent, init. cbn. rewrite !length_replicate.
  split; [done |]. split; [done |].
  intros i Hi. left. rewrite !lookup_replicate_2 by done. set_solver.
Qed.

(** One click on a row of a consistent state: the handler returns, the
    state stays consistent, the row's membership is toggled and the other
    rows keep their colour, width and membership. *)
Lemma on_click_toggle (st : t) (ev : Event) (i : nat) :
  consistent st → inaxes ev = true → head (ind ev) = Some i →
  (i < length (data st))%nat →
  ∃ st', on_click st ev = Some st' ∧
    data st' = data st ∧ consistent st' ∧
    (i ∈ selected_indices st' ↔ i ∉ selected_indices st) ∧
    (∀ j, j ≠ i →
       edgecolors st' !! j = edgecolors st !! j ∧
       linewidths st' !! j = linewidths st !! j ∧
       (j ∈ selected_indices st' ↔ j ∈ selected_indices st)) ∧
    scatter_edgecolors st' = edgecolors st' ∧
    scatter_linewidths st' = linewidths st'.
Proof.
  intros (Hec & Hlw & Hrows) Hax Hhead Hi.
  unfold on_click. rewrite Hax. cbn.
  destruct (ind ev) as [| i' rest]; [discriminate |].
  injection Hhead as ->.
  destruct (Hrows i Hi) as [(Hc & Hw & Hn) | (Hc & Hw & Hm)]; rewrite Hc; cbn.
  - rewrite bool_decide_eq_false_2 by done.
    rewrite !list_set_Some by lia. cbn.
    eexists. split; [reflexivity |]. cbn.
    split; [done |]. split; [| split; [| split]].
    + unfold consistent. cbn. rewrite !length_insert.
      split; [done |]. split; [done |]. intros j Hj.
      destruct (decide (j = i)) as [-> | Hne].
      * right. rewrite !list_lookup_insert_eq by lia. set_solver.
      * rewrite !list_lookup_insert_ne by done.
        destruct (Hrows j Hj) as [(? & ? & ?) | (? & ? & ?)];
          [left | right]; (split; [done |]); (split; [done |]); set_solver.
    + set_solver.
    + intros j Hne. rewrite !list_lookup_insert_ne by done. set_solver.
    + done.
  - rewrite bool_decide_eq_true_2 by done.
    rewrite !list_set_Some by lia. cbn.
    unfold set_remove. rewrite bool_decide_eq_true_2 by done. cbn.
    eexists. split; [reflexivity |]. cbn.
    split; [done |]. split; [| split; [| split]].
    + unfold consistent. cbn. rewrite !length_insert.
      split; [done |]. split; [done |]. intros j Hj.
      destruct (decide (j = i)) as [-> | Hne].
      * left. rewrite !list_lookup_insert_eq by lia. set_solver.
      * rewrite !list_lookup_insert_ne by done.
        destruct (Hrows j Hj) as [(? & ? & ?) | (? & ? & ?)];
          [left | right]; (split; [done |]); (split; [done |]); set_solver.
    + set_solver.
    + intros j Hne. rewrite !list_lookup_insert_ne by done. set_solver.
    + done.
Qed.

(** In a consistent state the colour and width of a row are read off
    its membership in the selection set. *)
Lemma consistent_row (st : t) (i : nat) :
  consistent st → (i < length (data st))%nat →
  edgecolors st !! i
    = Some (if bool_decide (i ∈ selected_indices st) then "red" else "white") ∧
  linewidths st !! i
    = Some (if bool_decide (i ∈ selected_indices st) then 2%Q else (1 # 2)%Q).
Proof.
  intros (_ & _ & Hrows) Hi.
  destruct (Hrows i Hi) as [(-> & -> & Hn) | (-> & -> & Hm)].
  - by rewrite !bool_decide_eq_false_2.
  - by rewrite !bool_decide_eq_true_2.
Qed.

(** C6: in a state the view can be in (arrays as long as the data, each
    row either white / 0.5 / unselected or red / 2 / selected), two clicks
    that hit the same row both return; the first toggles the row's
    membership in the selection set and shows it red with width 2 when
    selected, white with width 0.5 when not, leaving the colour and width
    of every other row as they were; the second returns the edge-colour
    array, the line-width array and the selection set to what they were
    before the first. *)
Theorem click_twice_restores (st : t) (ev1 ev2 : Event) (i : nat) :
  consistent st →
  inaxes ev1 = true → head (ind ev1) = Some i →
  inaxes ev2 = true → head (ind ev2) = Some i →
  (i < length (data st))%nat →
  ∃ st1 st2,
    on_click st ev1 = Some st1 ∧ on_click st1 ev2 = Some st2 ∧
    (i ∈ selected_indices st1 ↔ i ∉ selected_indices st) ∧
    edgecolors st1 !! i
      = Some (if bool_decide (i ∈ selected_indices st1) then "red" else "white") ∧
    linewidths st1 !! i
      = Some (if bool_decide (i ∈ selected_indices st1) then 2%Q else (1 # 2)%Q) ∧
    (∀ j, j ≠ i →
       edgecolors st1 !! j = edgecolors st !! j ∧
       linewidths st1 !! j = linewidths st !! j) ∧
    edgecolors st2 = edgecolors st ∧
    linewidths st2 = linewidths st ∧
    selected_indices st2 = selected_indices st.
Proof.
  intros Hst Hax1 Hh1 Hax2 Hh2 Hi.
  destruct (on_click_toggle st ev1 i Hst Hax1 Hh1 Hi)
    as (st1 & Hc1 & Hd1 & Hst1 & Hm1 & Ho1 & _).
  assert (Hi1 : (i < length (data st1))%nat) by (by rewrite Hd1).
  destruct (on_click_toggle st1 ev2 i Hst1 Hax2 Hh2 Hi1)
    as (st2 & Hc2 & Hd2 & Hst2 & Hm2 & Ho2 & _).
  exists st1, st2. split; [done |]. split; [done |]. split; [done |].
  destruct (consistent_row st1 i Hst1 Hi1) as [Hec1 Hlw1].
  split; [done |]. split; [done |].
  split; [intros j Hne; destruct (Ho1 j Hne) as (? & ? & _); done |].
  assert (Hmem : ∀ j, j ∈ selected_indices st2 ↔ j ∈ selected_indices st).
  { intros j. destruct (decide (j = i)) as [-> | Hne].
    - rewrite Hm2, Hm1. destruct (decide (i ∈ selected_indices st)); tauto.
    - destruct (Ho2 j Hne) as (_ & _ & ->). by destruct (Ho1 j Hne) as (_ & _ & ->). }
  assert (Hsel : selected_indices st2 = selected_indices st).
  { apply set_eq. exact Hmem. }
  assert (Hlen2 : length (data st2) = length (data st)) by congruence.
  pose proof Hst as (Le & Lw & _). pose proof Hst2 as (Le2 & Lw2 & _).
  split; [| split; [| done]]; apply list_eq; intros j.
  - destruct (decide (j < length (data st))%nat) as [Hj | Hj].
    + destruct (decide (j = i)) as [-> | Hne].
      * destruct (consistent_row st2 i Hst2) as [-> _]; [lia |].
        destruct (consistent_row st i Hst Hi) as [-> _]. by rewrite Hsel.
      * destruct (Ho1 j Hne) as (<- & _). by destruct (Ho2 j Hne) as (<- & _).
    + rewrite !(proj2 (lookup_ge_None _ _)) by lia. done.
  - destruct (decide (j < length (data st))%nat) as [Hj | Hj].
    + destruct (decide (j = i)) as [-> | Hne].
      * destruct (consistent_row st2 i Hst2) as [_ ->]; [lia |].
        destruct (consistent_row st i Hst Hi) as [_ ->]. by rewrite Hsel.
      * destruct (Ho1 j Hne) as (_ & <- & _). by destruct (Ho2 j Hne) as (_ & <- & _).
    + rewrite !(proj2 (lookup_ge_None _ _)) by lia. done.
Qed.

Lemma click_twice_restores_witness :
  consistent bubble3 ∧
  inaxes (pointer_on 1) = true ∧ head (ind (pointer_on 1)) = Some 1%nat ∧
  (1 < length (data bubble3))%nat ∧
  ∃ st1 st2,
    on_click bubble3 (pointer_on 1) = Some st1 ∧
    on_click st1 (pointer_on 1) = Some st2 ∧
    (1%nat ∈ selected_indices st1 ↔ 1%nat ∉ selected_indices bubble3) ∧
    edgecolors st1 !! 1%nat
      = Some (if bool_decide (1%nat ∈ selected_indices st1) then "red" else "white") ∧
    linewidths st1 !! 1%nat
      = Some (if bool_decide (1%nat ∈ selected_indices st1) then 2%Q else (1 # 2)%Q) ∧
    (∀ j, j ≠ 1%nat →
       edgecolors st1 !! j = edgecolors bubble3 !! j ∧
       linewidths st1 !! j = linewidths bubble3 !! j) ∧
    edgecolors st2 = edgecolors bubble3 ∧
    linewidths st2 = linewidths bubble3 ∧
    selected_indices st2 = selected_indices bubble3.
Proof.
  assert (Hlen : (1 < length (data bubble3))%nat) by (vm_compute; lia).
  split; [apply init_consistent |]. split; [reflexivity |].
  split; [reflexivity |]. split; [exact Hlen |].
  apply (click_twice_restores bubble3 (pointer_on 1) (pointer_on 1) 1);
    [apply init_consistent | reflexivity | reflexivity | reflexivity
    | reflexivity | exact Hlen].
Defined.

(** The first click of the witness, evaluated. *)
Lemma click_bubble3 :
  (λ st, (edgecolors st, linewidths st, elements (selected_indices st))) <$>
    on_click bubble3 (pointer_on 1)
  = Some (["white"; "red"; "white"], [1 # 2; 2; 1 # 2]%Q, [1%nat]).
Proof. vm_compute. reflexivity. Qed.

(** The styling of the hover handler, its tooltip text apart: in a
    state whose arrays are as long as the data, on a pointer event that
    reports rows of the data, the persistent arrays and the selection set
    stay as they were; a hit of a red row hands the persistent arrays to
    the scatter, a hit of another row a copy with black and width 2 at the
    row, a miss inside the axes the persistent arrays. *)
Lemma on_hover_styling (st : t) (ev : Event) :
  length (edgecolors st) = length (data st) →
  length (linewidths st) = length (data st) →
  hits_rows st ev →
  ∃ st', on_hover st ev = Some st' ∧
    data st' = data st ∧
    edgecolors st' = edgecolors st ∧
    linewidths st' = linewidths st ∧
    selected_indices st' = selected_indices st ∧
    (∀ i, inaxes ev = true → head (ind ev) = Some i →
       (edgecolors st !! i = Some "red" →
          scatter_edgecolors st' = edgecolors st ∧
          scatter_linewidths st' = linewidths st ∧
          scatter_edgecolors st' !! i = Some "red") ∧
       (edgecolors st !! i ≠ Some "red" →
          scatter_edgecolors st' = <[i := "black"]> (edgecolors st) ∧
          scatter_linewidths st' = <[i := 2%Q]> (linewidths st))) ∧
    (inaxes ev = true → ind ev = [] →
       scatter_edgecolors st' = edgecolors st ∧
       scatter_linewidths st' = linewidths st ∧
       tooltip_visible st' = false).
Proof.
  intros Hec Hlw Hhits. unfold on_hover. unfold hits_rows in Hhits.
  destruct (inaxes ev) eqn:Hax; cbn.
  2: { eexists. split; [reflexivity |]. cbn. repeat split; try done;
       intros; discriminate. }
  destruct (ind ev) as [| i rest] eqn:Hind.
  { eexists. split; [reflexivity |]. cbn. repeat split; try done;
    intros; discriminate. }
  apply Forall_cons in Hhits as [Hi _].
  destruct (lookup_lt_is_Some_2 (data st) i Hi) as [r ->]. cbn.
  destruct (lookup_lt_is_Some_2 (edgecolors st) i) as [c Hc]; [lia |].
  rewrite Hc. cbn. case_bool_decide as Hred.
  - rewrite !list_set_Some by lia. cbn.
    eexists. split; [reflexivity |]. cbn.
    do 4 (split; [done |]). split; [| intros; discriminate].
    intros j _ [= <-]. split; [| done].
    intros Hr. rewrite Hc in Hr. by injection Hr.
  - subst c. cbn.
    eexists. split; [reflexivity |]. cbn.
    do 4 (split; [done |]). split; [| intros; discriminate].
    intros j _ [= <-]. split; [done | intros Hne; by destruct Hne].
Qed.

(** A hover over a row selected by a click, evaluated: the scatter keeps
    red and width 2 at the row, and the persistent arrays are untouched. *)
Lemma hover_selected_row :
  (λ st, (scatter_edgecolors st, scatter_linewidths st,
          edgecolors st, tooltip_visible st, tooltip_pos st)) <$>
    (on_click bubble3 (pointer_on 1) ≫= λ st, on_hover st (pointer_on 1))
  = Some (["white"; "red"; "white"], [1 # 2; 2; 1 # 2]%Q,
          ["white"; "red"; "white"], true, (325, 225)).
Proof. vm_compute. reflexivity. Qed.

(** The hover handler returns and keeps a consistent state consistent. *)
Lemma on_hover_consistent (st : t) (ev : Event) :
  consistent st → hits_rows st ev →
  ∃ st', on_hover st ev = Some st' ∧ consistent st' ∧ data st' = data st.
Proof.
  intros Hst Hhits. pose proof Hst as (Hec & Hlw & _).
  unfold on_hover. unfold hits_rows in Hhits.
  destruct (inaxes ev); cbn; [| by exists (hide_tooltip st)].
  destruct (ind ev) as [| i rest]; [eexists; split; [reflexivity | done] |].
  apply Forall_cons in Hhits as [Hi _].
  destruct (lookup_lt_is_Some_2 (data st) i Hi) as [r ->]. cbn.
  destruct (lookup_lt_is_Some_2 (edgecolors st) i) as [c ->]; [lia |]. cbn.
  case_bool_decide; cbn; [rewrite !list_set_Some by lia; cbn |];
    (eexists; split; [reflexivity | done]).
Qed.

(** The click handler keeps a consistent state consistent, and returns. *)
Lemma on_click_consistent (st : t) (ev : Event) :
  consistent st → hits_rows st ev →
  ∃ st', on_click st ev = Some st' ∧ consistent st' ∧ data st' = data st.
Proof.
  intros Hst Hhits.
  destruct (inaxes ev) eqn:Hax.
  2: { exists st. unfold on_click. rewrite Hax. done. }
  destruct (ind ev) as [| i rest] eqn:Hind.
  { exists st. unfold on_click. rewrite Hax, Hind. done. }
  unfold hits_rows in Hhits. rewrite Hind in Hhits.
  apply Forall_cons in Hhits as [Hi _].
  destruct (on_click_toggle st ev i Hst Hax) as (st' & ? & ? & ? & _);
    [by rewrite Hind | done |]. eauto.
Qed.

(** Every run of hover and click events from the view as constructed,
    each reporting rows of the data, returns a consistent state over the
    same data: the edge-colour and line-width arrays stay as long as the
    data. *)
Lemma run_consistent (hs : list (Handler * Event)) (st : t) :
  consistent st →
  Forall (λ h, Forall (λ i, i < length (data st))%nat (ind h.2)) hs →
  ∃ st', run st hs = Some st' ∧ consistent st' ∧ data st' = data st.
Proof.
  revert st. induction hs as [| [h ev] hs IH]; intros st Hst Hall.
  { exists st. done. }
  apply Forall_cons in Hall as [Hev Hall]. cbn [snd] in Hev.
  assert (Hstep : ∃ st1, handle st (h, ev) = Some st1 ∧ consistent st1
                          ∧ data st1 = data st).
  { destruct h; unfold handle; cbn [fst snd].
    - by apply on_hover_consistent.
    - by apply on_click_consistent. }
  destruct Hstep as (st1 & Hh & Hst1 & Hd1).
  destruct (IH st1 Hst1) as (st' & Hrun & Hst' & Hd').
  { by rewrite Hd1. }
  exists st'. cbn [run]. rewrite Hh. cbn. split; [done |]. split; [done |].
  congruence.
Qed.

End BubbleChartFacts.

(** ** The map's labels *)
Module MapChartFacts.
Import Spec Examples MapChart.

Lemma Qlt_bool_iff (a b : Q) : Qlt_bool a b = true ↔ (a < b)%Q.
Proof.
  unfold Qlt_bool. rewrite negb_true_iff. split.
  - intros Hf. apply Qnot_le_lt. intros Hle.
    apply Qle_bool_iff in Hle. congruence.
  - intros Hlt. destruct (Qle_bool b a) eqn:E; [| done].
    apply Qle_bool_iff in E. by apply Qlt_not_le in Hlt.
Qed.

Lemma contains_iff (xlim ylim p : Q * Q) :
  contains (box xlim.1 ylim.1 xlim.2 ylim.2) p = true ↔ in_viewport xlim ylim p.
Proof.
  unfold contains, in_viewport, box. cbn [minx miny maxx maxy].
  rewrite !andb_true_iff, !Qlt_bool_iff. tauto.
Qed.

(** What [update_label] computes for a geometry that has a label. *)
Lemma update_label_point (xlim ylim : Q * Q) (t : Text) (g : geometry) (p : Q * Q) :
  label_point g = Some p →
  update_label (box xlim.1 ylim.1 xlim.2 ylim.2) (t, g)
  = Some (set_visible t
            (contains (box xlim.1 ylim.1 xlim.2 ylim.2) p &&
             Qlt_bool (viewport_area xlim ylim * (15 # 10000)) (territory_area g)),
          g).
Proof.
  destruct g as [poly | geoms |]; cbn.
  - intros [= <-]. reflexivity.
  - destruct (largest_polygon geoms) as [poly |]; cbn; [| discriminate].
    intros [= <-]. reflexivity.
  - discriminate.
Qed.

Lemma label_visible_iff (xlim ylim : Q * Q) (g : geometry) (p : Q * Q) :
  label_point g = Some p →
  ∃ v, label_visible xlim ylim g = Some v ∧
    (v = true ↔
     in_viewport xlim ylim p ∧
     (viewport_area xlim ylim * (15 # 10000) < territory_area g)%Q).
Proof.
  intros Hp. unfold label_visible.
  rewrite (update_label_point xlim ylim _ g p Hp). cbn.
  eexists. split; [reflexivity |].
  by rewrite andb_true_iff, contains_iff, Qlt_bool_iff.
Qed.

(** C7: for every viewport, [update_labels] returns on labels whose
    geometry has a representative point (a polygon, or a multi-polygon
    with at least one part), keeps each label's geometry, position and
    text, and leaves a label visible exactly when the territory's
    representative point lies within the viewport rectangle and the
    territory's area exceeds 0.15% of the viewport's area. *)
Theorem labels_visible_iff (xlim ylim : Q * Q) (labels : list (Text * geometry)) :
  Forall (λ l : Text * geometry, is_Some (label_point l.2)) labels →
  ∃ labels', update_labels xlim ylim labels = Some labels' ∧
    Forall2 (λ l l' : Text * geometry,
      l'.2 = l.2 ∧ text_xy l'.1 = text_xy l.1 ∧ text l'.1 = text l.1 ∧
      ∀ p, label_point l.2 = Some p →
        (visible l'.1 = true ↔
         in_viewport xlim ylim p ∧
         (viewport_area xlim ylim * (15 # 10000) < territory_area l.2)%Q))
      labels labels'.
Proof.
  unfold update_labels. induction 1 as [| [t g] labels [p Hp] Hall IH].
  { exists []. split; [done | constructor]. }
  destruct IH as (labels' & Hm & Hall').
  cbn [snd] in Hp. cbn [mapM].
  rewrite (update_label_point xlim ylim t g p Hp). cbn. rewrite Hm. cbn.
  eexists. split; [reflexivity |].
  constructor; [| done]. cbn.
  do 3 (split; [done |]). intros p' Hp'. rewrite Hp in Hp'. injection Hp' as <-.
  by rewrite andb_true_iff, contains_iff, Qlt_bool_iff.
Qed.

Lemma labels_visible_iff_witness :
  Forall (λ l : Text * geometry, is_Some (label_point l.2)) [island_label] ∧
  ∃ labels', update_labels (-10, 10)%Q (-10, 10)%Q [island_label] = Some labels' ∧
    Forall2 (λ l l' : Text * geometry,
      l'.2 = l.2 ∧ text_xy l'.1 = text_xy l.1 ∧ text l'.1 = text l.1 ∧
      ∀ p, label_point l.2 = Some p →
        (visible l'.1 = true ↔
         in_viewport (-10, 10)%Q (-10, 10)%Q p ∧
         (viewport_area (-10, 10)%Q (-10, 10)%Q * (15 # 10000)
            < territory_area l.2)%Q))
      [island_label] labels'.
Proof.
  assert (H : Forall (λ l : Text * geometry, is_Some (label_point l.2))
                [island_label]).
  { repeat constructor. cbn. eauto. }
  split; [exact H |].
  apply (labels_visible_iff (-10, 10)%Q (-10, 10)%Q [island_label] H).
Defined.

(** The labels [plot_labels] creates sit at the representative point of
    their territory: each of them has one. *)
Lemma plot_label_point (row : territory) (ls : list (Text * geometry)) :
  plot_label row = Some ls →
  Forall (λ l : Text * geometry, label_point l.2 = Some (text_xy l.1)) ls.
Proof.
  unfold plot_label.
  destruct (ladder_score row) as [score |]; [| intros [= <-]; constructor].
  destruct (geometry_of row) as [[poly | geoms |] |];
    try (intros [= <-]; repeat constructor).
  destruct (largest_polygon geoms) as [poly |] eqn:E; cbn; [| discriminate].
  intros [= <-]. repeat constructor. cbn. by rewrite E.
Qed.

Lemma plot_labels_have_point (worldmap : list territory)
    (ls : list (list (Text * geometry))) :
  mapM plot_label worldmap = Some ls →
  Forall (λ l : Text * geometry, label_point l.2 = Some (text_xy l.1)) (concat ls).
Proof.
  intros Hm. apply mapM_Some_1 in Hm.
  induction Hm as [| row l rows ls Hrow _ IH]; [constructor |].
  cbn. apply Forall_app. split; [by eapply plot_label_point | done].
Qed.

(** C8, as stated, fails: the island is visible in the viewport
    [-10, 10] x [-10, 10]; the viewport [20, 30] x [20, 30] is smaller and
    the island's area still exceeds 0.15% of it, yet the label is hidden,
    for its point is outside the viewport. *)
Lemma zoom_may_hide_label :
  ¬ zoom_monotone_at island (-10, 10)%Q (-10, 10)%Q (20, 30)%Q (20, 30)%Q.
Proof.
  unfold zoom_monotone_at. intros H.
  destruct H as [Hvis | Hthr].
  - by vm_compute.
  - by vm_compute.
  - vm_compute in Hvis. discriminate.
  - apply Hthr. by vm_compute.
Qed.

(** C8 (amended): for a fixed territory and two viewports of which the
    second has no larger area than the first, a label visible under the
    first is visible under the second whenever the territory's
    representative point lies inside the second viewport. *)
Theorem zoom_keeps_label_visible (g : geometry) (p : Q * Q)
    (xlim1 ylim1 xlim2 ylim2 : Q * Q) :
  label_point g = Some p →
  (viewport_area xlim2 ylim2 <= viewport_area xlim1 ylim1)%Q →
  label_visible xlim1 ylim1 g = Some true →
  in_viewport xlim2 ylim2 p →
  label_visible xlim2 ylim2 g = Some true.
Proof.
  intros Hp Harea Hvis1 Hin2.
  destruct (label_visible_iff xlim1 ylim1 g p Hp) as (v1 & Hv1 & Hiff1).
  destruct (label_visible_iff xlim2 ylim2 g p Hp) as (v2 & -> & Hiff2).
  rewrite Hvis1 in Hv1. injection Hv1 as <-.
  destruct Hiff1 as [Hiff1 _]. destruct (Hiff1 eq_refl) as [_ Hthr].
  f_equal. apply Hiff2. split; [done |].
  eapply Qle_lt_trans; [| exact Hthr].
  apply Qmult_le_compat_r; [done | by vm_compute].
Qed.

Lemma zoom_keeps_label_visible_witness :
  label_point island = Some (0, 0)%Q ∧
  (viewport_area (-5, 5)%Q (-5, 5)%Q <= viewport_area (-10, 10)%Q (-10, 10)%Q)%Q ∧
  label_visible (-10, 10)%Q (-10, 10)%Q island = Some true ∧
  in_viewport (-5, 5)%Q (-5, 5)%Q (0, 0)%Q ∧
  label_visible (-5, 5)%Q (-5, 5)%Q island = Some true.
Proof.
  assert (H1 : label_point island = Some (0, 0)%Q) by reflexivity.
  assert (H2 : (viewport_area (-5, 5)%Q (-5, 5)%Q
                  <= viewport_area (-10, 10)%Q (-10, 10)%Q)%Q)
    by (by vm_compute).
  assert (H3 : label_visible (-10, 10)%Q (-10, 10)%Q island = Some true)
    by (vm_compute; reflexivity).
  assert (H4 : in_viewport (-5, 5)%Q (-5, 5)%Q (0, 0)%Q)
    by (unfold in_viewport; repeat split; by vm_compute).
  do 4 (split; [assumption |]).
  exact (zoom_keeps_label_visible island (0, 0)%Q
           (-10, 10)%Q (-10, 10)%Q (-5, 5)%Q (-5, 5)%Q H1 H2 H3 H4).
Defined.

End MapChartFacts.

(** ** The size legends *)
Module LegendFacts.
Import Spec Examples Legend.

Lemma Qmin_cases (x y : Q) : Qmin x y = x ∨ Qmin x y = y.
Proof.
  unfold Qmin, GenericMinMax.gmin. destruct (x ?= y)%Q; auto.
Qed.

Lemma Qmax_cases (x y : Q) : Qmax x y = x ∨ Qmax x y = y.
Proof.
  unfold Qmax, GenericMinMax.gmax. destruct (x ?= y)%Q; auto.
Qed.

(** The least value of a column is one of its values and a lower bound
    of all of them. *)
Lemma fold_min_spec (l : list Q) (x : Q) :
  fold_left Qmin l x ∈ x :: l ∧
  ∀ y, y ∈ x :: l → (fold_left Qmin l x <= y)%Q.
Proof.
  revert x. induction l as [| z l IH]; intros x; cbn.
  - split; [set_solver |]. intros y Hy.
    apply list_elem_of_singleton in Hy as ->. apply Qle_refl.
  - destruct (IH (Qmin x z)) as [Hin Hle]. split.
    + apply elem_of_cons in Hin as [-> | Hin]; [| set_solver].
      destruct (Qmin_cases x z) as [-> | ->]; set_solver.
    + intros y Hy.
      assert (Hm : (fold_left Qmin l (Qmin x z) <= Qmin x z)%Q)
        by (apply Hle; set_solver).
      apply elem_of_cons in Hy as [-> | Hy].
      * eapply Qle_trans; [exact Hm | apply Q.le_min_l].
      * apply elem_of_cons in Hy as [-> | Hy].
        -- eapply Qle_trans; [exact Hm | apply Q.le_min_r].
        -- apply Hle. set_solver.
Qed.

Lemma fold_max_spec (l : list Q) (x : Q) :
  fold_left Qmax l x ∈ x :: l ∧
  ∀ y, y ∈ x :: l → (y <= fold_left Qmax l x)%Q.
Proof.
  revert x. induction l as [| z l IH]; intros x; cbn.
  - split; [set_solver |]. intros y Hy.
    apply list_elem_of_singleton in Hy as ->. apply Qle_refl.
  - destruct (IH (Qmax x z)) as [Hin Hle]. split.
    + apply elem_of_cons in Hin as [-> | Hin]; [| set_solver].
      destruct (Qmax_cases x z) as [-> | ->]; set_solver.
    + intros y Hy.
      assert (Hm : (Qmax x z <= fold_left Qmax l (Qmax x z))%Q)
        by (apply Hle; set_solver).
      apply elem_of_cons in Hy as [-> | Hy].
      * eapply Qle_trans; [apply Q.le_max_l | exact Hm].
      * apply elem_of_cons in Hy as [-> | Hy].
        -- eapply Qle_trans; [apply Q.le_max_r | exact Hm].
        -- apply Hle. set_solver.
Qed.

Lemma series_min_spec (size_data : list Q) (lo : Q) :
  series_min size_data = Some lo →
  lo ∈ size_data ∧ ∀ y, y ∈ size_data → (lo <= y)%Q.
Proof.
  destruct size_data as [| x l]; [discriminate |]. intros [= <-].
  apply fold_min_spec.
Qed.

Lemma series_max_spec (size_data : list Q) (hi : Q) :
  series_max size_data = Some hi →
  hi ∈ size_data ∧ ∀ y, y ∈ size_data → (y <= hi)%Q.
Proof.
  destruct size_data as [| x l]; [discriminate |]. intros [= <-].
  apply fold_max_spec.
Qed.

Lemma size_marker_Some (lo hi v : Q) (scale_factor : Z) :
  (lo < hi)%Q →
  size_marker (Some lo) (Some hi) scale_factor (Some v)
  = Some ((50 + ((v - lo) / (hi - lo)) * 950) * (inject_Z scale_factor / 50))%Q.
Proof.
  intros Hlt. unfold size_marker.
  destruct (Qeq_bool (hi - lo) 0) eqn:E; [| done].
  apply Qeq_bool_iff in E. lra.
Qed.




End LegendFacts.

(** ** More on the tooltip *)
Module TooltipMore.
Import Tooltip Examples.

(** X1: wherever the pointer is and whatever the sizes are, the tooltip
    as moved never lies under the pointer: on each axis the pointer is
    strictly before the tooltip's near edge or strictly past its far
    edge. *)
Theorem tooltip_never_under_pointer (g : geometry) :
  (mouse_x g < (move g).1 ∨ (move g).1 + tooltip_width g < mouse_x g) ∧
  (mouse_y g < (move g).2 ∨ (move g).2 + tooltip_height g < mouse_y g).
Proof.
  unfold move, new_x, new_y, offset_x, offset_y. cbn [fst snd].
  repeat match goal with
  | |- context [?a >? ?b] => destruct (Z.gtb_spec a b)
  | |- context [?a <? ?b] => destruct (Z.ltb_spec a b)
  end; lia.
Qed.

(** X2: in a window at least twice as wide and as high as the tooltip
    plus its offset of 20, for a cursor strictly inside the window, the
    second pair of tests never fires, the tooltip's top-left corner is at
    least 5 pixels inside the window, and the tooltip reaches at most 5
    pixels past the window's right and bottom edges. *)
Theorem tooltip_in_roomy_window (g : geometry) :
  0 <= tooltip_width g → 0 <= tooltip_height g →
  2 * (tooltip_width g + 20) <= window_width g →
  2 * (tooltip_height g + 20) <= window_height g →
  cursor_inside g →
  fits_beside_cursor g ∧
  5 <= (move g).1 ∧ (move g).1 + tooltip_width g <= window_width g + 5 ∧
  5 <= (move g).2 ∧ (move g).2 + tooltip_height g <= window_height g + 5.
Proof.
  unfold cursor_inside, fits_beside_cursor, move, new_x, new_y, offset_x, offset_y.
  intros Hw Hh HW HH [Hx Hy]. cbn [fst snd].
  repeat match goal with
  | |- context [?a >? ?b] => destruct (Z.gtb_spec a b)
  | |- context [?a <? ?b] => destruct (Z.ltb_spec a b)
  end; lia.
Qed.

Lemma tooltip_in_roomy_window_witness :
  0 <= tooltip_width g_overflow ∧ 0 <= tooltip_height g_overflow ∧
  2 * (tooltip_width g_overflow + 20) <= window_width g_overflow ∧
  2 * (tooltip_height g_overflow + 20) <= window_height g_overflow ∧
  cursor_inside g_overflow ∧
  fits_beside_cursor g_overflow ∧
  5 <= (move g_overflow).1 ∧
  (move g_overflow).1 + tooltip_width g_overflow <= window_width g_overflow + 5 ∧
  5 <= (move g_overflow).2 ∧
  (move g_overflow).2 + tooltip_height g_overflow <= window_height g_overflow + 5.
Proof.
  assert (H1 : 0 <= tooltip_width g_overflow) by (vm_compute; discriminate).
  assert (H2 : 0 <= tooltip_height g_overflow) by (vm_compute; discriminate).
  assert (H3 : 2 * (tooltip_width g_overflow + 20) <= window_width g_overflow)
    by (vm_compute; discriminate).
  assert (H4 : 2 * (tooltip_height g_overflow + 20) <= window_height g_overflow)
    by (vm_compute; discriminate).
  assert (H5 : cursor_inside g_overflow) by (repeat split; reflexivity).
  do 5 (split; [assumption |]).
  exact (tooltip_in_roomy_window g_overflow H1 H2 H3 H4 H5).
Defined.

End TooltipMore.

(** ** More on the brush *)
Module BrushMore.
Import Pandas Brush Spec Examples.

(** X3: [update_colors] raises exactly when the selection is not empty
    and holds the index of a row of the brush's frame that lies past the
    end of the default colours; with an empty selection it never raises. *)
Theorem update_colors_raises_iff (b : t) (sel : list nat) :
  update_colors b sel = None ↔
  sel ≠ [] ∧
  ∃ i, i ∈ sel ∧ (length (default_colors b) ≤ i < length (data b))%nat.
Proof.
  unfold update_colors. destruct sel as [| s sel].
  { rewrite bool_decide_eq_true_2 by done. split; [discriminate | intros [? _]; done]. }
  rewrite bool_decide_eq_false_2 by done.
  destruct (mapM (color_of b (s :: sel)) (seq 0 (length (data b)))) as [cs |] eqn:Hm;
    cbn.
  - split; [discriminate |]. intros (_ & i & Hin & Hge & Hlt).
    apply mapM_Some_1 in Hm.
    destruct (Forall2_lookup_l _ _ _ i i Hm) as (c & _ & Hc).
    { apply lookup_seq. auto. }
    unfold color_of in Hc. rewrite bool_decide_eq_false_2 in Hc by auto.
    apply lookup_lt_Some in Hc. lia.
  - split; [| done]. intros _. split; [done |].
    apply mapM_None_1, Exists_exists in Hm. destruct Hm as (i & Hi & Hnone).
    apply list_elem_of_lookup in Hi as (j & Hj). apply lookup_seq in Hj as [-> Hj].
    unfold color_of in Hnone. case_bool_decide as Hin; [discriminate |].
    apply lookup_ge_None in Hnone.
    exists j. cbn in *. split; [done | lia].
Qed.

(** The cells of the bound columns are numbers or null once [callback]
    has coerced them. *)
Lemma numeric_column_dragged_frame (x y : string) (df : frame) :
  numeric_column x (dragged_frame x y df) ∧ numeric_column y (dragged_frame x y df).
Proof.
  unfold numeric_column. rewrite !Forall_forall.
  split; intros r' Hin s;
    apply BrushFacts.elem_of_dragged_frame in Hin as (r & _ & _ & _ & ->).
  - rewrite BrushFacts.lookup_coerced_x. by destruct (r !! x) as [[] |].
  - rewrite BrushFacts.lookup_coerced_y. by destruct (r !! y) as [[] |].
Qed.

Lemma callback_has_default_colors (b b' : t) (e1 e2 : MouseEvent) (x y : string) :
  has_default_colors b → callback b e1 e2 x y = Some b' →
  has_default_colors b' ∧ (length (data b') ≤ length (data b))%nat.
Proof.
  unfold has_default_colors. intros Hlen Hb'.
  destruct (BrushFacts.callback_fields _ _ _ _ _ _ Hb') as (-> & _ & -> & _).
  pose proof (BrushFacts.length_dragged_frame x y (data b)). lia.
Qed.

(** X4: for any frame with a default colour per row, also one with text
    in the bound columns, what the brush callback computes before it draws
    (frame, selection and colours) settles after two applications with the
    same drag and attributes: the second result is a fixed point, so a
    third and every later application changes nothing. *)
Theorem callback_settles (b : t) (e1 e2 : MouseEvent) (x y : string) :
  has_default_colors b →
  ∃ b1 b2, callback b e1 e2 x y = Some b1 ∧
           callback b1 e1 e2 x y = Some b2 ∧
           callback b2 e1 e2 x y = Some b2.
Proof.
  intros Hlen.
  destruct (BrushFacts.callback_is_Some b e1 e2 x y Hlen) as [b1 Hb1].
  destruct (callback_has_default_colors _ _ _ _ _ _ Hlen Hb1) as [Hlen1 _].
  destruct (BrushFacts.callback_is_Some b1 e1 e2 x y Hlen1) as [b2 Hb2].
  exists b1, b2. split; [done |]. split; [done |].
  apply (BrushFacts.callback_again b1); [done |].
  destruct (BrushFacts.callback_fields _ _ _ _ _ _ Hb1) as (Hd1 & _).
  destruct (BrushFacts.callback_fields _ _ _ _ _ _ Hb2) as (-> & _).
  apply BrushFacts.numeric_rows_dragged_frame; rewrite Hd1;
    apply numeric_column_dragged_frame.
Qed.

Lemma callback_settles_witness :
  has_default_colors brush_text ∧
  ∃ b1 b2, callback brush_text (press 0 0) (press 2 2) "x" "y" = Some b1 ∧
           callback b1 (press 0 0) (press 2 2) "x" "y" = Some b2 ∧
           callback b2 (press 0 0) (press 2 2) "x" "y" = Some b2.
Proof.
  assert (H : has_default_colors brush_text)
    by (unfold has_default_colors; cbn; lia).
  split; [exact H | exact (callback_settles brush_text _ _ _ _ H)].
Defined.

End BrushMore.

(** ** Runs of drags *)
Module DragsFacts.
Import Pandas Spec Examples BrushingChart.

Lemma recolored_match (b : Brush.t) (sel : list nat) :
  recolored b sel →
  length (Brush.default_colors b) = length (Brush.data b) →
  length (Brush.colors b) = length (Brush.data b).
Proof.
  unfold recolored. destruct sel; [intros -> | intros [? _]]; done.
Qed.

Lemma colors_fit_per_point (points : nat) (c : list Brush.rgba) :
  length c = points → Brush.colors_fit points c = true.
Proof.
  intros H. unfold Brush.colors_fit.
  rewrite (bool_decide_eq_true_2 (length c = points)) by done.
  by rewrite orb_true_r.
Qed.

(** A ready brush passes the checks of its scatter. *)
Lemma scatter_accepts_ready (x y : string) (b : Brush.t) :
  Drags.brush_ready x y b →
  Brush.scatter_accepts (length (Brush.data b)) (Brush.colors b) (Brush.sizes b)
  = true.
Proof.
  intros (_ & Hc & Hs & _). unfold Brush.scatter_accepts, Brush.sizes_fit.
  rewrite (colors_fit_per_point _ _ Hc).
  rewrite (bool_decide_eq_true_2 (length (Brush.sizes b) = length (Brush.data b)))
    by done.
  by rewrite orb_true_r.
Qed.

(** A drag on a ready brush, and the recolouring of the other: both
    return and leave both brushes ready, with the frames they had. *)
Lemma drag_ready (d c : Brush.t) (e1 e2 : Brush.MouseEvent) (x y x' y' : string) :
  Drags.brush_ready x y d → Drags.brush_ready x' y' c →
  ∃ d' c',
    Brush.callback d e1 e2 x y = Some d' ∧
    Brush.callback_then_scatter d e1 e2 x y = Some d' ∧
    Brush.update_colors c (selected_index d') = Some c' ∧
    Drags.brush_ready x y d' ∧ Drags.brush_ready x' y' c' ∧
    Brush.data d' = Brush.data d ∧ Brush.data c' = Brush.data c ∧
    recolored d' (index (Brush.selected d')) ∧
    recolored c' (index (Brush.selected d')) ∧
    Brush.selected c' = Brush.selected c ∧
    Brush.default_colors c' = Brush.default_colors c ∧
    Brush.default_colors d' = Brush.default_colors d.
Proof.
  intros (Hd1 & Hd2 & Hd3 & Hd4) (Hc1 & Hc2 & Hc3 & Hc4).
  destruct (BrushingChartFacts.drag_then_recolor d c e1 e2 x y)
    as (d' & c' & Hd & Hc & Rd & Rc & Hdat & Hsel & Hdef & Hdef').
  { unfold has_default_colors. lia. }
  { unfold has_default_colors. lia. }
  destruct (BrushFacts.callback_fields _ _ _ _ _ _ Hd) as (Hdd & _ & _ & Hsz & _).
  destruct (BrushFacts.update_colors_fields _ _ _ Hc) as (_ & _ & _ & Hsc).
  rewrite (BrushFacts.dragged_frame_numeric_rows x y (Brush.data d) Hd4) in Hdd.
  assert (Ld : length (Brush.default_colors d') = length (Brush.data d'))
    by congruence.
  assert (Lc : length (Brush.default_colors c') = length (Brush.data c'))
    by congruence.
  assert (Rd' : Drags.brush_ready x y d').
  { split; [done |]. split; [by eapply recolored_match |].
    split; [congruence |]. by rewrite Hdd. }
  assert (Rc' : Drags.brush_ready x' y' c').
  { split; [done |]. split; [by eapply recolored_match |].
    split; [congruence |]. by rewrite Hdat. }
  exists d', c'. split; [done |]. split.
  { unfold Brush.callback_then_scatter. rewrite Hd. cbn [mbind option_bind].
    by rewrite (scatter_accepts_ready x y d' Rd'). }
  split; [done |]. by repeat (split; [done |]).
Qed.

(** One drag on a ready view, in full. *)
Lemma select_ready (self : t) (e1 e2 : Brush.MouseEvent) (graph : nat) :
  graph = 1%nat ∨ graph = 2%nat → Drags.ready self →
  ∃ self', select self e1 e2 graph = Some self' ∧ Drags.ready self' ∧
    data self' = data self ∧
    Brush.data (brush1 self') = Brush.data (brush1 self) ∧
    Brush.data (brush2 self') = Brush.data (brush2 self) ∧
    let sel := index (Brush.selected (dragged graph self')) in
    recolored (dragged graph self') sel ∧
    recolored (complementary graph self') sel ∧
    Brush.selected (complementary graph self')
      = Brush.selected (complementary graph self) ∧
    Brush.default_colors (complementary graph self')
      = Brush.default_colors (complementary graph self) ∧
    Brush.default_colors (dragged graph self')
      = Brush.default_colors (dragged graph self).
Proof.
  intros Hg [[H1 L1] [H2 L2]]. unfold select, dragged, complementary.
  destruct Hg as [-> | ->];
    change (bool_decide (1%nat = 1%nat)) with true;
    change (bool_decide (2%nat = 2%nat)) with true;
    change (bool_decide (1%nat = 2%nat)) with false;
    change (bool_decide (2%nat = 1%nat)) with false;
    cbn [mbind option_bind].
  - destruct (drag_ready _ _ e1 e2 _ _ _ _ H1 H2)
      as (d' & c' & _ & -> & Hc & Rd & Rc & Dd & Dc & ? & ? & ? & ? & ?).
    cbn [mbind option_bind]. rewrite Hc. cbn [mbind option_bind].
    unfold scatter_complementary.
    rewrite colors_fit_per_point
      by (destruct Rc as (_ & -> & _); congruence).
    cbn [mbind option_bind].
    eexists. split; [reflexivity |]. cbn.
    split; [split; split; cbn; (done || congruence) |].
    by repeat (split; [done |]).
  - destruct (drag_ready _ _ e1 e2 _ _ _ _ H2 H1)
      as (d' & c' & _ & -> & Hc & Rd & Rc & Dd & Dc & ? & ? & ? & ? & ?).
    cbn [mbind option_bind]. rewrite Hc. cbn [mbind option_bind].
    unfold scatter_complementary.
    rewrite colors_fit_per_point
      by (destruct Rc as (_ & -> & _); congruence).
    eexists. split; [reflexivity |]. cbn.
    split; [split; split; cbn; (done || congruence) |].
    by repeat (split; [done |]).
Qed.

(** A drag reported for another panel than 1 or 2 does nothing. *)
Lemma select_other (self : t) (e1 e2 : Brush.MouseEvent) (graph : nat) :
  graph ≠ 1%nat → graph ≠ 2%nat → select self e1 e2 graph = Some self.
Proof.
  intros Hn1 Hn2. unfold select.
  rewrite (bool_decide_eq_false_2 (graph = 1%nat)) by done.
  cbn [mbind option_bind].
  by rewrite (bool_decide_eq_false_2 (graph = 2%nat)) by done.
Qed.

(** X5: over complete numeric columns the drags keep the arrays of both
    panels in step with the points.  From a view whose two brushes have a
    number in both bound columns of every row, and one default colour, one
    colour and one marker area per row, over frames as long as the view's
    own, every run of drags, on either panel and with any corners,
    completes, the scatters included; neither brush's frame changes, and at
    the end each brush again has exactly one colour and one marker area
    per row, which is what its scatter is given. *)
Theorem drags_keep_arrays_in_step (ds : list Drags.drag) (self : t) :
  Drags.ready self →
  ∃ self', Drags.run self ds = Some self' ∧
    Brush.data (brush1 self') = Brush.data (brush1 self) ∧
    Brush.data (brush2 self') = Brush.data (brush2 self) ∧
    length (Brush.colors (brush1 self')) = length (Brush.data (brush1 self')) ∧
    length (Brush.colors (brush2 self')) = length (Brush.data (brush2 self')) ∧
    length (Brush.sizes (brush1 self')) = length (Brush.data (brush1 self')) ∧
    length (Brush.sizes (brush2 self')) = length (Brush.data (brush2 self')).
Proof.
  assert (H : ∀ ds self, Drags.ready self →
            ∃ self', Drags.run self ds = Some self' ∧ Drags.ready self' ∧
              Brush.data (brush1 self') = Brush.data (brush1 self) ∧
              Brush.data (brush2 self') = Brush.data (brush2 self)).
  { clear. induction ds as [| d ds IH]; intros self Hr.
    { exists self. done. }
    assert (Hs : ∃ self1,
              select self (Drags.eclick d) (Drags.erelease d) (Drags.graph d)
              = Some self1 ∧ Drags.ready self1 ∧
              Brush.data (brush1 self1) = Brush.data (brush1 self) ∧
              Brush.data (brush2 self1) = Brush.data (brush2 self)).
    { destruct (decide (Drags.graph d = 1%nat ∨ Drags.graph d = 2%nat)) as [Hg | Hg].
      - destruct (select_ready self (Drags.eclick d) (Drags.erelease d) _ Hg Hr)
          as (self1 & ? & ? & _ & ? & ? & _). by exists self1.
      - exists self. rewrite select_other by tauto. done. }
    destruct Hs as (self1 & Hs & Hr1 & D1 & D2).
    destruct (IH self1 Hr1) as (self' & Hrun & Hr' & D1' & D2').
    exists self'. cbn [Drags.run]. rewrite Hs. cbn [mbind option_bind].
    split; [done |]. split; [done |]. split; congruence. }
  intros Hr. destruct (H ds self Hr)
    as (self' & Hrun & [[(_ & ? & ? & _) _] [(_ & ? & ? & _) _]] & ? & ?).
  exists self'. done.
Qed.

Lemma chart_numeric_ready : Drags.ready chart_numeric.
Proof.
  split; (split; [| reflexivity]);
    (split; [reflexivity |]; split; [reflexivity |]; split; [reflexivity |]);
    repeat constructor; eexists; reflexivity.
Qed.

Lemma drags_keep_arrays_in_step_witness :
  let ds :=
    [ {| Drags.eclick := press 0 0; Drags.erelease := press 2 2; Drags.graph := 1 |};
      {| Drags.eclick := press 9 9; Drags.erelease := press 4 4; Drags.graph := 2 |} ] in
  Drags.ready chart_numeric ∧
  ∃ self', Drags.run chart_numeric ds = Some self' ∧
    Brush.data (brush1 self') = Brush.data (brush1 chart_numeric) ∧
    Brush.data (brush2 self') = Brush.data (brush2 chart_numeric) ∧
    length (Brush.colors (brush1 self')) = length (Brush.data (brush1 self')) ∧
    length (Brush.colors (brush2 self')) = length (Brush.data (brush2 self')) ∧
    length (Brush.sizes (brush1 self')) = length (Brush.data (brush1 self')) ∧
    length (Brush.sizes (brush2 self')) = length (Brush.data (brush2 self')).
Proof.
  intros ds. split; [exact chart_numeric_ready |].
  exact (drags_keep_arrays_in_step ds chart_numeric chart_numeric_ready).
Defined.

(** X22: the linked recolouring, where the drag completes.  In a ready
    view, a drag on panel [graph] (1 or 2) returns, and with [sel] the
    index set of the dragged panel's selection: the dragged panel's colours
    and the complementary panel's colours are both the recolouring by
    [sel] (gray outside [sel], the panel's own default colour at the same
    index inside it); the complementary brush keeps its own frame and
    selection, so nothing is filtered by its own bound attributes; and when
    [sel] is empty both colour arrays are the default colours. *)
Theorem ready_select_recolors_both_panels (self : t) (e1 e2 : Brush.MouseEvent)
    (graph : nat) :
  graph = 1%nat ∨ graph = 2%nat → Drags.ready self →
  ∃ self', select self e1 e2 graph = Some self' ∧
    let sel := index (Brush.selected (dragged graph self')) in
    recolored (dragged graph self') sel ∧
    recolored (complementary graph self') sel ∧
    Brush.data (complementary graph self') = Brush.data (complementary graph self) ∧
    Brush.selected (complementary graph self')
      = Brush.selected (complementary graph self) ∧
    Brush.default_colors (complementary graph self')
      = Brush.default_colors (complementary graph self) ∧
    Brush.default_colors (dragged graph self')
      = Brush.default_colors (dragged graph self) ∧
    (sel = [] →
       Brush.colors (dragged graph self')
         = Brush.default_colors (dragged graph self) ∧
       Brush.colors (complementary graph self')
         = Brush.default_colors (complementary graph self)).
Proof.
  intros Hg Hr.
  destruct (select_ready self e1 e2 graph Hg Hr)
    as (self' & Hs & _ & _ & D1 & D2 & Hrd & Hrc & Hsel & Hcdc & Hddc).
  exists self'. split; [done |]. cbn zeta.
  split; [done |]. split; [done |].
  split; [unfold complementary; by case_bool_decide |].
  do 3 (split; [done |]).
  intros Hnil. rewrite Hnil in Hrd, Hrc.
  by rewrite (BrushingChartFacts.recolored_nil _ Hrd),
    (BrushingChartFacts.recolored_nil _ Hrc), Hcdc, Hddc.
Qed.

Lemma ready_select_recolors_both_panels_witness :
  (1 = 1 ∨ 1 = 2)%nat ∧ Drags.ready chart_numeric ∧
  ∃ self', select chart_numeric (press 0 0) (press 2 2) 1 = Some self' ∧
    let sel := index (Brush.selected (dragged 1 self')) in
    recolored (dragged 1 self') sel ∧
    recolored (complementary 1 self') sel ∧
    Brush.data (complementary 1 self') = Brush.data (complementary 1 chart_numeric) ∧
    Brush.selected (complementary 1 self')
      = Brush.selected (complementary 1 chart_numeric) ∧
    Brush.default_colors (complementary 1 self')
      = Brush.default_colors (complementary 1 chart_numeric) ∧
    Brush.default_colors (dragged 1 self')
      = Brush.default_colors (dragged 1 chart_numeric) ∧
    (sel = [] →
       Brush.colors (dragged 1 self')
         = Brush.default_colors (dragged 1 chart_numeric) ∧
       Brush.colors (complementary 1 self')
         = Brush.default_colors (complementary 1 chart_numeric)).
Proof.
  split; [left; reflexivity |]. split; [exact chart_numeric_ready |].
  exact (ready_select_recolors_both_panels chart_numeric (press 0 0) (press 2 2) 1
           (or_introl eq_refl) chart_numeric_ready).
Defined.

(** The drag of the witness, evaluated: row 0 is selected, and both
    panels show their own colour at row 0 and gray at row 1. *)
Lemma select_chart_numeric :
  (λ c, (Brush.colors (brush1 c), Brush.colors (brush2 c))) <$>
    select chart_numeric (press 0 0) (press 2 2) 1
  = Some ([red; Brush.gray], [red; Brush.gray]).
Proof. vm_compute. reflexivity. Qed.

(** X23: on a ready brush the callback is idempotent.  For a brush with
    a number in both bound columns of every row and one default colour,
    one colour and one marker area per row, the callback returns, its
    scatter included, keeps every row, and applying it again with the same
    drag and attributes returns the very state the first application
    left. *)
Theorem ready_callback_idempotent (b : Brush.t) (e1 e2 : Brush.MouseEvent)
    (x y : string) :
  Drags.brush_ready x y b →
  ∃ b1, Brush.callback_then_scatter b e1 e2 x y = Some b1 ∧
        Brush.callback_then_scatter b1 e1 e2 x y = Some b1 ∧
        Brush.data b1 = Brush.data b.
Proof.
  intros Hb.
  destruct (drag_ready b b e1 e2 x y x y Hb Hb)
    as (b1 & _ & Hcb & Hcs & _ & Hb1 & _ & Hd & _).
  exists b1. split; [done |]. split; [| done].
  unfold Brush.callback_then_scatter.
  rewrite (BrushFacts.callback_again b b1 e1 e2 x y Hcb)
    by (destruct Hb1 as (_ & _ & _ & ?); done).
  cbn [mbind option_bind]. by rewrite (scatter_accepts_ready x y b1 Hb1).
Qed.

Lemma ready_callback_idempotent_witness :
  Drags.brush_ready "x" "y" brush_numeric ∧
  ∃ b1, Brush.callback_then_scatter brush_numeric (press 0 0) (press 2 2) "x" "y"
          = Some b1 ∧
        Brush.callback_then_scatter b1 (press 0 0) (press 2 2) "x" "y" = Some b1 ∧
        Brush.data b1 = Brush.data brush_numeric.
Proof.
  assert (H : Drags.brush_ready "x" "y" brush_numeric).
  { split; [reflexivity |]. split; [reflexivity |]. split; [reflexivity |].
    repeat constructor; eexists; reflexivity. }
  split; [exact H |].
  exact (ready_callback_idempotent brush_numeric (press 0 0) (press 2 2) "x" "y" H).
Defined.

End DragsFacts.

(** ** More on the bubble view *)
Module BubbleChartMore.
Import Pandas Spec Examples BubbleChart.

(** With printable scores the hover handler's text never raises: the
    handler is then the handler on the styling alone. *)
Lemma on_hover_text (st : t) (ev : Event) :
  BubbleView.scores_print st → BubbleView.on_hover st ev = on_hover st ev.
Proof.
  intros Hp. unfold BubbleView.on_hover, BubbleView.details, on_hover.
  destruct (inaxes ev); cbn [negb]; [| done].
  destruct (ind ev) as [| i rest]; [done |].
  destruct (data st !! i) as [r |] eqn:Er; [| done]. cbn [mbind option_bind].
  unfold BubbleView.scores_print in Hp. rewrite Forall_forall in Hp.
  by rewrite (Hp r) by (by eapply list_elem_of_lookup_2).
Qed.

Lemma run_text (hs : list (Handler * Event)) (st : t) :
  consistent st → BubbleView.scores_print st →
  Forall (λ h : Handler * Event,
            Forall (λ i, i < length (data st))%nat (ind h.2)) hs →
  BubbleView.run st hs = run st hs.
Proof.
  revert st. induction hs as [| h hs IH]; intros st Hst Hp Hall; [done |].
  apply Forall_cons in Hall as [Hh Hall].
  assert (Heq : BubbleView.handle st h = handle st h).
  { unfold BubbleView.handle, handle. destruct h.1; [by apply on_hover_text | done]. }
  cbn [BubbleView.run run]. rewrite Heq.
  destruct (BubbleChartFacts.run_consistent [h] st Hst) as (st1 & Hrun & Hst1 & Hd1).
  { by apply Forall_cons. }
  cbn [run] in Hrun. destruct (handle st h) as [st1' |]; [| discriminate].
  cbn [mbind option_bind] in *. injection Hrun as ->.
  apply IH; [done | |].
  - unfold BubbleView.scores_print. by rewrite Hd1.
  - by rewrite Hd1.
Qed.

(** X24: what the hover handler leaves alone.  In a state whose arrays
    are as long as the data and whose scores are not texts, on a pointer
    event that reports rows of the data, the hover handler returns and
    leaves the data, the persistent edge-colour and line-width arrays and
    the selection set as they were.  On a hit of a row whose persistent
    edge colour is red the scatter is handed the persistent arrays, so the
    row keeps its red border; on a hit of any other row it is handed a copy
    with black and width 2 at the row; on a miss inside the axes it is
    handed the persistent arrays and the tooltip is hidden; outside the
    axes the tooltip is hidden and the scatter keeps the styling it had. *)
Theorem hover_frame_effect (st : t) (ev : Event) :
  length (edgecolors st) = length (data st) →
  length (linewidths st) = length (data st) →
  hits_rows st ev → BubbleView.scores_print st →
  ∃ st', BubbleView.on_hover st ev = Some st' ∧
    data st' = data st ∧
    edgecolors st' = edgecolors st ∧
    linewidths st' = linewidths st ∧
    selected_indices st' = selected_indices st ∧
    (∀ i, inaxes ev = true → head (ind ev) = Some i →
       (edgecolors st !! i = Some "red" →
          scatter_edgecolors st' = edgecolors st ∧
          scatter_linewidths st' = linewidths st ∧
          scatter_edgecolors st' !! i = Some "red") ∧
       (edgecolors st !! i ≠ Some "red" →
          scatter_edgecolors st' = <[i := "black"]> (edgecolors st) ∧
          scatter_linewidths st' = <[i := 2%Q]> (linewidths st))) ∧
    (inaxes ev = true → ind ev = [] →
       scatter_edgecolors st' = edgecolors st ∧
       scatter_linewidths st' = linewidths st ∧
       tooltip_visible st' = false) ∧
    (inaxes ev = false →
       scatter_edgecolors st' = scatter_edgecolors st ∧
       scatter_linewidths st' = scatter_linewidths st ∧
       tooltip_visible st' = false).
Proof.
  intros Hec Hlw Hhits Hp. rewrite (on_hover_text st ev Hp).
  destruct (BubbleChartFacts.on_hover_styling st ev Hec Hlw Hhits)
    as (st' & Hh & ? & ? & ? & ? & ? & ?).
  exists st'. do 7 (split; [done |]).
  intros Hout. unfold on_hover in Hh. rewrite Hout in Hh.
  cbn [negb] in Hh. by injection Hh as <-.
Qed.

Lemma hover_frame_effect_witness :
  length (edgecolors bubble3) = length (data bubble3) ∧
  length (linewidths bubble3) = length (data bubble3) ∧
  hits_rows bubble3 (pointer_on 1) ∧ BubbleView.scores_print bubble3 ∧
  ∃ st', BubbleView.on_hover bubble3 (pointer_on 1) = Some st' ∧
    data st' = data bubble3 ∧
    edgecolors st' = edgecolors bubble3 ∧
    linewidths st' = linewidths bubble3 ∧
    selected_indices st' = selected_indices bubble3 ∧
    (∀ i, inaxes (pointer_on 1) = true → head (ind (pointer_on 1)) = Some i →
       (edgecolors bubble3 !! i = Some "red" →
          scatter_edgecolors st' = edgecolors bubble3 ∧
          scatter_linewidths st' = linewidths bubble3 ∧
          scatter_edgecolors st' !! i = Some "red") ∧
       (edgecolors bubble3 !! i ≠ Some "red" →
          scatter_edgecolors st' = <[i := "black"]> (edgecolors bubble3) ∧
          scatter_linewidths st' = <[i := 2%Q]> (linewidths bubble3))) ∧
    (inaxes (pointer_on 1) = true → ind (pointer_on 1) = [] →
       scatter_edgecolors st' = edgecolors bubble3 ∧
       scatter_linewidths st' = linewidths bubble3 ∧
       tooltip_visible st' = false) ∧
    (inaxes (pointer_on 1) = false →
       scatter_edgecolors st' = scatter_edgecolors bubble3 ∧
       scatter_linewidths st' = scatter_linewidths bubble3 ∧
       tooltip_visible st' = false).
Proof.
  assert (Hh : hits_rows bubble3 (pointer_on 1)).
  { unfold hits_rows. apply Forall_cons. split; [vm_compute; lia | constructor]. }
  assert (Hp : BubbleView.scores_print bubble3).
  { repeat (apply Forall_cons; split); try apply Forall_nil; vm_compute; reflexivity. }
  split; [reflexivity |]. split; [reflexivity |]. split; [exact Hh |].
  split; [exact Hp |].
  exact (hover_frame_effect bubble3 (pointer_on 1) eq_refl eq_refl Hh Hp).
Defined.

(** C10: the hover highlight is not taken back when the pointer leaves
    the axes.  In the bubble view over three rows, none selected, a hover
    on row 1 hands the scatter the black border of width 2 at row 1.  A
    motion outside the axes then hides the tooltip and returns: the
    scatter still shows the black border at row 1, while the persistent
    arrays are white, 0.5 throughout, so the rendered styling is not the
    persistent one.  A motion inside the axes that hits no point, after the
    same hover, does hand the persistent arrays to the scatter. *)
Theorem hover_highlight_left_outside_axes :
  let ev_out := {| inaxes := false; ind := []; local_pos := (0, 0);
                   window := (1000, 800) |} in
  let ev_miss := {| inaxes := true; ind := []; local_pos := (300, 200);
                    window := (1000, 800) |} in
  let shown st := (scatter_edgecolors st, scatter_linewidths st,
                   edgecolors st, linewidths st, tooltip_visible st) in
  shown <$> (BubbleView.on_hover bubble3 (pointer_on 1)
               ≫= λ st, BubbleView.on_hover st ev_out)
  = Some (["white"; "black"; "white"], [1 # 2; 2; 1 # 2]%Q,
          ["white"; "white"; "white"], [1 # 2; 1 # 2; 1 # 2]%Q, false) ∧
  shown <$> (BubbleView.on_hover bubble3 (pointer_on 1)
               ≫= λ st, BubbleView.on_hover st ev_miss)
  = Some (["white"; "white"; "white"], [1 # 2; 1 # 2; 1 # 2]%Q,
          ["white"; "white"; "white"], [1 # 2; 1 # 2; 1 # 2]%Q, false).
Proof. split; vm_compute; reflexivity. Qed.

(** X6: from the view as constructed over a frame whose scores are not
    texts, every run of hover and click events that report rows of the
    data returns: no handler raises; the data is untouched, the
    edge-colour and line-width arrays are as long as the data, and the
    selection set is exactly the set of rows whose persistent edge colour
    is red, with width 2, every other row being white with width 0.5. *)
Theorem bubble_events_keep_invariant (df : frame) (hs : list (Handler * Event)) :
  BubbleView.scores_print (init df) →
  Forall (λ h : Handler * Event,
            Forall (λ i, i < length (data (init df)))%nat (ind h.2)) hs →
  ∃ st, BubbleView.run (init df) hs = Some st ∧
    data st = data (init df) ∧
    length (edgecolors st) = length (data st) ∧
    length (linewidths st) = length (data st) ∧
    ∀ i, (i < length (data st))%nat →
      (i ∈ selected_indices st ↔ edgecolors st !! i = Some "red") ∧
      (i ∈ selected_indices st ↔ linewidths st !! i = Some 2%Q) ∧
      (i ∉ selected_indices st ↔ edgecolors st !! i = Some "white") ∧
      (i ∉ selected_indices st ↔ linewidths st !! i = Some (1 # 2)%Q).
Proof.
  intros Hp Hall.
  rewrite (run_text hs (init df) (BubbleChartFacts.init_consistent df) Hp Hall).
  destruct (BubbleChartFacts.run_consistent hs (init df)
              (BubbleChartFacts.init_consistent df) Hall)
    as (st & Hrun & Hst & Hd).
  exists st. split; [done |]. split; [done |].
  pose proof Hst as (Hec & Hlw & _). split; [done |]. split; [done |].
  intros i Hi.
  destruct (BubbleChartFacts.consistent_row st i Hst Hi) as [-> ->].
  case_bool_decide; repeat split; intros; try done; try discriminate.
Qed.

Lemma bubble_events_keep_invariant_witness :
  let df := [bubble_row 10 7 1000; bubble_row 9 6 2000; bubble_row 8 5 3000]%Q in
  let hs := [(Hover, pointer_on 1); (Click, pointer_on 1); (Hover, pointer_on 2)] in
  BubbleView.scores_print (init df) ∧
  Forall (λ h : Handler * Event,
            Forall (λ i, i < length (data (init df)))%nat (ind h.2)) hs ∧
  ∃ st, BubbleView.run (init df) hs = Some st ∧
    data st = data (init df) ∧
    length (edgecolors st) = length (data st) ∧
    length (linewidths st) = length (data st) ∧
    ∀ i, (i < length (data st))%nat →
      (i ∈ selected_indices st ↔ edgecolors st !! i = Some "red") ∧
      (i ∈ selected_indices st ↔ linewidths st !! i = Some 2%Q) ∧
      (i ∉ selected_indices st ↔ edgecolors st !! i = Some "white") ∧
      (i ∉ selected_indices st ↔ linewidths st !! i = Some (1 # 2)%Q).
Proof.
  intros df hs.
  assert (Hp : BubbleView.scores_print (init df)).
  { repeat (apply Forall_cons; split); try apply Forall_nil; vm_compute; reflexivity. }
  assert (H : Forall (λ h : Handler * Event,
            Forall (λ i, i < length (data (init df)))%nat (ind h.2)) hs).
  { repeat (apply Forall_cons; split); try apply Forall_nil; vm_compute; lia. }
  split; [exact Hp |].
  split; [exact H | exact (bubble_events_keep_invariant df hs Hp H)].
Defined.

(** X7: [n] clicks on the same row of a consistent state all return; the
    row ends selected exactly when it was selected and [n] is even, or was
    not and [n] is odd; every other row keeps its membership, edge colour
    and line width. *)
Theorem clicks_toggle_by_parity (n : nat) (st : t) (ev : Event) (i : nat) :
  consistent st → inaxes ev = true → head (ind ev) = Some i →
  (i < length (data st))%nat →
  ∃ st', run st (replicate n (Click, ev)) = Some st' ∧
    consistent st' ∧ data st' = data st ∧
    (i ∈ selected_indices st' ↔
       if Nat.even n then i ∈ selected_indices st else i ∉ selected_indices st) ∧
    ∀ j, j ≠ i →
      (j ∈ selected_indices st' ↔ j ∈ selected_indices st) ∧
      edgecolors st' !! j = edgecolors st !! j ∧
      linewidths st' !! j = linewidths st !! j.
Proof.
  revert st. induction n as [| n IH]; intros st Hst Hax Hh Hi.
  { exists st. cbn. done. }
  destruct (BubbleChartFacts.on_click_toggle st ev i Hst Hax Hh Hi)
    as (st1 & Hc1 & Hd1 & Hst1 & Hm1 & Ho1 & _).
  destruct (IH st1 Hst1 Hax Hh) as (st' & Hrun & Hst' & Hd' & Hm' & Ho');
    [by rewrite Hd1 |].
  exists st'. cbn [replicate run handle fst snd]. rewrite Hc1.
  cbn [mbind option_bind].
  split; [done |]. split; [done |]. split; [congruence |]. split.
  - rewrite Hm'. rewrite Nat.even_succ, <- Nat.negb_even.
    destruct (Nat.even n); cbn; [done |].
    rewrite Hm1. destruct (decide (i ∈ selected_indices st)); tauto.
  - intros j Hne. destruct (Ho' j Hne) as (-> & -> & ->).
    destruct (Ho1 j Hne) as (-> & -> & ->). done.
Qed.

Lemma clicks_toggle_by_parity_witness :
  consistent bubble3 ∧ inaxes (pointer_on 1) = true ∧
  head (ind (pointer_on 1)) = Some 1%nat ∧ (1 < length (data bubble3))%nat ∧
  ∃ st', run bubble3 (replicate 3 (Click, pointer_on 1)) = Some st' ∧
    consistent st' ∧ data st' = data bubble3 ∧
    (1%nat ∈ selected_indices st' ↔
       if Nat.even 3 then 1%nat ∈ selected_indices bubble3
       else 1%nat ∉ selected_indices bubble3) ∧
    ∀ j, j ≠ 1%nat →
      (j ∈ selected_indices st' ↔ j ∈ selected_indices bubble3) ∧
      edgecolors st' !! j = edgecolors bubble3 !! j ∧
      linewidths st' !! j = linewidths bubble3 !! j.
Proof.
  assert (Hlen : (1 < length (data bubble3))%nat) by (vm_compute; lia).
  split; [apply BubbleChartFacts.init_consistent |].
  split; [reflexivity |]. split; [reflexivity |]. split; [exact Hlen |].
  exact (clicks_toggle_by_parity 3 bubble3 (pointer_on 1) 1
           (BubbleChartFacts.init_consistent _) eq_refl eq_refl Hlen).
Defined.

(** X21: when the hover handler of the bubble view raises.  In a state
    whose arrays are as long as the data, a pointer motion raises exactly
    when the pointer is inside the axes, the scatter reports a hit, and the
    first index reported is past the end of the data or is a row whose
    score is a text; the other indices reported do not matter. *)
Theorem bubble_hover_raises_iff (st : t) (ev : Event) :
  consistent st →
  BubbleView.on_hover st ev = None ↔
  inaxes ev = true ∧
  ∃ i, head (ind ev) = Some i ∧
    ((length (data st) ≤ i)%nat ∨
     ∃ r s, data st !! i = Some r ∧ r !! "Ladder score" = Some (Text s)).
Proof.
  intros Hst. pose proof Hst as (Hec & Hlw & _).
  unfold BubbleView.on_hover, BubbleView.details, on_hover.
  destruct (inaxes ev); cbn [negb mbind option_bind].
  2: { split; [discriminate | by intros [? _]]. }
  destruct (ind ev) as [| i rest]; cbn [mbind option_bind head].
  { split; [discriminate | by intros [_ (? & ? & _)]]. }
  destruct (data st !! i) as [r |] eqn:Er; cbn [mbind option_bind].
  2: { split; [| done]. intros _. split; [done |]. exists i. split; [done |].
       left. by apply lookup_ge_None. }
  assert (Hi : (i < length (data st))%nat) by (by eapply lookup_lt_Some).
  unfold MapView.prints_2f.
  destruct (r !! "Ladder score") as [[q | s] |] eqn:El; cbn [mbind option_bind].
  2: { split; [| done]. intros _. split; [done |]. exists i. split; [done |].
       right. by exists r, s. }
  all: cbn; destruct (lookup_lt_is_Some_2 (edgecolors st) i) as [c ->]; [lia |];
    cbn [mbind option_bind];
    split; [| intros [_ (i' & [= <-] & [? | (r' & s' & Er' & El')])];
              [lia | congruence]];
    case_bool_decide; [rewrite !BubbleChartFacts.list_set_Some by lia |];
    cbn; discriminate.
Qed.

Lemma bubble_hover_raises_iff_witness :
  consistent BubbleView.bubble_text ∧
  BubbleView.on_hover BubbleView.bubble_text (pointer_on 0) = None.
Proof.
  split; [apply BubbleChartFacts.init_consistent |].
  apply (bubble_hover_raises_iff BubbleView.bubble_text (pointer_on 0)
           (BubbleChartFacts.init_consistent _)).
  split; [reflexivity |]. exists 0%nat. split; [reflexivity |]. right.
  eexists _, "n/a". split; reflexivity.
Defined.

(** X8: the hover highlight outlives the pointer leaving the axes.  After
    a hover that hits an unselected row, a motion event outside the axes
    returns early: it hides the tooltip and leaves the scatter with the
    black border of width 2 on that row, although the row's persistent
    edge colour is white. *)
Theorem highlight_survives_leaving_axes (st : t) (ev_hit ev_out : Event) (i : nat) :
  consistent st → BubbleView.scores_print st →
  inaxes ev_hit = true → head (ind ev_hit) = Some i →
  (i < length (data st))%nat → i ∉ selected_indices st →
  inaxes ev_out = false →
  ∃ st1 st2,
    BubbleView.on_hover st ev_hit = Some st1 ∧
    BubbleView.on_hover st1 ev_out = Some st2 ∧
    tooltip_visible st1 = true ∧ tooltip_visible st2 = false ∧
    scatter_edgecolors st2 !! i = Some "black" ∧
    scatter_linewidths st2 !! i = Some 2%Q ∧
    edgecolors st2 !! i = Some "white".
Proof.
  intros Hst Hp Hax Hh Hi Hn Hout.
  rewrite (on_hover_text st ev_hit Hp).
  assert (Hout' : ∀ s, BubbleView.on_hover s ev_out = on_hover s ev_out).
  { intros s. unfold BubbleView.on_hover, BubbleView.details. by rewrite Hout. }
  destruct (BubbleChartFacts.consistent_row st i Hst Hi) as [Hc Hw].
  rewrite bool_decide_eq_false_2 in Hc, Hw by done.
  pose proof Hst as (Hec & Hlw & _).
  unfold on_hover at 1. rewrite Hax. cbn.
  destruct (ind ev_hit) as [| i' rest]; [discriminate |]. injection Hh as ->.
  destruct (lookup_lt_is_Some_2 (data st) i Hi) as [r ->]. cbn.
  rewrite Hc. cbn. rewrite bool_decide_eq_true_2 by done.
  rewrite !BubbleChartFacts.list_set_Some by lia. cbn.
  eexists _, _. split; [reflexivity |]. rewrite Hout'.
  unfold on_hover. rewrite Hout. cbn.
  split; [reflexivity |]. cbn.
  rewrite !list_lookup_insert_eq by lia. done.
Qed.

Lemma highlight_survives_leaving_axes_witness :
  let ev_out := {| inaxes := false; ind := []; local_pos := (0, 0);
                   window := (1000, 800) |} in
  consistent bubble3 ∧ BubbleView.scores_print bubble3 ∧
  inaxes (pointer_on 1) = true ∧
  head (ind (pointer_on 1)) = Some 1%nat ∧
  (1 < length (data bubble3))%nat ∧ (1%nat ∉ selected_indices bubble3) ∧
  inaxes ev_out = false ∧
  ∃ st1 st2,
    BubbleView.on_hover bubble3 (pointer_on 1) = Some st1 ∧
    BubbleView.on_hover st1 ev_out = Some st2 ∧
    tooltip_visible st1 = true ∧ tooltip_visible st2 = false ∧
    scatter_edgecolors st2 !! 1%nat = Some "black" ∧
    scatter_linewidths st2 !! 1%nat = Some 2%Q ∧
    edgecolors st2 !! 1%nat = Some "white".
Proof.
  intros ev_out.
  assert (Hlen : (1 < length (data bubble3))%nat) by (vm_compute; lia).
  assert (Hn : 1%nat ∉ selected_indices bubble3) by (cbn; set_solver).
  assert (Hp : BubbleView.scores_print bubble3).
  { repeat (apply Forall_cons; split); try apply Forall_nil; vm_compute; reflexivity. }
  split; [apply BubbleChartFacts.init_consistent |]. split; [exact Hp |].
  split; [reflexivity |]. split; [reflexivity |]. split; [exact Hlen |].
  split; [exact Hn |]. split; [reflexivity |].
  exact (highlight_survives_leaving_axes bubble3 (pointer_on 1) ev_out 1
           (BubbleChartFacts.init_consistent _) Hp eq_refl eq_refl Hlen Hn eq_refl).
Defined.

End BubbleChartMore.

(** ** More on the map's labels *)
Module MapChartMore.
Import Spec Examples MapChart.

Lemma update_label_forgets (b b' : Box) (l l1 : Text * geometry) :
  update_label b l = Some l1 → update_label b' l1 = update_label b' l.
Proof.
  destruct l as [t g]. unfold update_label.
  destruct g as [p | geoms |].
  - intros [= <-]. reflexivity.
  - destruct (largest_polygon geoms) as [p |] eqn:E; cbn; [| discriminate].
    intros [= <-]. rewrite E. reflexivity.
  - intros [= <-]. reflexivity.
Qed.

(** X9: the visibility of the labels has no memory.  Recomputing it for
    a viewport on labels that an earlier recomputation, for any other
    viewport, has left gives what recomputing it on the original labels
    gives: only the current limits count, not the pans and zooms before. *)
Theorem update_labels_forgets (xlim ylim xlim' ylim' : Q * Q)
    (labels labels1 : list (Text * geometry)) :
  update_labels xlim ylim labels = Some labels1 →
  update_labels xlim' ylim' labels1 = update_labels xlim' ylim' labels.
Proof.
  unfold update_labels. revert labels1.
  induction labels as [| l labels IH]; intros labels1; cbn.
  { intros [= <-]. reflexivity. }
  destruct (update_label _ l) as [l1 |] eqn:El; cbn; [| discriminate].
  destruct (mapM _ labels) as [ls |] eqn:Em; cbn; [| discriminate].
  intros [= <-]. cbn.
  rewrite (update_label_forgets _ _ _ _ El). by rewrite (IH ls eq_refl).
Qed.

Lemma update_labels_forgets_witness :
  ∃ labels1,
    update_labels (20, 30)%Q (20, 30)%Q [island_label] = Some labels1 ∧
    update_labels (-10, 10)%Q (-10, 10)%Q labels1
      = update_labels (-10, 10)%Q (-10, 10)%Q [island_label].
Proof.
  eexists. split; [vm_compute; reflexivity |].
  apply (update_labels_forgets (20, 30)%Q (20, 30)%Q (-10, 10)%Q (-10, 10)%Q
           [island_label]).
  vm_compute. reflexivity.
Defined.

Lemma contains_degenerate (xlim ylim p : Q * Q) :
  (xlim.1 == xlim.2 ∨ ylim.1 == ylim.2)%Q →
  contains (box xlim.1 ylim.1 xlim.2 ylim.2) p = false.
Proof.
  intros Hdeg. destruct (contains _ p) eqn:E; [| done].
  apply MapChartFacts.contains_iff in E. destruct E as (H1 & H2 & H3 & H4).
  exfalso. destruct Hdeg as [Hx | Hy].
  - pose proof (Q.le_max_l xlim.1 xlim.2). pose proof (Q.le_min_l xlim.1 xlim.2).
    pose proof (Q.max_lub xlim.1 xlim.2 xlim.1). pose proof (Q.min_glb xlim.1 xlim.2 xlim.1).
    assert (Qmax xlim.1 xlim.2 <= xlim.1)%Q by (apply Q.max_lub; lra).
    assert (xlim.1 <= Qmin xlim.1 xlim.2)%Q by (apply Q.min_glb; lra).
    lra.
  - assert (Qmax ylim.1 ylim.2 <= ylim.1)%Q by (apply Q.max_lub; lra).
    assert (ylim.1 <= Qmin ylim.1 ylim.2)%Q by (apply Q.min_glb; lra).
    lra.
Qed.

(** X10: in a viewport of zero width or zero height [update_labels]
    hides every label, whatever the territories are. *)
Theorem degenerate_viewport_hides_labels (xlim ylim : Q * Q)
    (labels labels' : list (Text * geometry)) :
  (xlim.1 == xlim.2 ∨ ylim.1 == ylim.2)%Q →
  update_labels xlim ylim labels = Some labels' →
  Forall (λ l : Text * geometry, visible l.1 = false) labels'.
Proof.
  intros Hdeg. unfold update_labels. revert labels'.
  induction labels as [| l labels IH]; intros labels'; cbn.
  { intros [= <-]. constructor. }
  destruct (update_label _ l) as [l1 |] eqn:El; cbn; [| discriminate].
  destruct (mapM _ labels) as [ls |] eqn:Em; cbn; [| discriminate].
  intros [= <-]. constructor; [| by apply IH].
  destruct l as [t g]. unfold update_label in El. destruct g as [p | geoms |].
  - injection El as <-. cbn. by rewrite contains_degenerate.
  - destruct (largest_polygon geoms) as [p |]; cbn in El; [| discriminate].
    injection El as <-. cbn. by rewrite contains_degenerate.
  - injection El as <-. done.
Qed.

Lemma degenerate_viewport_hides_labels_witness :
  ((3, 3)%Q.1 == (3, 3)%Q.2 ∨ (-10, 10)%Q.1 == (-10, 10)%Q.2)%Q ∧
  ∃ labels',
    update_labels (3, 3)%Q (-10, 10)%Q [island_label] = Some labels' ∧
    Forall (λ l : Text * geometry, visible l.1 = false) labels'.
Proof.
  assert (H : ((3, 3)%Q.1 == (3, 3)%Q.2 ∨ (-10, 10)%Q.1 == (-10, 10)%Q.2)%Q)
    by (left; reflexivity).
  split; [exact H |].
  eexists. split; [vm_compute; reflexivity |].
  apply (degenerate_viewport_hides_labels (3, 3)%Q (-10, 10)%Q [island_label] _ H).
  vm_compute. reflexivity.
Defined.

End MapChartMore.

(** ** More on the size legends *)
Module LegendMore.
Import Spec Examples Legend.

Lemma series_min_le_max (size_data : list Q) (lo hi : Q) :
  series_min size_data = Some lo → series_max size_data = Some hi → (lo <= hi)%Q.
Proof.
  intros Hmin Hmax.
  destruct (LegendFacts.series_min_spec _ _ Hmin) as [Hin Hlo].
  destruct (LegendFacts.series_max_spec _ _ Hmax) as [_ Hhi].
  eapply Qle_trans; [apply Hlo, Hin | apply Hhi; apply Hin].
  Unshelve. all: exact Hin.
Qed.

(** X11: both legend functions always produce three markers, and the
    marker areas are numbers exactly when the size column is not constant:
    for an empty column, or one whose least and greatest values agree,
    every marker area is NaN. *)
Theorem legend_markers_nan_iff_constant (size_data : list Q) (scale_factor : Z) :
  length (add_dynamic_size_legend size_data scale_factor) = 3%nat ∧
  length (add_size_legend size_data scale_factor) = 3%nat ∧
  (non_constant size_data →
     Forall (λ h, is_Some (marker h)) (add_dynamic_size_legend size_data scale_factor) ∧
     Forall (λ m : Q * float, is_Some m.2) (add_size_legend size_data scale_factor)) ∧
  (¬ non_constant size_data →
     Forall (λ h, marker h = None) (add_dynamic_size_legend size_data scale_factor) ∧
     Forall (λ m : Q * float, m.2 = None) (add_size_legend size_data scale_factor)).
Proof.
  unfold add_dynamic_size_legend, add_size_legend, size_markers, size_values,
    non_constant.
  destruct (series_min size_data) as [lo |] eqn:Hmin.
  2: { split; [by destruct (series_max size_data) |].
       split; [by destruct (series_max size_data) |]. split.
       - intros (? & ? & [=] & _).
       - intros _. destruct (series_max size_data); cbn;
           split; repeat constructor. }
  destruct (series_max size_data) as [hi |] eqn:Hmax.
  2: { split; [done |]. split; [done |]. split.
       - intros (? & ? & _ & [=] & _).
       - intros _. cbn. split; repeat constructor. }
  pose proof (series_min_le_max _ _ _ Hmin Hmax) as Hle.
  cbn [linspace3 fmap list_fmap zip zip_with imap fst snd length].
  split; [done |]. split; [done |].
  unfold size_marker.
  destruct (Qeq_bool (hi - lo) 0) eqn:E.
  - apply Qeq_bool_iff in E. split.
    + intros (lo' & hi' & [= <-] & [= <-] & Hlt). lra.
    + intros _. split; repeat constructor.
  - split.
    + intros _. split; repeat constructor; cbn; eauto.
    + intros Hn. exfalso. apply Hn. exists lo, hi. repeat split.
      apply Qeq_bool_neq in E. lra.
Qed.

End LegendMore.

(** ** Marker areas *)
Module SizesFacts.
Import Pandas Spec Examples Sizes.

Lemma normalized_bounds (lo hi v : Q) :
  (lo < hi)%Q → (lo <= v)%Q → (v <= hi)%Q →
  (0 <= (v - lo) / (hi - lo) ∧ (v - lo) / (hi - lo) <= 1)%Q.
Proof.
  intros Hlt Hlo Hhi. split.
  - apply Qle_shift_div_l; lra.
  - apply Qle_shift_div_r; lra.
Qed.

Lemma normalized_mono (lo hi v w : Q) :
  (lo < hi)%Q → (v <= w)%Q →
  ((v - lo) / (hi - lo) <= (w - lo) / (hi - lo))%Q.
Proof.
  intros Hlt Hvw. unfold Qdiv. apply Qmult_le_compat_r; [lra |].
  apply Qinv_le_0_compat. lra.
Qed.

Lemma hundred_over_fifty : (100 / 50 == 2)%Q.
Proof. reflexivity. Qed.

Lemma normalized_lo (lo hi : Q) : (lo < hi)%Q → ((lo - lo) / (hi - lo) == 0)%Q.
Proof. intros. field. lra. Qed.

Lemma normalized_hi (lo hi : Q) : (lo < hi)%Q → ((hi - lo) / (hi - lo) == 1)%Q.
Proof. intros. field. lra. Qed.

Lemma Qle_bool_false_lt (a b : Q) : Qle_bool a b = false → (b < a)%Q.
Proof. intros E. apply Qnot_le_lt. rewrite <- Qle_bool_iff. congruence. Qed.

Lemma clip_lower_mono (lower v w : Q) :
  (v <= w)%Q → (clip_lower lower v <= clip_lower lower w)%Q.
Proof.
  unfold clip_lower. intros Hvw.
  destruct (Qle_bool lower v) eqn:Ev;
    [apply Qle_bool_iff in Ev | apply Qle_bool_false_lt in Ev];
    (destruct (Qle_bool lower w) eqn:Ew;
       [apply Qle_bool_iff in Ew | apply Qle_bool_false_lt in Ew]); lra.
Qed.

Lemma Qeq_bool_diff (lo hi : Q) : (lo < hi)%Q → Qeq_bool (hi - lo) 0 = false.
Proof.
  intros Hlt. destruct (Qeq_bool (hi - lo) 0) eqn:E; [| done].
  apply Qeq_bool_iff in E. lra.
Qed.

(** X12: in the bubble view, when the clipped population column is not
    constant, every bubble has a marker area between 100 and 2000; a row
    with a larger population never has a smaller area; some row, one of
    least clipped population, has area 100 and some row, one of greatest
    population, has area 2000. *)
Theorem bubble_sizes_bounded (pop_est : list Q) :
  Legend.non_constant (clip_lower 0 <$> pop_est) →
  length (update_data_sizes pop_est) = length pop_est ∧
  (∀ i v, pop_est !! i = Some v →
     ∃ s, update_data_sizes pop_est !! i = Some (Some s) ∧
          (100 <= s ∧ s <= 2000)%Q) ∧
  (∀ i j vi vj si sj,
     pop_est !! i = Some vi → pop_est !! j = Some vj →
     update_data_sizes pop_est !! i = Some (Some si) →
     update_data_sizes pop_est !! j = Some (Some sj) →
     (vi <= vj)%Q → (si <= sj)%Q) ∧
  (∃ i s, update_data_sizes pop_est !! i = Some (Some s) ∧ (s == 100)%Q) ∧
  (∃ i s, update_data_sizes pop_est !! i = Some (Some s) ∧ (s == 2000)%Q).
Proof.
  intros (lo & hi & Hmin & Hmax & Hlt).
  destruct (LegendFacts.series_min_spec _ _ Hmin) as [Hlo_in Hlo].
  destruct (LegendFacts.series_max_spec _ _ Hmax) as [Hhi_in Hhi].
  assert (Hat : ∀ i v, pop_est !! i = Some v →
            update_data_sizes pop_est !! i
            = Some (Some ((50 + ((clip_lower 0 v - lo) / (hi - lo)) * 950)
                            * (100 / 50))%Q)).
  { intros i v Hv. unfold update_data_sizes.
    rewrite Hmin, Hmax, (Qeq_bool_diff lo hi Hlt).
    by rewrite !list_lookup_fmap, Hv. }
  assert (Hclip : ∀ i v, pop_est !! i = Some v →
            (lo <= clip_lower 0 v ∧ clip_lower 0 v <= hi)%Q).
  { intros i v Hv.
    assert (clip_lower 0 v ∈ clip_lower 0 <$> pop_est).
    { apply list_elem_of_fmap. exists v. split; [done |].
      by eapply list_elem_of_lookup_2. }
    auto. }
  split; [unfold update_data_sizes; by rewrite !length_fmap |].
  split; [| split; [| split]].
  - intros i v Hv. eexists. split; [by apply Hat |].
    destruct (Hclip i v Hv) as [H1 H2].
    pose proof (normalized_bounds lo hi _ Hlt H1 H2) as Hn.
    set (n := ((clip_lower 0 v - lo) / (hi - lo))%Q) in *. clearbody n.
    rewrite hundred_over_fifty. lra.
  - intros i j vi vj si sj Hi Hj Hsi Hsj Hle.
    rewrite (Hat i vi Hi) in Hsi. rewrite (Hat j vj Hj) in Hsj.
    injection Hsi as <-. injection Hsj as <-.
    pose proof (normalized_mono lo hi _ _ Hlt (clip_lower_mono 0 vi vj Hle)) as Hn.
    set (n := ((clip_lower 0 vi - lo) / (hi - lo))%Q) in *.
    set (m := ((clip_lower 0 vj - lo) / (hi - lo))%Q) in *. clearbody n m.
    rewrite hundred_over_fifty. lra.
  - apply list_elem_of_fmap in Hlo_in as (v & Hv & Hin).
    apply list_elem_of_lookup in Hin as [i Hi].
    exists i. eexists. split; [by apply Hat |].
    rewrite <- Hv. rewrite (normalized_lo lo hi Hlt). reflexivity.
  - apply list_elem_of_fmap in Hhi_in as (v & Hv & Hin).
    apply list_elem_of_lookup in Hin as [i Hi].
    exists i. eexists. split; [by apply Hat |].
    rewrite <- Hv. rewrite (normalized_hi lo hi Hlt). reflexivity.
Qed.

Lemma bubble_sizes_bounded_witness :
  Legend.non_constant (clip_lower 0 <$> [-99; 1000; 3000]%Q) ∧
  length (update_data_sizes [-99; 1000; 3000]%Q) = length [-99; 1000; 3000]%Q ∧
  (∀ i v, [-99; 1000; 3000]%Q !! i = Some v →
     ∃ s, update_data_sizes [-99; 1000; 3000]%Q !! i = Some (Some s) ∧
          (100 <= s ∧ s <= 2000)%Q) ∧
  (∀ i j vi vj si sj,
     [-99; 1000; 3000]%Q !! i = Some vi → [-99; 1000; 3000]%Q !! j = Some vj →
     update_data_sizes [-99; 1000; 3000]%Q !! i = Some (Some si) →
     update_data_sizes [-99; 1000; 3000]%Q !! j = Some (Some sj) →
     (vi <= vj)%Q → (si <= sj)%Q) ∧
  (∃ i s, update_data_sizes [-99; 1000; 3000]%Q !! i = Some (Some s) ∧ (s == 100)%Q) ∧
  (∃ i s, update_data_sizes [-99; 1000; 3000]%Q !! i = Some (Some s) ∧ (s == 2000)%Q).
Proof.
  assert (H : Legend.non_constant (clip_lower 0 <$> [-99; 1000; 3000]%Q))
    by (exists 0%Q, 3000%Q; repeat split).
  split; [exact H | exact (bubble_sizes_bounded _ H)].
Defined.

Lemma inject_Z_nonneg (s : Z) : (0 <= s)%Z → (0 <= inject_Z s)%Q.
Proof. intros H. change 0%Q with (inject_Z 0). by rewrite <- Zle_Qle. Qed.

Lemma elem_of_dropnan (size : list Legend.float) (q : Q) :
  q ∈ dropnan size ↔ Some q ∈ size.
Proof.
  unfold dropnan. rewrite list_elem_of_omap. split.
  - intros (x & Hin & Hx). cbn in Hx. by subst.
  - intros Hin. exists (Some q). done.
Qed.

(** X13: in the linked view, for a scale factor that is not negative
    and a size column whose numbers are not all equal, with [lo] the least
    and [hi] the greatest number of the column: [scale] gives NaN to
    exactly the rows whose cell is null or text, and to every other row an
    area between 50 and 50 + 19 * scale, which is 50 for the rows of value
    [lo], whatever the scale factor is, and 50 + 19 * scale for the rows of
    value [hi]; a row with a larger value never has a smaller area; and the
    column has a row of value [lo] and a row of value [hi]. *)
Theorem linked_sizes_bounded (size_column : list (option value)) (s : Z) :
  (0 <= s)%Z →
  Legend.non_constant (dropnan (to_float <$> size_column)) →
  ∃ lo hi,
    Legend.series_min (dropnan (to_float <$> size_column)) = Some lo ∧
    Legend.series_max (dropnan (to_float <$> size_column)) = Some hi ∧
    length (scale size_column s) = length size_column ∧
    (∀ i c, size_column !! i = Some c → to_float c = None →
       scale size_column s !! i = Some None) ∧
    (∀ i c v, size_column !! i = Some c → to_float c = Some v →
       ∃ z, scale size_column s !! i = Some (Some z) ∧
            (50 <= z ∧ z <= 50 + 19 * inject_Z s)%Q ∧
            ((v == lo)%Q → (z == 50)%Q) ∧
            ((v == hi)%Q → (z == 50 + 19 * inject_Z s)%Q)) ∧
    (∀ i j ci cj vi vj zi zj,
       size_column !! i = Some ci → to_float ci = Some vi →
       size_column !! j = Some cj → to_float cj = Some vj →
       scale size_column s !! i = Some (Some zi) →
       scale size_column s !! j = Some (Some zj) →
       (vi <= vj)%Q → (zi <= zj)%Q) ∧
    (∃ i c, size_column !! i = Some c ∧ to_float c = Some lo) ∧
    (∃ i c, size_column !! i = Some c ∧ to_float c = Some hi).
Proof.
  intros Hs (lo & hi & Hmin & Hmax & Hlt).
  apply inject_Z_nonneg in Hs.
  destruct (LegendFacts.series_min_spec _ _ Hmin) as [Hlo_in Hlo].
  destruct (LegendFacts.series_max_spec _ _ Hmax) as [Hhi_in Hhi].
  assert (Hne : ¬ (hi - lo == 0)%Q) by lra.
  assert (Hat : ∀ i c v, size_column !! i = Some c → to_float c = Some v →
            scale size_column s !! i
            = Some (Some (50 + ((v - lo) / (hi - lo)) * (1000 - 50)
                               * inject_Z s / 50)%Q)).
  { intros i c v Hc Hv. unfold scale.
    rewrite Hmin, Hmax, (Qeq_bool_diff lo hi Hlt).
    by rewrite !list_lookup_fmap, Hc; cbn; rewrite Hv. }
  assert (Hin : ∀ i c v, size_column !! i = Some c → to_float c = Some v →
            (lo <= v ∧ v <= hi)%Q).
  { intros i c v Hc Hv.
    assert (v ∈ dropnan (to_float <$> size_column)).
    { apply elem_of_dropnan, list_elem_of_fmap. exists c. split; [done |].
      by eapply list_elem_of_lookup_2. }
    auto. }
  assert (Hback : ∀ v, v ∈ dropnan (to_float <$> size_column) →
            ∃ i c, size_column !! i = Some c ∧ to_float c = Some v).
  { intros v Hv. apply elem_of_dropnan, list_elem_of_fmap in Hv as (c & Hc & Hcin).
    apply list_elem_of_lookup in Hcin as [i Hi]. eauto. }
  assert (Hz : ∀ n : Q, (50 + n * (1000 - 50) * inject_Z s / 50
                         == 50 + 19 * (n * inject_Z s))%Q) by (intros; field).
  exists lo, hi. split; [done |]. split; [done |].
  split; [unfold scale; by rewrite !length_fmap |].
  split; [| split; [| split; [| split]]].
  - intros i c Hc Hv. unfold scale.
    by rewrite !list_lookup_fmap, Hc; cbn; rewrite Hv.
  - intros i c v Hc Hv. eexists. split; [by eapply Hat |].
    destruct (Hin i c v Hc Hv) as [H1 H2].
    split; [| split].
    + pose proof (normalized_bounds lo hi v Hlt H1 H2) as [Hn0 Hn1].
      rewrite Hz. set (n := ((v - lo) / (hi - lo))%Q) in *. clearbody n.
      pose proof (Qmult_le_0_compat _ _ Hn0 Hs).
      pose proof (Qmult_le_compat_r _ _ _ Hn1 Hs).
      set (p := (n * inject_Z s)%Q) in *. clearbody p. lra.
    + intros Hv'. rewrite Hv'. field. exact Hne.
    + intros Hv'. rewrite Hv'. field. exact Hne.
  - intros i j ci cj vi vj zi zj Hi Hvi Hj Hvj Hzi Hzj Hle.
    rewrite (Hat i ci vi Hi Hvi) in Hzi. rewrite (Hat j cj vj Hj Hvj) in Hzj.
    injection Hzi as <-. injection Hzj as <-. rewrite !Hz.
    pose proof (normalized_mono lo hi vi vj Hlt Hle) as Hn.
    pose proof (Qmult_le_compat_r _ _ _ Hn Hs).
    set (p := ((vi - lo) / (hi - lo) * inject_Z s)%Q) in *.
    set (q := ((vj - lo) / (hi - lo) * inject_Z s)%Q) in *.
    clearbody p q. lra.
  - exact (Hback lo Hlo_in).
  - exact (Hback hi Hhi_in).
Qed.

Lemma linked_sizes_bounded_witness :
  let col := [Some (Num 1); Some (Text "n/a"); Some (Num 5); None] in
  (0 <= 100)%Z ∧
  Legend.non_constant (dropnan (to_float <$> col)) ∧
  ∃ lo hi,
    Legend.series_min (dropnan (to_float <$> col)) = Some lo ∧
    Legend.series_max (dropnan (to_float <$> col)) = Some hi ∧
    length (scale col 100) = length col ∧
    (∀ i c, col !! i = Some c → to_float c = None →
       scale col 100 !! i = Some None) ∧
    (∀ i c v, col !! i = Some c → to_float c = Some v →
       ∃ z, scale col 100 !! i = Some (Some z) ∧
            (50 <= z ∧ z <= 50 + 19 * inject_Z 100)%Q ∧
            ((v == lo)%Q → (z == 50)%Q) ∧
            ((v == hi)%Q → (z == 50 + 19 * inject_Z 100)%Q)) ∧
    (∀ i j ci cj vi vj zi zj,
       col !! i = Some ci → to_float ci = Some vi →
       col !! j = Some cj → to_float cj = Some vj →
       scale col 100 !! i = Some (Some zi) →
       scale col 100 !! j = Some (Some zj) →
       (vi <= vj)%Q → (zi <= zj)%Q) ∧
    (∃ i c, col !! i = Some c ∧ to_float c = Some lo) ∧
    (∃ i c, col !! i = Some c ∧ to_float c = Some hi).
Proof.
  intros col.
  assert (H1 : (0 <= 100)%Z) by lia.
  assert (H2 : Legend.non_constant (dropnan (to_float <$> col)))
    by (exists 1%Q, 5%Q; repeat split).
  split; [exact H1 |]. split; [exact H2 |].
  exact (linked_sizes_bounded col 100 H1 H2).
Defined.

Lemma legend_size_data_nonnegative (size_column : list (option value)) :
  nonnegative_numbers size_column →
  legend_size_data size_column = dropnan (to_float <$> size_column).
Proof.
  unfold nonnegative_numbers, legend_size_data, dropnan.
  induction 1 as [| c l (q & -> & Hq) _ IH]; [done |].
  cbn. rewrite IH. f_equal. unfold clip_lower.
  apply Qle_bool_iff in Hq. by rewrite Hq.
Qed.

(** X14: in the linked view the size legend does not show the areas of
    the points.  For a size column of numbers that are not negative and not
    all equal, the legend's smallest marker has area [scale] and its largest
    20 * [scale], while the rows of least value are drawn with area 50 and
    the rows of greatest value with area 50 + 19 * [scale]: every marker is
    [scale - 50] larger than the points it stands for, so legend and points
    agree only at the slider's initial value 50. *)
Theorem legend_disagrees_with_points (size_column : list (option value)) (s : Z) :
  nonnegative_numbers size_column →
  Legend.non_constant (legend_size_data size_column) →
  ∃ lo hi m0 m1 m2,
    Legend.series_min (legend_size_data size_column) = Some lo ∧
    Legend.series_max (legend_size_data size_column) = Some hi ∧
    Legend.marker <$> Legend.add_dynamic_size_legend (legend_size_data size_column) s
      = [Some m0; Some m1; Some m2] ∧
    (m0 == inject_Z s ∧ m2 == 20 * inject_Z s)%Q ∧
    (∀ i v, size_column !! i = Some (Some (Num v)) → (v == lo)%Q →
       ∃ z, scale size_column s !! i = Some (Some z) ∧
            (z == 50 ∧ m0 - z == inject_Z s - 50)%Q) ∧
    (∀ i v, size_column !! i = Some (Some (Num v)) → (v == hi)%Q →
       ∃ z, scale size_column s !! i = Some (Some z) ∧
            (z == 50 + 19 * inject_Z s ∧ m2 - z == inject_Z s - 50)%Q).
Proof.
  intros Hnn (lo & hi & Hmin & Hmax & Hlt).
  assert (Hne : ¬ (hi - lo == 0)%Q) by lra.
  exists lo, hi. eexists _, _, _.
  split; [done |]. split; [done |].
  unfold Legend.add_dynamic_size_legend, Legend.size_markers, Legend.size_values.
  rewrite Hmin, Hmax.
  cbn [Legend.linspace3 fmap list_fmap zip zip_with fst snd Legend.marker].
  rewrite !LegendFacts.size_marker_Some by done.
  split; [reflexivity |].
  split; [split; field; exact Hne |].
  assert (Hat : ∀ i v, size_column !! i = Some (Some (Num v)) →
            scale size_column s !! i
            = Some (Some (50 + ((v - lo) / (hi - lo)) * (1000 - 50)
                               * inject_Z s / 50)%Q)).
  { intros i v Hc. unfold scale.
    rewrite <- (legend_size_data_nonnegative _ Hnn), Hmin, Hmax,
      (Qeq_bool_diff lo hi Hlt).
    by rewrite !list_lookup_fmap, Hc. }
  split.
  - intros i v Hc Hv. eexists. split; [by apply Hat |].
    rewrite Hv. split; field; exact Hne.
  - intros i v Hc Hv. eexists. split; [by apply Hat |].
    rewrite Hv. split; field; exact Hne.
Qed.

Lemma legend_disagrees_with_points_witness :
  let col := [Some (Num 1); Some (Num 5)] in
  nonnegative_numbers col ∧
  Legend.non_constant (legend_size_data col) ∧
  ∃ lo hi m0 m1 m2,
    Legend.series_min (legend_size_data col) = Some lo ∧
    Legend.series_max (legend_size_data col) = Some hi ∧
    Legend.marker <$> Legend.add_dynamic_size_legend (legend_size_data col) 100
      = [Some m0; Some m1; Some m2] ∧
    (m0 == inject_Z 100 ∧ m2 == 20 * inject_Z 100)%Q ∧
    (∀ i v, col !! i = Some (Some (Num v)) → (v == lo)%Q →
       ∃ z, scale col 100 !! i = Some (Some z) ∧
            (z == 50 ∧ m0 - z == inject_Z 100 - 50)%Q) ∧
    (∀ i v, col !! i = Some (Some (Num v)) → (v == hi)%Q →
       ∃ z, scale col 100 !! i = Some (Some z) ∧
            (z == 50 + 19 * inject_Z 100 ∧ m2 - z == inject_Z 100 - 50)%Q).
Proof.
  intros col.
  assert (H1 : nonnegative_numbers col).
  { repeat constructor; eexists; (split; [reflexivity | by vm_compute]). }
  assert (H2 : Legend.non_constant (legend_size_data col))
    by (exists 1%Q, 5%Q; repeat split).
  split; [exact H1 |]. split; [exact H2 |].
  exact (legend_disagrees_with_points col 100 H1 H2).
Defined.

End SizesFacts.

(** ** Loading and joining *)
Module LoaderFacts.
Import Pandas Spec Examples Loader.

Lemma dict_of_snoc {A} (kvs : list (string * A)) (k : string) (v : A) :
  dict_of (kvs ++ [(k, v)]) = <[k := v]> (dict_of kvs).
Proof. unfold dict_of. by rewrite foldl_app. Qed.

(** A key is in the dict exactly when some pair has it. *)
Lemma dict_of_None {A} (kvs : list (string * A)) (k : string) :
  dict_of kvs !! k = None ↔ k ∉ kvs.*1.
Proof.
  induction kvs as [| [k' v'] kvs IH] using rev_ind.
  { cbn. rewrite lookup_empty. set_solver. }
  rewrite dict_of_snoc, fmap_app. cbn.
  destruct (decide (k' = k)) as [-> | Hne].
  - rewrite lookup_insert_eq. set_solver.
  - rewrite lookup_insert_ne by done. rewrite IH. set_solver.
Qed.

(** The last pair with a key decides its value. *)
Lemma dict_of_last {A} (l1 l2 : list (string * A)) (k : string) (v : A) :
  k ∉ l2.*1 → dict_of (l1 ++ (k, v) :: l2) !! k = Some v.
Proof.
  induction l2 as [| [k' v'] l2 IH] using rev_ind; intros Hk.
  { by rewrite dict_of_snoc, lookup_insert_eq. }
  rewrite fmap_app in Hk. cbn in Hk.
  replace (l1 ++ (k, v) :: l2 ++ [(k', v')])
    with ((l1 ++ (k, v) :: l2) ++ [(k', v')]) by (by rewrite <- app_assoc).
  rewrite dict_of_snoc, lookup_insert_ne by set_solver.
  apply IH. set_solver.
Qed.

Lemma lookup_assign (a : string) (f : row → option value) (df : frame)
    (i : nat) :
  assign a f df !! i = (λ r : row, partial_alter (λ _, f r) a r) <$> df !! i.
Proof. unfold assign. by rewrite list_lookup_fmap. Qed.

(** The [Country code] cell of a row after [add_country_code]. *)
Lemma country_code_cell (countries : list (string * string)) (df : frame)
    (i : nat) (r : row) :
  df !! i = Some r →
  ∃ r', add_country_code countries df !! i = Some r' ∧
    (∀ a, a ≠ "Country code" → r' !! a = r !! a) ∧
    r' !! "Country code" =
      match r !! "Country name" with
      | Some (Text name) => Text <$> resolve countries name
      | _ => None
      end.
Proof.
  intros Hr. unfold add_country_code.
  rewrite !lookup_assign, Hr. cbn. eexists. split; [reflexivity |]. split.
  - intros a Hne. by rewrite !lookup_partial_alter_ne.
  - rewrite !lookup_partial_alter_eq, lookup_partial_alter_ne by done.
    unfold resolve, map_dict, fillna.
    destruct (r !! "Country name") as [[q | name] |]; try done.
    rewrite !lookup_fmap.
    by destruct (dict_of countries !! name).
Qed.

(** X15: the country-code join.  For a row whose [Country name] is the
    text [name]: when pycountry knows the name, the row gets pycountry's
    code, whatever the alias table says; when it does not, each of the 17
    names of the alias table still resolves to a code, the one listed; a
    name in neither gets a null code, as does a row without a name.  No
    other column of the row changes. *)
Theorem country_code_join (countries : list (string * string)) (df : frame)
    (i : nat) (r : row) (name : string) :
  df !! i = Some r → r !! "Country name" = Some (Text name) →
  ∃ r', add_country_code countries df !! i = Some r' ∧
    (∀ a, a ≠ "Country code" → r' !! a = r !! a) ∧
    (∀ c, dict_of countries !! name = Some c →
          r' !! "Country code" = Some (Text c)) ∧
    (name ∈ manual_mapping.*1 → is_Some (r' !! "Country code")) ∧
    (∀ c, name ∉ countries.*1 → (name, c) ∈ manual_mapping →
          r' !! "Country code" = Some (Text c)) ∧
    (name ∉ countries.*1 → name ∉ manual_mapping.*1 →
          r' !! "Country code" = None).
Proof.
  intros Hr Hname.
  destruct (country_code_cell countries df i r Hr) as (r' & Hr' & Hother & Hcode).
  rewrite Hname in Hcode. unfold resolve in Hcode.
  exists r'. split; [done |]. split; [done |]. split; [| split; [| split]].
  - intros c Hc. by rewrite Hcode, Hc.
  - intros Hin. rewrite Hcode.
    destruct (dict_of countries !! name); [cbn; eauto |].
    destruct (dict_of manual_mapping !! name) eqn:E; [cbn; eauto |].
    by apply dict_of_None in E.
  - intros c Hnc Hin. rewrite Hcode.
    apply dict_of_None in Hnc. rewrite Hnc.
    repeat (apply elem_of_cons in Hin as [[= -> ->] | Hin]; [reflexivity |]).
    by apply not_elem_of_nil in Hin.
  - intros Hnc Hnm. rewrite Hcode.
    apply dict_of_None in Hnc, Hnm. by rewrite Hnc, Hnm.
Qed.

Lemma country_code_join_witness :
  let df := [ {[ "Country name" := Text "Kosovo" ]} ] : frame in
  df !! 0%nat = Some {[ "Country name" := Text "Kosovo" ]} ∧
  ({[ "Country name" := Text "Kosovo" ]} : row) !! "Country name"
    = Some (Text "Kosovo") ∧
  ∃ r', add_country_code [("Finland", "FIN")] df !! 0%nat = Some r' ∧
    (∀ a, a ≠ "Country code" →
          r' !! a = ({[ "Country name" := Text "Kosovo" ]} : row) !! a) ∧
    (∀ c, dict_of [("Finland", "FIN")] !! "Kosovo" = Some c →
          r' !! "Country code" = Some (Text c)) ∧
    ("Kosovo" ∈ manual_mapping.*1 → is_Some (r' !! "Country code")) ∧
    (∀ c, "Kosovo" ∉ [("Finland", "FIN")].*1 → ("Kosovo", c) ∈ manual_mapping →
          r' !! "Country code" = Some (Text c)) ∧
    ("Kosovo" ∉ [("Finland", "FIN")].*1 → "Kosovo" ∉ manual_mapping.*1 →
          r' !! "Country code" = None).
Proof.
  intros df. split; [reflexivity |]. split; [reflexivity |].
  exact (country_code_join [("Finland", "FIN")] df 0
           {[ "Country name" := Text "Kosovo" ]} "Kosovo" eq_refl eq_refl).
Defined.

Lemma bubble_frame_rows (countries : list (string * string))
    (worldmap : list feature) (csv : frame) :
  bubble_frame countries worldmap csv = bubble_row countries worldmap <$> csv.
Proof.
  unfold bubble_frame, add_country_code, assign, drop_column.
  rewrite <- !list_fmap_compose. apply list_fmap_ext. intros _ r _.
  unfold compose.
  assert (Hcode :
    fillna
      (partial_alter
         (λ _, map_dict (Text <$> dict_of countries)
                 (delete "Ladder score in Dystopia" r !! "Country name"))
         "Country code" (delete "Ladder score in Dystopia" r) !! "Country code")
      (map_dict (Text <$> dict_of manual_mapping)
         (partial_alter
            (λ _, map_dict (Text <$> dict_of countries)
                    (delete "Ladder score in Dystopia" r !! "Country name"))
            "Country code" (delete "Ladder score in Dystopia" r) !! "Country name"))
    = code_cell countries r).
  { rewrite lookup_partial_alter_eq, lookup_partial_alter_ne by done.
    rewrite lookup_delete_ne by done.
    unfold code_cell, resolve, map_dict, fillna.
    destruct (r !! "Country name") as [[q | name] |]; try done.
    rewrite !lookup_fmap. by destruct (dict_of countries !! name). }
  unfold bubble_row. rewrite Hcode.
  rewrite lookup_partial_alter_eq.
  f_equal. apply map_eq. intros k. rewrite !lookup_partial_alter.
  repeat case_decide; done.
Qed.

Lemma bubble_row_other (countries : list (string * string))
    (worldmap : list feature) (r : row) (a : string) :
  a ≠ "pop_est" → a ≠ "Country code" → a ≠ "Ladder score in Dystopia" →
  bubble_row countries worldmap r !! a = r !! a.
Proof.
  intros H1 H2 H3. unfold bubble_row.
  by rewrite !lookup_partial_alter_ne, lookup_delete_ne.
Qed.

Lemma pop_est_mapping_None (worldmap : list feature) (code : string) :
  pop_est_mapping worldmap !! code = None ↔ code ∉ adm0_a3 <$> worldmap.
Proof.
  unfold pop_est_mapping. by rewrite dict_of_None, <- list_fmap_compose.
Qed.

(** X16: the frame of the bubble view.  The constructor keeps, in the
    order of the CSV file, exactly the rows with a GDP, a score, and a
    country name that resolves to a code the boundary file has; each kept
    row loses the Dystopia column, gains its code, and gains as [pop_est]
    the population of the last territory of the boundary file with that
    code, 0 when that population is null.  The edge-colour and line-width
    arrays have one entry per kept row, and nothing is selected. *)
Theorem bubble_chart_rows (countries : list (string * string))
    (worldmap : list feature) (csv : frame) :
  BubbleChart.data (bubble_chart countries worldmap csv)
    = bubble_row countries worldmap
        <$> filter (bubble_keeps countries worldmap) csv ∧
  (∀ r, is_Some (bubble_row countries worldmap r !! "pop_est") ↔
     ∃ name code f, r !! "Country name" = Some (Text name) ∧
       resolve countries name = Some code ∧
       f ∈ worldmap ∧ adm0_a3 f = code) ∧
  (∀ r name l1 f l2,
     r !! "Country name" = Some (Text name) →
     resolve countries name = Some (adm0_a3 f) →
     worldmap = l1 ++ f :: l2 → adm0_a3 f ∉ adm0_a3 <$> l2 →
     bubble_row countries worldmap r !! "pop_est"
       = Some (Num (default 0%Q (pop_est f)))) ∧
  length (BubbleChart.edgecolors (bubble_chart countries worldmap csv))
    = length (BubbleChart.data (bubble_chart countries worldmap csv)) ∧
  length (BubbleChart.linewidths (bubble_chart countries worldmap csv))
    = length (BubbleChart.data (bubble_chart countries worldmap csv)) ∧
  BubbleChart.selected_indices (bubble_chart countries worldmap csv) = ∅.
Proof.
  split; [| split; [| split]].
  - unfold bubble_chart, BubbleChart.init. cbn [BubbleChart.data].
    rewrite bubble_frame_rows. unfold dropna.
    induction csv as [| r csv IH]; [done |].
    rewrite fmap_cons, !filter_cons, IH.
    assert (Hiff :
      Forall (λ a, is_Some (bubble_row countries worldmap r !! a))
        ["Logged GDP per capita"; "Ladder score"; "pop_est"]
      ↔ bubble_keeps countries worldmap r).
    { unfold bubble_keeps. rewrite !Forall_cons, Forall_nil.
      rewrite !(bubble_row_other countries worldmap r) by done. tauto. }
    destruct (decide (Forall _ _)) as [H | H], (decide (bubble_keeps _ _ r)) as [K | K];
      try done; tauto.
  - intros r. unfold bubble_row. rewrite lookup_partial_alter_eq.
    unfold code_cell, map_dict.
    destruct (r !! "Country name") as [[q | name] |].
    + split; [intros [? [=]] | intros (? & ? & ? & [=] & _)].
    + destruct (resolve countries name) as [code |] eqn:E; cbn.
      * split.
        -- intros Hs. destruct (decide (code ∈ adm0_a3 <$> worldmap)) as [Hin | Hn].
           ++ apply list_elem_of_fmap in Hin as (f & -> & Hf). eauto 10.
           ++ apply pop_est_mapping_None in Hn. rewrite Hn in Hs.
              by destruct Hs.
        -- intros (name' & code' & f & [= <-] & Hres & Hf & Hcode).
           rewrite E in Hres. injection Hres as <-.
           apply not_eq_None_Some. rewrite pop_est_mapping_None.
           intros Hn. apply Hn, list_elem_of_fmap. eauto.
      * split; [intros [? [=]] |].
        intros (name' & code' & f & [= <-] & Hres & _). congruence.
    + split; [intros [? [=]] | intros (? & ? & ? & [=] & _)].
  - intros r name l1 f l2 Hname Hres -> Hlast.
    unfold bubble_row. rewrite lookup_partial_alter_eq.
    unfold code_cell. rewrite Hname, Hres. cbn.
    unfold pop_est_mapping. rewrite fmap_app, fmap_cons.
    apply dict_of_last. by rewrite <- list_fmap_compose.
  - unfold bubble_chart, BubbleChart.init. cbn.
    by rewrite !length_replicate.
Qed.

End LoaderFacts.

(** ** The map view *)
Module MapViewFacts.
Import Pandas Spec Examples MapView.

Lemma remove_highlight_one (self : t) :
  one_highlight self →
  ∃ self', remove_highlight self = Some self' ∧
    highlight_patch self' = None ∧ collections self' = [] ∧
    self' = set_highlight self None [] (next_id self).
Proof.
  unfold one_highlight, remove_highlight. intros Hone.
  destruct (highlight_patch self) as [h |] eqn:Eh; cbn in Hone.
  - rewrite Hone. rewrite bool_decide_eq_true_2 by set_solver.
    rewrite filter_cons_False by tauto. rewrite filter_nil.
    eexists. repeat split.
  - exists self. split; [done |]. split; [done |]. split; [done |].
    destruct self; cbn in *. by subst.
Qed.

Lemma highlight_country_one (self : t) (g : MapChart.geometry) :
  one_highlight self →
  ∃ self', highlight_country self g = Some self' ∧ one_highlight self' ∧
    highlight_patch self' = (λ ps, (next_id self, ps)) <$> outline g ∧
    worldmap self' = worldmap self ∧ data self' = data self ∧
    visible_labels self' = visible_labels self ∧
    is_zooming self' = is_zooming self ∧
    tooltip_visible self' = tooltip_visible self ∧
    tooltip_size self' = tooltip_size self ∧ tooltip_pos self' = tooltip_pos self.
Proof.
  intros Hone. unfold highlight_country.
  destruct (remove_highlight_one self Hone) as (s1 & Hr & Hh & Hc & ->).
  assert (Hs : match highlight_patch self with
               | Some _ => remove_highlight self
               | None => Some self
               end = Some (set_highlight self None [] (next_id self))).
  { destruct (highlight_patch self) eqn:E; [done |].
    unfold remove_highlight in Hr. by rewrite E in Hr. }
  rewrite Hs. cbn.
  destruct g; cbn; eexists; (split; [reflexivity |]); cbn; done.
Qed.

Lemma update_label_geometry (b : MapChart.Box) (l l' : MapChart.Text * MapChart.geometry) :
  MapChart.update_label b l = Some l' → l'.2 = l.2.
Proof.
  destruct l as [t g]. unfold MapChart.update_label.
  destruct g as [p | geoms |]; cbn.
  - by intros [= <-].
  - destruct (MapChart.largest_polygon geoms); cbn; [by intros [= <-] | discriminate].
  - by intros [= <-].
Qed.

(** [update_labels] returns on labels that have a point, and its result
    has the same geometries. *)
Lemma update_labels_points (xlim ylim : Q * Q)
    (labels : list (MapChart.Text * MapChart.geometry)) :
  Forall (λ l : MapChart.Text * MapChart.geometry,
            is_Some (MapChart.label_point l.2)) labels →
  ∃ labels', MapChart.update_labels xlim ylim labels = Some labels' ∧
    Forall (λ l : MapChart.Text * MapChart.geometry,
              is_Some (MapChart.label_point l.2)) labels'.
Proof.
  unfold MapChart.update_labels. induction 1 as [| [t g] labels [p Hp] _ IH].
  { exists []. done. }
  destruct IH as (ls & Hm & Hall). cbn [mapM].
  cbn [snd] in Hp.
  rewrite (MapChartFacts.update_label_point xlim ylim t g p Hp). cbn.
  rewrite Hm. cbn. eexists. split; [reflexivity |].
  constructor; [cbn; eauto | done].
Qed.

Lemma update_labels_again (xlim ylim xlim' ylim' : Q * Q)
    (labels labels1 : list (MapChart.Text * MapChart.geometry)) :
  MapChart.update_labels xlim ylim labels = Some labels1 →
  MapChart.update_labels xlim' ylim' labels1
  = MapChart.update_labels xlim' ylim' labels.
Proof.
  unfold MapChart.update_labels. revert labels1.
  induction labels as [| l labels IH]; intros labels1; cbn.
  { intros [= <-]. reflexivity. }
  destruct (MapChart.update_label _ l) as [l1 |] eqn:El; cbn; [| discriminate].
  destruct (mapM _ labels) as [ls |] eqn:Em; cbn; [| discriminate].
  intros [= <-]. cbn.
  rewrite (MapChartMore.update_label_forgets _ _ _ _ El). by rewrite (IH ls eq_refl).
Qed.

Section Shapely.
Variable contains_point : MapChart.geometry → Q * Q → bool.

Lemma first_hit_is_Some (pt : Q * Q) (rows : list Loader.feature) :
  Forall (λ f, is_Some (Loader.geometry f)) rows →
  is_Some (first_hit contains_point pt rows).
Proof.
  induction 1 as [| f rows [g Hg] _ IH]; [by eexists |].
  cbn. rewrite Hg. cbn. destruct (contains_point g pt); [by eexists | done].
Qed.

Lemma first_hit_miss (pt : Q * Q) (rows : list Loader.feature) :
  misses contains_point pt rows → Forall (λ f, is_Some (Loader.geometry f)) rows →
  first_hit contains_point pt rows = Some None.
Proof.
  unfold misses. induction 1 as [| f rows Hf _ IH]; [done |].
  intros Hall. apply Forall_cons in Hall as [[g Hg] Hall].
  cbn. rewrite Hg. cbn. rewrite (Hf g Hg). by apply IH.
Qed.

(** The loop stops at the first territory that contains the point. *)
Lemma first_hit_first (pt : Q * Q) (l1 l2 : list Loader.feature)
    (terr : Loader.feature) (g : MapChart.geometry) :
  Forall (λ f, is_Some (Loader.geometry f)) l1 → misses contains_point pt l1 →
  Loader.geometry terr = Some g → contains_point g pt = true →
  first_hit contains_point pt (l1 ++ terr :: l2) = Some (Some terr).
Proof.
  unfold misses. intros Hgeo Hmiss Hg Hc.
  induction Hgeo as [| f l1 [gf Hgf] _ IH]; cbn.
  - by rewrite Hg; cbn; rewrite Hc.
  - apply Forall_cons in Hmiss as [Hf Hmiss].
    rewrite Hgf. cbn. rewrite (Hf gf Hgf). by apply IH.
Qed.

Lemma first_hit_Some (pt : Q * Q) (rows : list Loader.feature)
    (terr : Loader.feature) :
  first_hit contains_point pt rows = Some (Some terr) →
  ∃ g, Loader.geometry terr = Some g ∧ contains_point g pt = true ∧ terr ∈ rows.
Proof.
  induction rows as [| f rows IH]; cbn; [discriminate |].
  destruct (Loader.geometry f) as [g |] eqn:Hg; cbn; [| discriminate].
  destruct (contains_point g pt) eqn:E.
  - intros [= <-]. exists g. repeat split; [done | done | set_solver].
  - intros H. destruct (IH H) as (g' & ? & ? & ?). exists g'. set_solver.
Qed.

Lemma details_printable (data : frame) (terr : Loader.feature) :
  Forall printable data → details data terr = Some ().
Proof.
  intros Hall. unfold details.
  destruct (find (matches terr) data) as [r |] eqn:Ef; [| done].
  apply find_some in Ef as [Hin _].
  rewrite Forall_forall in Hall. apply list_elem_of_In in Hin.
  by rewrite (Hall r Hin).
Qed.

(** One pointer motion, in full. *)
Lemma on_hover_one (self : t) (event : Event) :
  one_highlight self →
  Forall (λ f, is_Some (Loader.geometry f)) (worldmap self) →
  Forall printable (data self) →
  ∃ self', on_hover contains_point self event = Some self' ∧
    one_highlight self' ∧
    worldmap self' = worldmap self ∧ data self' = data self ∧
    visible_labels self' = visible_labels self ∧
    is_zooming self' = (zoom_mode event || is_zooming self) ∧
    (inaxes event = false ∨
     first_hit contains_point (xydata event) (worldmap self) = Some None →
       highlight_patch self' = None ∧ tooltip_visible self' = false) ∧
    (∀ terr g, inaxes event = true →
       first_hit contains_point (xydata event) (worldmap self) = Some (Some terr) →
       Loader.geometry terr = Some g →
       highlight_patch self' = (λ ps, (next_id self, ps)) <$> outline g ∧
       tooltip_visible self' = true ∧
       tooltip_size self' = Some (size_for self terr) ∧
       tooltip_pos self' =
         Tooltip.move
           {| Tooltip.mouse_x := (local_pos event).1;
              Tooltip.mouse_y := (local_pos event).2;
              Tooltip.tooltip_width := (size_for self terr).1;
              Tooltip.tooltip_height := (size_for self terr).2;
              Tooltip.window_width := (window event).1;
              Tooltip.window_height := (window event).2 |}).
Proof.
  intros Hone Hgeo Hfmt. unfold on_hover.
  assert (Hone0 : one_highlight (flagged self event))
    by (unfold flagged; by destruct (zoom_mode event)).
  assert (Hf : worldmap (flagged self event) = worldmap self ∧
               data (flagged self event) = data self ∧
               visible_labels (flagged self event) = visible_labels self ∧
               next_id (flagged self event) = next_id self ∧
               is_zooming (flagged self event) = (zoom_mode event || is_zooming self))
    by (unfold flagged; by destruct (zoom_mode event)).
  destruct Hf as (Hw & Hd & Hl & Hn & Hz).
  assert (Hmiss : ∃ self',
            remove_highlight (hide_tooltip (flagged self event)) = Some self' ∧
            one_highlight self' ∧ worldmap self' = worldmap self ∧
            data self' = data self ∧ visible_labels self' = visible_labels self ∧
            is_zooming self' = (zoom_mode event || is_zooming self) ∧
            highlight_patch self' = None ∧ tooltip_visible self' = false).
  { destruct (remove_highlight_one (hide_tooltip (flagged self event)))
      as (s1 & Hr & Hh & Hc & ->); [exact Hone0 |].
    eexists. split; [exact Hr |]. unfold one_highlight. cbn.
    rewrite Hw, Hd, Hl, Hz. done. }
  destruct (inaxes event) eqn:Hax; cbn [negb].
  2: { destruct Hmiss as (s1 & -> & ? & ? & ? & ? & ? & ? & ?).
       exists s1. do 6 (split; [done |]). split; [done |].
       intros; discriminate. }
  rewrite Hw.
  destruct (first_hit_is_Some (xydata event) (worldmap self) Hgeo) as [hit Hhit].
  rewrite Hhit. cbn [mbind option_bind].
  destruct hit as [terr |].
  2: { destruct Hmiss as (s1 & -> & ? & ? & ? & ? & ? & ? & ?).
       exists s1. do 6 (split; [done |]). split; [done |].
       intros; discriminate. }
  destruct (first_hit_Some _ _ _ Hhit) as (g & Hg & _ & _).
  rewrite Hd, (details_printable _ terr Hfmt). cbn [mbind option_bind].
  rewrite Hg. cbn [mbind option_bind].
  assert (Hsz : size_for (flagged self event) terr = size_for self terr)
    by (unfold size_for; by rewrite Hd).
  rewrite Hsz.
  match goal with
  | |- ∃ _, highlight_country ?s g = _ ∧ _ =>
      destruct (highlight_country_one s g Hone0)
        as (s1 & -> & Hone1 & Hh1 & Hw1 & Hd1 & Hl1 & Hz1 & Htv & Hts & Htp)
  end.
  cbn in Hh1, Hw1, Hd1, Hl1, Hz1, Htv, Hts, Htp.
  exists s1. split; [done |]. split; [done |].
  rewrite Hw1, Hd1, Hl1, Hz1, Hw, Hd, Hl, Hz. do 4 (split; [done |]).
  split; [intros [? | ?]; discriminate |].
  intros terr' g' _ [= <-] Hg'. rewrite Hg in Hg'. injection Hg' as <-.
  by rewrite Hh1, Hn, Htv, Hts, Htp.
Qed.

(** One event of either kind: the handler returns and keeps the
    invariants; the labels change only on a release in zoom mode. *)
Lemma handle_one (self : t) (a : Action) :
  one_highlight self → well_formed self →
  ∃ self', handle contains_point self a = Some self' ∧
    one_highlight self' ∧ well_formed self' ∧
    worldmap self' = worldmap self ∧ data self' = data self ∧
    match a with
    | Release true xlim ylim =>
        MapChart.update_labels xlim ylim (visible_labels self)
        = Some (visible_labels self')
    | _ => visible_labels self' = visible_labels self
    end.
Proof.
  intros Hone (Hgeo & Hfmt & Hpts).
  destruct a as [event | [] xlim ylim]; cbn [handle].
  - destruct (on_hover_one self event Hone Hgeo Hfmt)
      as (s1 & -> & Hone1 & Hw & Hd & Hl & _).
    exists s1. split; [done |]. split; [done |].
    split; [| done]. unfold well_formed. by rewrite Hw, Hd, Hl.
  - unfold on_zoom.
    destruct (update_labels_points xlim ylim (visible_labels self) Hpts)
      as (ls & Hu & Hpts').
    change (visible_labels (set_is_zooming self false))
      with (visible_labels self).
    rewrite Hu. cbn [mbind option_bind]. eexists. split; [reflexivity |].
    repeat split; done.
  - exists self. cbn. repeat split; done.
Qed.

Lemma run_all (actions : list Action) (self : t) :
  one_highlight self → well_formed self →
  ∃ self', run contains_point self actions = Some self' ∧
    one_highlight self' ∧ well_formed self' ∧
    worldmap self' = worldmap self ∧ data self' = data self ∧
    match last_zoom actions with
    | Some (xlim, ylim) =>
        MapChart.update_labels xlim ylim (visible_labels self)
        = Some (visible_labels self')
    | None => visible_labels self' = visible_labels self
    end.
Proof.
  revert self. induction actions as [| a actions IH]; intros self Hone Hwf.
  { exists self. cbn. done. }
  destruct (handle_one self a Hone Hwf) as (s1 & Hh & Hone1 & Hwf1 & Hw1 & Hd1 & Hl1).
  destruct (IH s1 Hone1 Hwf1) as (s' & Hr & Hone' & Hwf' & Hw' & Hd' & Hl').
  exists s'. cbn [run]. rewrite Hh. cbn [mbind option_bind].
  split; [done |]. split; [done |]. split; [done |].
  split; [congruence |]. split; [congruence |].
  cbn [last_zoom]. destruct (last_zoom actions) as [[xl yl] |].
  - destruct a as [event | [] xlim ylim]; try (by rewrite <- Hl1).
    by rewrite <- (update_labels_again _ _ _ _ _ _ Hl1).
  - destruct a as [event | [] xlim ylim]; try congruence.
Qed.

(** X17: the map never piles up highlights.  From a state in which the
    axes hold the current highlight and no other (as after construction),
    over a boundary file whose territories all have a geometry and data
    whose printed cells are numbers or null, every run of pointer motions
    and button releases returns, and at its end the axes again hold at most
    one highlight collection, the current one; the boundary file and the
    data are untouched. *)
Theorem map_run_keeps_one_highlight (actions : list Action) (self : t) :
  one_highlight self → well_formed self →
  ∃ self', run contains_point self actions = Some self' ∧
    collections self' = option_list (highlight_patch self') ∧
    (length (collections self') ≤ 1)%nat ∧
    worldmap self' = worldmap self ∧ data self' = data self.
Proof.
  intros Hone Hwf.
  destruct (run_all actions self Hone Hwf) as (s' & Hr & Hone' & _ & Hw & Hd & _).
  exists s'. split; [done |]. split; [done |]. split; [| done].
  rewrite Hone'. destruct (highlight_patch s'); cbn; lia.
Qed.

(** X18: what one pointer motion over the map shows.  With the pointer
    inside the axes, the handler highlights the first territory, in the
    order of the boundary file, whose geometry contains the pointer: one
    outline for a polygon, one per part for a multi-polygon, none for
    another geometry; the tooltip is shown, 375 x 315 when the data has a
    row with the territory's code and 220 x 60 when it has none, at the
    place computed from that size.  When no territory contains the
    pointer, or the pointer is outside the axes, there is no highlight and
    the tooltip is hidden. *)
Theorem map_hover_first_hit (self : t) (event : Event) :
  one_highlight self → well_formed self →
  ∃ self', on_hover contains_point self event = Some self' ∧
    (inaxes event = false ∨ misses contains_point (xydata event) (worldmap self) →
       highlight_patch self' = None ∧ tooltip_visible self' = false) ∧
    (∀ l1 terr l2 g,
       inaxes event = true →
       worldmap self = l1 ++ terr :: l2 →
       misses contains_point (xydata event) l1 →
       Loader.geometry terr = Some g →
       contains_point g (xydata event) = true →
       highlight_patch self' = (λ ps, (next_id self, ps)) <$> outline g ∧
       tooltip_visible self' = true ∧
       tooltip_size self'
         = Some (if has_data_row (data self) terr then (375, 315) else (220, 60)) ∧
       tooltip_pos self' =
         Tooltip.move
           {| Tooltip.mouse_x := (local_pos event).1;
              Tooltip.mouse_y := (local_pos event).2;
              Tooltip.tooltip_width := (size_for self terr).1;
              Tooltip.tooltip_height := (size_for self terr).2;
              Tooltip.window_width := (window event).1;
              Tooltip.window_height := (window event).2 |}).
Proof.
  intros Hone (Hgeo & Hfmt & _).
  destruct (on_hover_one self event Hone Hgeo Hfmt)
    as (s1 & Hh & _ & _ & _ & _ & _ & Hmiss & Hhit).
  exists s1. split; [done |]. split.
  - intros [Hout | Hm]; apply Hmiss; [by left |].
    right. by apply first_hit_miss.
  - intros l1 terr l2 g Hax Hw Hm Hg Hc.
    apply (Hhit terr g Hax); [| done]. rewrite Hw.
    apply first_hit_first with g; try done.
    rewrite Hw in Hgeo. by apply Forall_app in Hgeo as [? _].
Qed.

(** X20: the one pointer motion the map fails on.  From a state in which
    the axes hold the current highlight and no other, over a boundary file
    whose territories all have a geometry, the hover handler raises exactly
    when the pointer is inside the axes, over a territory, and the first row
    of the data with the territory's code holds a text in one of the
    fourteen columns the large tooltip prints with two decimals; the later
    rows with that code do not matter. *)
Theorem map_hover_raises_iff (self : t) (event : Event) :
  one_highlight self →
  Forall (λ f, is_Some (Loader.geometry f)) (worldmap self) →
  on_hover contains_point self event = None ↔
  inaxes event = true ∧
  ∃ terr data_row,
    first_hit contains_point (xydata event) (worldmap self) = Some (Some terr) ∧
    find (matches terr) (data self) = Some data_row ∧
    ¬ printable data_row.
Proof.
  intros Hone Hgeo. unfold on_hover.
  assert (Hone0 : one_highlight (flagged self event))
    by (unfold flagged; by destruct (zoom_mode event)).
  assert (Hf : worldmap (flagged self event) = worldmap self ∧
               data (flagged self event) = data self)
    by (unfold flagged; by destruct (zoom_mode event)).
  destruct Hf as (Hw & Hd).
  destruct (remove_highlight_one (hide_tooltip (flagged self event)) Hone0)
    as (s1 & Hr & _).
  destruct (inaxes event) eqn:Hax; cbn [negb].
  2: { rewrite Hr. split; [discriminate | by intros [? _]]. }
  rewrite Hw.
  destruct (first_hit_is_Some (xydata event) (worldmap self) Hgeo) as [hit Hhit].
  rewrite Hhit. cbn [mbind option_bind].
  destruct hit as [terr |].
  2: { rewrite Hr. split; [discriminate | by intros [_ (? & ? & ? & _)]]. }
  destruct (first_hit_Some _ _ _ Hhit) as (g & Hg & _ & _).
  rewrite Hd. unfold details.
  assert (Hret : ∀ s, one_highlight s →
            is_Some (Loader.geometry terr ≫= λ geometry, highlight_country s geometry)).
  { intros s Hs. rewrite Hg. cbn [mbind option_bind].
    destruct (highlight_country_one s g Hs) as (s2 & -> & _). by eexists. }
  destruct (find (matches terr) (data self)) as [r |] eqn:Ef.
  - destruct (forallb (prints_2f r) detail_columns) eqn:Ep; cbn [mbind option_bind].
    + match goal with
      | |- ?o = None ↔ _ => assert (Hs : is_Some o) by (by apply Hret)
      end.
      destruct Hs as [s2 ->]. split; [discriminate |].
      intros [_ (terr' & r' & [= <-] & Ef' & Hnp)].
      rewrite Ef in Ef'. injection Ef' as <-. by destruct Hnp.
    + split; [| done]. intros _. split; [done |].
      exists terr, r. repeat split; [done |]. unfold printable. by rewrite Ep.
  - cbn [mbind option_bind].
    match goal with
    | |- ?o = None ↔ _ => assert (Hs : is_Some o) by (by apply Hret)
    end.
    destruct Hs as [s2 ->]. split; [discriminate |].
    intros [_ (terr' & r' & [= <-] & Ef' & _)]. congruence.
Qed.

(** X19: the labels show the visibility for the limits of the last
    release in zoom mode.  After any run of motions and releases, the
    labels are what [update_labels] gives on the labels the run started
    with for the limits at the last release made in zoom mode; a run
    without one, pans included, leaves the labels as they were, whatever
    the limits have become. *)
Theorem map_labels_follow_last_zoom (actions : list Action) (self : t) :
  one_highlight self → well_formed self →
  ∃ self', run contains_point self actions = Some self' ∧
    match last_zoom actions with
    | Some (xlim, ylim) =>
        MapChart.update_labels xlim ylim (visible_labels self)
        = Some (visible_labels self')
    | None => visible_labels self' = visible_labels self
    end.
Proof.
  intros Hone Hwf.
  destruct (run_all actions self Hone Hwf) as (s' & Hr & _ & _ & _ & _ & Hl).
  exists s'. done.
Qed.

End Shapely.

Lemma view_one_highlight : one_highlight MapExamples.view.
Proof. reflexivity. Qed.

Lemma view_well_formed : well_formed MapExamples.view.
Proof. repeat split; repeat constructor; cbn; eauto. Qed.

Lemma map_run_keeps_one_highlight_witness :
  let actions :=
    [Motion (MapExamples.motion_at 0 0); Motion (MapExamples.motion_at 1 1);
     Release true (-10, 10)%Q (-10, 10)%Q; Motion (MapExamples.motion_at 9 9)] in
  one_highlight MapExamples.view ∧ well_formed MapExamples.view ∧
  ∃ self', run MapExamples.in_square MapExamples.view actions = Some self' ∧
    collections self' = option_list (highlight_patch self') ∧
    (length (collections self') ≤ 1)%nat ∧
    worldmap self' = worldmap MapExamples.view ∧
    data self' = data MapExamples.view.
Proof.
  intros actions.
  split; [exact view_one_highlight |]. split; [exact view_well_formed |].
  exact (map_run_keeps_one_highlight MapExamples.in_square actions MapExamples.view
           view_one_highlight view_well_formed).
Defined.

Lemma map_hover_first_hit_witness :
  let event := MapExamples.motion_at 0 0 in
  one_highlight MapExamples.view ∧ well_formed MapExamples.view ∧
  ∃ self', on_hover MapExamples.in_square MapExamples.view event = Some self' ∧
    (inaxes event = false ∨
     misses MapExamples.in_square (xydata event) (worldmap MapExamples.view) →
       highlight_patch self' = None ∧ tooltip_visible self' = false) ∧
    (∀ l1 terr l2 g,
       inaxes event = true →
       worldmap MapExamples.view = l1 ++ terr :: l2 →
       misses MapExamples.in_square (xydata event) l1 →
       Loader.geometry terr = Some g →
       MapExamples.in_square g (xydata event) = true →
       highlight_patch self'
         = (λ ps, (next_id MapExamples.view, ps)) <$> outline g ∧
       tooltip_visible self' = true ∧
       tooltip_size self'
         = Some (if has_data_row (data MapExamples.view) terr
                 then (375, 315) else (220, 60)) ∧
       tooltip_pos self' =
         Tooltip.move
           {| Tooltip.mouse_x := (local_pos event).1;
              Tooltip.mouse_y := (local_pos event).2;
              Tooltip.tooltip_width := (size_for MapExamples.view terr).1;
              Tooltip.tooltip_height := (size_for MapExamples.view terr).2;
              Tooltip.window_width := (window event).1;
              Tooltip.window_height := (window event).2 |}).
Proof.
  intros event.
  split; [exact view_one_highlight |]. split; [exact view_well_formed |].
  exact (map_hover_first_hit MapExamples.in_square MapExamples.view event
           view_one_highlight view_well_formed).
Defined.

Lemma map_hover_raises_iff_witness :
  one_highlight MapExamples.view_text ∧
  Forall (λ f, is_Some (Loader.geometry f)) (worldmap MapExamples.view_text) ∧
  on_hover MapExamples.in_square MapExamples.view_text (MapExamples.motion_at 0 0)
  = None.
Proof.
  split; [reflexivity |]. split; [repeat constructor; cbn; eauto |].
  apply (map_hover_raises_iff MapExamples.in_square MapExamples.view_text
           (MapExamples.motion_at 0 0)).
  - reflexivity.
  - repeat constructor; cbn; eauto.
  - split; [reflexivity |].
    exists MapExamples.island_feature,
      {[ "Country code" := Text "ISL"; "Ladder score" := Text "n/a" ]}.
    split; [reflexivity |]. split; [reflexivity |].
    unfold printable. vm_compute. discriminate.
Defined.

(** The hover of the witness, evaluated: the island is outlined, and
    the large tooltip is shown at (125, 125). *)
Lemma hover_island :
  (λ s, (highlight_patch s, collections s, tooltip_visible s, tooltip_size s,
         tooltip_pos s)) <$>
    on_hover MapExamples.in_square MapExamples.view (MapExamples.motion_at 0 0)
  = Some (Some (0%nat, [ {| MapChart.area := 100;
                            MapChart.representative_point := (0, 0)%Q |} ]),
          [ (0%nat, [ {| MapChart.area := 100;
                         MapChart.representative_point := (0, 0)%Q |} ]) ],
          true, Some (375, 315), (125, 125)).
Proof. vm_compute. reflexivity. Qed.

Lemma map_labels_follow_last_zoom_witness :
  let actions :=
    [Release true (20, 30)%Q (20, 30)%Q; Motion (MapExamples.motion_at 0 0);
     Release true (-10, 10)%Q (-10, 10)%Q; Release false (50, 60)%Q (50, 60)%Q] in
  one_highlight MapExamples.view ∧ well_formed MapExamples.view ∧
  ∃ self', run MapExamples.in_square MapExamples.view actions = Some self' ∧
    match last_zoom actions with
    | Some (xlim, ylim) =>
        MapChart.update_labels xlim ylim (visible_labels MapExamples.view)
        = Some (visible_labels self')
    | None => visible_labels self' = visible_labels MapExamples.view
    end.
Proof.
  intros actions.
  split; [exact view_one_highlight |]. split; [exact view_well_formed |].
  exact (map_labels_follow_last_zoom MapExamples.in_square actions MapExamples.view
           view_one_highlight view_well_formed).
Defined.

End MapViewFacts.
